(** * Extension performance monitor: history ledger, alerts, matcher,
      process walk, attribution and scheduler start-up.

    Shallow embedding of
    - [src/services/performanceMonitor.ts] (class [PerformanceMonitor]),
    - the two revisions of [services/subprocessUsage.ts],
    - [src/constants.ts] and [src/services/configManager.ts].

    Conventions of the embedding.
    - A JavaScript [number] holding a measurement, a threshold, a timestamp
      or a configuration value is an exact rational ([Q]); NaN, the
      infinities and rounding are outside the model.  Equality of computed
      numbers is [Qeq] ([==]).
    - A process id obtained with [Number(...)] is an integer ([Z]); the
      conversion itself is a parameter of the development.
    - A JavaScript [Map<string, T>] is a [gmap string T], a [Set<number>] a
      [gset Z]; objects mutated in place are threaded as explicit state.
    - A rejected promise or a thrown exception is the [Throw] outcome. *)

From Stdlib Require Import Ascii String QArith Qminmax Qround Lqa.
From stdpp Require Import gmap strings list sorting.

Local Open Scope Q_scope.
Local Open Scope stdpp_scope.

(** ** JavaScript helpers *)

(** [x < y] on numbers, as a boolean test. *)
Definition Qltb (x y : Q) : bool := negb (Qle_bool y x).

(** [Array.prototype.slice(-n)]: the last [n] elements, the whole array when
    it is shorter. *)
Definition slice_last {A : Type} (n : nat) (l : list A) : list A :=
  skipn (length l - n) l.

(** [Array.prototype.reduce(f, init)]. *)
Definition reduce {A B : Type} (f : B -> A -> B) (init : B) (l : list A) : B :=
  fold_left f l init.

(** ** Data model ([src/types]) *)

Record ExtensionMetrics := {
  em_id : string;
  em_displayName : string;
  em_version : string;
  em_isActive : bool;
  cpuUsage : Q;
  memoryUsage : Q;
  em_timestamp : Q;
  activationTime : option Q;
  estimatedCpuUsage : option Q;
  estimatedMemoryUsage : option Q;
  processCpuUsage : option Q;
  processMemoryUsage : option Q;
  subprocessCount : option nat
}.

Record Averages := { avg_cpu : Q; avg_memory : Q }.

Record Peak := { pk_value : Q; pk_timestamp : Q }.

Record Peaks := { peak_cpu : Peak; peak_memory : Peak }.

Record PerformanceHistory := {
  extensionId : string;
  metrics : list ExtensionMetrics;
  averages : Averages;
  peaks : Peaks
}.

Inductive AlertType := cpu_alert | memory_alert.

#[global] Instance AlertType_eq_dec : EqDecision AlertType.
Proof. solve_decision. Defined.

Record PerformanceAlert := {
  al_type : AlertType;
  al_extensionId : string;
  al_extensionName : string;
  al_value : Q;
  al_threshold : Q;
  al_timestamp : Q
}.

(** ** [src/constants.ts] *)

Module DEFAULTS.
Definition MONITORING_INTERVAL : Q := 5000.
Definition CPU_ALERT_THRESHOLD : Q := 80.
Definition MEMORY_ALERT_THRESHOLD : Q := 100.
Definition HISTORY_RETENTION_DAYS : Q := 7.
End DEFAULTS.

(** ** History ledger ([PerformanceMonitor.updateHistory]) *)

(** The record created when [performanceHistory.get(metric.id)] is
    undefined. *)
Definition newHistory (i : string) : PerformanceHistory :=
  {| extensionId := i;
     metrics := [];
     averages := {| avg_cpu := 0; avg_memory := 0 |};
     peaks := {| peak_cpu := {| pk_value := 0; pk_timestamp := 0 |};
                 peak_memory := {| pk_value := 0; pk_timestamp := 0 |} |} |}.

(** The body of [updateHistory] once [history] is bound: push, cap at 1000,
    recompute the averages over the last 100, update the peaks. *)
Definition recordMetric (history : PerformanceHistory) (metric : ExtensionMetrics)
  : PerformanceHistory :=
  let pushed := metrics history ++ [metric] in
  let kept := if (1000 <? length pushed)%nat then slice_last 1000 pushed else pushed in
  let recentMetrics := slice_last 100 kept in
  let n := inject_Z (Z.of_nat (length recentMetrics)) in
  let avgs :=
    {| avg_cpu := reduce (fun sum m => sum + cpuUsage m) 0 recentMetrics / n;
       avg_memory := reduce (fun sum m => sum + memoryUsage m) 0 recentMetrics / n |} in
  let pcpu :=
    if Qltb (pk_value (peak_cpu (peaks history))) (cpuUsage metric)
    then {| pk_value := cpuUsage metric; pk_timestamp := em_timestamp metric |}
    else peak_cpu (peaks history) in
  let pmem :=
    if Qltb (pk_value (peak_memory (peaks history))) (memoryUsage metric)
    then {| pk_value := memoryUsage metric; pk_timestamp := em_timestamp metric |}
    else peak_memory (peaks history) in
  {| extensionId := extensionId history;
     metrics := kept;
     averages := avgs;
     peaks := {| peak_cpu := pcpu; peak_memory := pmem |} |}.

(** [updateHistory(metric)] on the [performanceHistory] map. *)
Definition updateHistory (metric : ExtensionMetrics)
    (performanceHistory : gmap string PerformanceHistory)
  : gmap string PerformanceHistory :=
  let history := default (newHistory (em_id metric)) (performanceHistory !! em_id metric) in
  <[em_id metric := recordMetric history metric]> performanceHistory.

(** A sequence of inserts, oldest first. *)
Definition insertAll (ms : list ExtensionMetrics)
    (performanceHistory : gmap string PerformanceHistory)
  : gmap string PerformanceHistory :=
  fold_left (fun st m => updateHistory m st) ms performanceHistory.

(** [clearHistory()] on the map: [performanceHistory.clear()]. *)
Definition clearHistory (performanceHistory : gmap string PerformanceHistory)
  : gmap string PerformanceHistory := ∅.

(** ** Retention cleanup ([PerformanceMonitor.cleanupOldData]) *)

Definition cleanupRecord (cutoffTime : Q) (history : PerformanceHistory)
  : PerformanceHistory :=
  {| extensionId := extensionId history;
     metrics := filter (fun m => Qltb cutoffTime (em_timestamp m) = true) (metrics history);
     averages := averages history;
     peaks := peaks history |}.

(** [now] is [Date.now()] and [retentionDays] the value of
    [getConfig('historyRetentionDays', DEFAULTS.HISTORY_RETENTION_DAYS)];
    the count of removed points only feeds a log line. *)
Definition cleanupOldData (now retentionDays : Q)
    (performanceHistory : gmap string PerformanceHistory)
  : gmap string PerformanceHistory :=
  let cutoffTime := now - retentionDays * 24 * 60 * 60 * 1000 in
  cleanupRecord cutoffTime <$> performanceHistory.

(** ** Alert evaluation ([PerformanceMonitor.checkAlerts]) *)

(** The alerts handed to [showAlert], in the order they are shown. *)
Definition checkAlerts (cpuThreshold memoryThreshold : Q) (metric : ExtensionMetrics)
  : list PerformanceAlert :=
  (if Qltb cpuThreshold (cpuUsage metric)
   then [ {| al_type := cpu_alert;
             al_extensionId := em_id metric;
             al_extensionName := em_displayName metric;
             al_value := cpuUsage metric;
             al_threshold := cpuThreshold;
             al_timestamp := em_timestamp metric |} ]
   else [])
  ++
  (if Qltb memoryThreshold (memoryUsage metric)
   then [ {| al_type := memory_alert;
             al_extensionId := em_id metric;
             al_extensionName := em_displayName metric;
             al_value := memoryUsage metric;
             al_threshold := memoryThreshold;
             al_timestamp := em_timestamp metric |} ]
   else []).

(** ** Component matcher ([findBestMatch], both revisions of
       [subprocessUsage.ts]) *)

Record ExtensionIndexEntry := {
  ie_id : string;
  ie_name : string;
  ie_path : string;
  ie_idLower : string
}.

(** [String.prototype.toLowerCase] on strings of ASCII characters, which
    is what the model covers: the capital letters become small letters.  On
    such strings [String.length] is [.length].  Bytes from 128 on are left
    as they are, which is not what the code does to the letters outside
    ASCII; a statement that holds of the code only on ASCII strings carries
    the hypothesis [isAscii]. *)
Definition lowerChar (c : ascii) : ascii :=
  let n := nat_of_ascii c in
  if ((65 <=? n) && (n <=? 90))%nat then ascii_of_nat (n + 32) else c.

Fixpoint toLowerCase (s : string) : string :=
  match s with
  | EmptyString => EmptyString
  | String c s' => String (lowerChar c) (toLowerCase s')
  end.

(** [value.replace(/\\/g, '/')]: every backslash (byte 92) becomes a
    slash (byte 47). *)
Definition slashChar (c : ascii) : ascii :=
  if (nat_of_ascii c =? 92)%nat then ascii_of_nat 47 else c.

Fixpoint replaceBackslashes (s : string) : string :=
  match s with
  | EmptyString => EmptyString
  | String c s' => String (slashChar c) (replaceBackslashes s')
  end.

Definition normalizePath (value : string) : string :=
  toLowerCase (replaceBackslashes value).

Fixpoint startsWith (haystack needle : string) : bool :=
  match needle, haystack with
  | EmptyString, _ => true
  | String _ _, EmptyString => false
  | String a n', String b h' => if decide (a = b) then startsWith h' n' else false
  end.

(** [String.prototype.includes]. *)
Fixpoint includes (haystack needle : string) : bool :=
  startsWith haystack needle ||
  match haystack with
  | EmptyString => false
  | String _ h' => includes h' needle
  end.

(** The test of the [if] inside the loop of [findBestMatch]. *)
Definition candidateMatches (haystack : string) (extension : ExtensionIndexEntry) : bool :=
  includes haystack (ie_path extension) || includes haystack (ie_idLower extension).

(** One iteration of the [for] loop of [findBestMatch] on [best]. *)
Definition considerCandidate (haystack : string)
    (best : option ExtensionIndexEntry) (extension : ExtensionIndexEntry)
  : option ExtensionIndexEntry :=
  if candidateMatches haystack extension then
    match best with
    | None => Some extension
    | Some b =>
        if (String.length (ie_path b) <? String.length (ie_path extension))%nat
        then Some extension else best
    end
  else best.

Definition findBestMatch (command : string) (extensions : list ExtensionIndexEntry)
  : option ExtensionIndexEntry :=
  if decide (command = EmptyString) then None
  else fold_left (considerCandidate (normalizePath command)) extensions None.

(** ** Process walk, sampling and attribution ([subprocessUsage.ts]) *)

Record PsTreeEntry := {
  PID : string;
  PPID : string;
  COMMAND : option string;
  COMM : option string;
  COMMAND_LINE : option string
}.

(** A settled promise: fulfilled with a value or rejected with an error. *)
Inductive result (A : Type) : Type :=
| Ok (a : A)
| Throw (e : string).
Arguments Ok {A} a.
Arguments Throw {A} e.

(** One entry of the object returned by [pidusage]; both fields may be
    missing. [st_memory] is in bytes. *)
Record PidusageStat := { st_cpu : option Q; st_memory : option Q }.

Record SubprocessUsage := {
  su_pid : Z;
  su_ppid : Z;
  su_command : string;
  su_cpu : Q;
  su_memory : Q
}.

Record ExtensionSubprocessStats := {
  ss_extensionId : string;
  totalCpu : Q;
  totalMemory : Q;
  processCount : nat;
  processes : list SubprocessUsage
}.

Record ExtensionLike := {
  el_id : string;
  el_extensionPath : string;
  el_isActive : bool;
  el_displayName : option string;
  el_version : option string
}.

Record CollectSubprocessStatsOptions := {
  pidToExtensionId : option (gmap Z string);
  rootPid : option Z;
  debug : bool
}.

(** The two mutable locals of [getAllDescendants] that [collect] closes
    over. *)
Record WalkState := { allChildren : list PsTreeEntry; visited : gset Z }.

(** [a || b] on strings: the first one that is not empty. *)
Definition orElse (a : option string) (b : string) : string :=
  match a with
  | Some s => if decide (s = EmptyString) then b else s
  | None => b
  end.

Definition resolveCommand (entry : PsTreeEntry) : string :=
  orElse (COMMAND_LINE entry) (orElse (COMMAND entry) (orElse (COMM entry) EmptyString)).

Section Subprocess.

(** [Number(s)] on a pid column: [Some n] when the string denotes the
    finite number [n], [None] when the result is NaN or infinite. *)
Variable Number_ : string -> option Z.

(** [getProcessTree(pid)]: the promise around [psTree]. *)
Variable getProcessTree : Z -> result (list PsTreeEntry).

(** [pidusage(pids)]: the whole batch fails or an object indexed by pid
    comes back. *)
Variable pidusage : list Z -> result (gmap Z PidusageStat).

(** [process.pid]. *)
Variable process_pid : Z.

(** [Number.isFinite(pid) && pid > 0] *)
Definition validPid (s : string) : option Z :=
  match Number_ s with
  | Some p => if (0 <? p)%Z then Some p else None
  | None => None
  end.

(** The [for] loop of [collect]; [rec] is the recursive call.  [None]
    means that the fuel of an inner call ran out. *)
Fixpoint collectChildren (rec : Z -> WalkState -> option (result WalkState))
    (children : list PsTreeEntry) (st : WalkState) : option (result WalkState) :=
  match children with
  | [] => Some (Ok st)
  | child :: rest =>
      match validPid (PID child) with
      | Some childPid =>
          match rec childPid {| allChildren := allChildren st ++ [child];
                                visited := visited st |} with
          | Some (Ok st') => collectChildren rec rest st'
          | other => other
          end
      | None => collectChildren rec rest st
      end
  end.

(** The inner function [collect] of [getAllDescendants]. *)
Fixpoint collect (fuel : nat) (pid : Z) (st : WalkState)
  : option (result WalkState) :=
  match fuel with
  | O => None
  | S fuel' =>
      if decide (pid ∈ visited st) then Some (Ok st)
      else
        let st1 := {| allChildren := allChildren st;
                      visited := {[pid]} ∪ visited st |} in
        match getProcessTree pid with
        | Throw e => Some (Throw e)
        | Ok children => collectChildren (collect fuel') children st1
        end
  end.

Definition getAllDescendants (fuel : nat) (root : Z)
  : option (result (list PsTreeEntry)) :=
  match collect fuel root {| allChildren := []; visited := ∅ |} with
  | Some (Ok st) => Some (Ok (allChildren st))
  | Some (Throw e) => Some (Throw e)
  | None => None
  end.

(** The numeric pids of a listing, as the loops read them. *)
Definition pidsOf (children : list PsTreeEntry) : list Z :=
  omap (fun child => validPid (PID child)) children.

Definition indexExtension (extension : ExtensionLike) : ExtensionIndexEntry :=
  {| ie_id := el_id extension;
     ie_name := orElse (el_displayName extension) (el_id extension);
     ie_path := normalizePath (el_extensionPath extension);
     ie_idLower := toLowerCase (el_id extension) |}.

Definition indexById (indexed : list ExtensionIndexEntry)
  : gmap string ExtensionIndexEntry :=
  fold_left (fun m entry => <[ie_id entry := entry]> m) indexed ∅.

(** [options?.pidToExtensionId?.get(pid)], kept only when truthy. *)
Definition forcedExtensionId (options : option CollectSubprocessStatsOptions)
    (pid : Z) : option string :=
  match options with
  | Some o =>
      match pidToExtensionId o with
      | Some forced =>
          match forced !! pid with
          | Some i => if decide (i = EmptyString) then None else Some i
          | None => None
          end
      | None => None
      end
  | None => None
  end.

(** One iteration of the aggregation loop of [collectSubprocessStats]. *)
Definition attributeChild (options : option CollectSubprocessStatsOptions)
    (indexed : list ExtensionIndexEntry)
    (usageStats : gmap Z PidusageStat)
    (statsByExtension : gmap string ExtensionSubprocessStats)
    (child : PsTreeEntry) : gmap string ExtensionSubprocessStats :=
  match Number_ (PID child) with
  | None => statsByExtension
  | Some pid =>
      match usageStats !! pid with
      | None => statsByExtension
      | Some usage =>
          let command := resolveCommand child in
          let found :=
            match forcedExtensionId options pid with
            | Some forced => indexById indexed !! forced
            | None => findBestMatch command indexed
            end in
          match found with
          | None => statsByExtension
          | Some matched =>
              let entry :=
                {| su_pid := pid;
                   su_ppid := default 0%Z (Number_ (PPID child));
                   su_command := command;
                   su_cpu := default 0 (st_cpu usage);
                   su_memory :=
                     match st_memory usage with
                     | Some b => if Qeq_bool b 0 then 0 else b / (1024 * 1024)
                     | None => 0
                     end |} in
              let existing :=
                default {| ss_extensionId := ie_id matched; totalCpu := 0;
                           totalMemory := 0; processCount := 0; processes := [] |}
                        (statsByExtension !! ie_id matched) in
              <[ie_id matched :=
                  {| ss_extensionId := ss_extensionId existing;
                     totalCpu := totalCpu existing + su_cpu entry;
                     totalMemory := totalMemory existing + su_memory entry;
                     processCount := S (processCount existing);
                     processes := processes existing ++ [entry] |}]> statsByExtension
          end
      end
  end.

(** What [collectSubprocessStats] does once [children] is known. *)
Definition attribute (options : option CollectSubprocessStatsOptions)
    (extensions : list ExtensionLike) (children : list PsTreeEntry)
  : result (gmap string ExtensionSubprocessStats) :=
  let statsByExtension : gmap string ExtensionSubprocessStats := ∅ in
  let indexed := map indexExtension extensions in
  match children with
  | [] => Ok statsByExtension
  | _ =>
      match pidsOf children with
      | [] => Ok statsByExtension
      | pids =>
          match pidusage pids with
          | Throw _ => Ok statsByExtension
          | Ok usageStats =>
              Ok (fold_left (attributeChild options indexed usageStats)
                            children statsByExtension)
          end
      end
  end.

(** Current revision: walks from [options.rootPid ?? process.pid]. *)
Definition collectSubprocessStats (fuel : nat) (extensions : list ExtensionLike)
    (options : option CollectSubprocessStatsOptions)
  : option (result (gmap string ExtensionSubprocessStats)) :=
  let root := default process_pid (options ≫= rootPid) in
  match getAllDescendants fuel root with
  | None => None
  | Some (Throw e) => Some (Throw e)
  | Some (Ok children) => Some (attribute options extensions children)
  end.

(** Earlier revision: one call of [getProcessTree(process.pid)], no
    options. *)
Definition collectSubprocessStats_v1 (extensions : list ExtensionLike)
  : result (gmap string ExtensionSubprocessStats) :=
  match getProcessTree process_pid with
  | Throw e => Throw e
  | Ok children => attribute None extensions children
  end.

End Subprocess.

(** ** The monitor ([PerformanceMonitor]) *)

(** What [vscode.workspace.getConfiguration()] holds under [extperf]; a
    setting nobody supplied is [None]. *)
Record ExtPerfSettings := {
  cfg_monitoringInterval : option Q;
  cfg_alertThresholds_cpu : option Q;
  cfg_alertThresholds_memory : option Q;
  cfg_historyRetentionDays : option Q
}.

(** [ConfigManager.getConfig(key, defaultValue)]: [config.get] with a
    fallback, nothing else. *)
Definition getConfig {T : Type} (configured : option T) (defaultValue : T) : T :=
  default defaultValue configured.

(** Lines appended to the output channel: the start and stop messages,
    [Error collecting subprocess stats: e] and [ALERT: ...]. *)
Inductive LogLine :=
| LogStarting (interval : Q)
| LogStopped
| LogSubprocessError (e : string)
| LogAlert (alert : PerformanceAlert).

(** The mutable fields of the class.  [monitoringInterval] is the armed
    timer, represented by the period it was armed with; [shownAlerts] are
    the warnings [showAlert] has put on screen so far.  Persisting the
    history and firing [onMetricsUpdated] leave these fields alone and are
    not represented. *)
Record MonitorState := {
  monitoringInterval : option Q;
  performanceHistory : gmap string PerformanceHistory;
  currentMetrics : list ExtensionMetrics;
  isMonitoringActive : bool;
  outputChannel : list LogLine;
  subprocessStats : gmap string ExtensionSubprocessStats;
  shownAlerts : list PerformanceAlert
}.

Definition initialState : MonitorState :=
  {| monitoringInterval := None;
     performanceHistory := ∅;
     currentMetrics := [];
     isMonitoringActive := false;
     outputChannel := [];
     subprocessStats := ∅;
     shownAlerts := [] |}.

Definition stopMonitoring (st : MonitorState) : MonitorState :=
  {| monitoringInterval := None;
     performanceHistory := performanceHistory st;
     currentMetrics := currentMetrics st;
     isMonitoringActive := false;
     outputChannel := outputChannel st ++ [LogStopped];
     subprocessStats := subprocessStats st;
     shownAlerts := shownAlerts st |}.

Section Monitor.

Variable Number_ : string -> option Z.
Variable getProcessTree : Z -> result (list PsTreeEntry).
Variable pidusage : list Z -> result (gmap Z PidusageStat).
Variable process_pid : Z.

(** [vscode.extensions.all] and the settings. *)
Variable extensions : list ExtensionLike.
Variable settings : ExtPerfSettings.

(** [Date.now()] at the start of the round. *)
Variable now : Q.

(** The heuristic estimates draw on [Math.random]; each is a value
    supplied per extension. *)
Variable estimateCpuUsage : ExtensionLike -> Q.
Variable estimateMemoryUsage : ExtensionLike -> Q.
Variable getActivationTime : ExtensionLike -> Q.

(** The [metric] object literal of [collectMetrics]. *)
Definition buildMetric (stats : gmap string ExtensionSubprocessStats)
    (extension : ExtensionLike) : ExtensionMetrics :=
  let subprocessInfo := stats !! el_id extension in
  let estimatedCpu := estimateCpuUsage extension in
  let estimatedMemory := estimateMemoryUsage extension in
  let processCpu := default 0 (totalCpu <$> subprocessInfo) in
  let processMemory := default 0 (totalMemory <$> subprocessInfo) in
  let count := default 0%nat (processCount <$> subprocessInfo) in
  let useProcessUsage := (0 <? count)%nat in
  {| em_id := el_id extension;
     em_displayName := orElse (el_displayName extension) (el_id extension);
     em_version := orElse (el_version extension) "unknown";
     em_isActive := el_isActive extension;
     cpuUsage := if useProcessUsage then processCpu else estimatedCpu;
     memoryUsage := if useProcessUsage then processMemory else estimatedMemory;
     em_timestamp := now;
     activationTime :=
       if el_isActive extension then Some (getActivationTime extension) else None;
     estimatedCpuUsage := Some estimatedCpu;
     estimatedMemoryUsage := Some estimatedMemory;
     processCpuUsage := Some processCpu;
     processMemoryUsage := Some processMemory;
     subprocessCount := Some count |}.

(** One iteration of the [for] loop over the extensions: the local
    [metrics] array and the fields of [this] it touches. *)
Definition roundStep (stats : gmap string ExtensionSubprocessStats)
    (acc : list ExtensionMetrics * MonitorState) (extension : ExtensionLike)
  : list ExtensionMetrics * MonitorState :=
  let '(collected, st) := acc in
  if startsWith (el_id extension) "vscode." then acc
  else
    let metric := buildMetric stats extension in
    let cpuThreshold :=
      getConfig (cfg_alertThresholds_cpu settings) DEFAULTS.CPU_ALERT_THRESHOLD in
    let memoryThreshold :=
      getConfig (cfg_alertThresholds_memory settings) DEFAULTS.MEMORY_ALERT_THRESHOLD in
    let alerts := checkAlerts cpuThreshold memoryThreshold metric in
    (collected ++ [metric],
     {| monitoringInterval := monitoringInterval st;
        performanceHistory := updateHistory metric (performanceHistory st);
        currentMetrics := currentMetrics st;
        isMonitoringActive := isMonitoringActive st;
        outputChannel := outputChannel st ++ map LogAlert alerts;
        subprocessStats := subprocessStats st;
        shownAlerts := shownAlerts st ++ alerts |}).

(** [collectMetrics()] once the attribution promise has settled with
    [attribution]: the [catch] logs and keeps the empty map. *)
Definition finishRound (attribution : result (gmap string ExtensionSubprocessStats))
    (st : MonitorState) : list ExtensionMetrics * MonitorState :=
  let '(stats, channel) :=
    match attribution with
    | Ok stats => (stats, outputChannel st)
    | Throw e => (∅, outputChannel st ++ [LogSubprocessError e])
    end in
  let st1 :=
    {| monitoringInterval := monitoringInterval st;
       performanceHistory := performanceHistory st;
       currentMetrics := currentMetrics st;
       isMonitoringActive := isMonitoringActive st;
       outputChannel := channel;
       subprocessStats := stats;
       shownAlerts := shownAlerts st |} in
  let '(collected, st2) := fold_left (roundStep stats) extensions ([], st1) in
  (collected,
   {| monitoringInterval := monitoringInterval st2;
      performanceHistory := performanceHistory st2;
      currentMetrics := collected;
      isMonitoringActive := isMonitoringActive st2;
      outputChannel := outputChannel st2;
      subprocessStats := subprocessStats st2;
      shownAlerts := shownAlerts st2 |}).

(** [collectMetrics()]: [None] only when the walk runs out of fuel. *)
Definition collectMetrics (fuel : nat) (st : MonitorState)
  : option (list ExtensionMetrics * MonitorState) :=
  match collectSubprocessStats Number_ getProcessTree pidusage process_pid
          fuel extensions None with
  | None => None
  | Some attribution => Some (finishRound attribution st)
  end.

(** The same round on the earlier revision of [collectSubprocessStats]. *)
Definition collectMetrics_v1 (st : MonitorState)
  : list ExtensionMetrics * MonitorState :=
  finishRound
    (collectSubprocessStats_v1 Number_ getProcessTree pidusage process_pid extensions)
    st.

(** [startMonitoring()]. *)
Definition startMonitoring (fuel : nat) (st : MonitorState) : option MonitorState :=
  if isMonitoringActive st then Some st
  else
    let interval :=
      getConfig (cfg_monitoringInterval settings) DEFAULTS.MONITORING_INTERVAL in
    let st1 :=
      {| monitoringInterval := monitoringInterval st;
         performanceHistory := performanceHistory st;
         currentMetrics := currentMetrics st;
         isMonitoringActive := true;
         outputChannel := outputChannel st ++ [LogStarting interval];
         subprocessStats := subprocessStats st;
         shownAlerts := shownAlerts st |} in
    match collectMetrics fuel st1 with
    | None => None
    | Some (_, st2) =>
        Some {| monitoringInterval := Some interval;
                performanceHistory := performanceHistory st2;
                currentMetrics := currentMetrics st2;
                isMonitoringActive := isMonitoringActive st2;
                outputChannel := outputChannel st2;
                subprocessStats := subprocessStats st2;
                shownAlerts := shownAlerts st2 |}
    end.

End Monitor.

(** ** Notions the properties are stated with *)

Definition sumList (l : list Q) : Q := fold_right Qplus 0 l.

(** The arithmetic mean: the sum of the values over their number. *)
Definition mean (l : list Q) : Q := sumList l / inject_Z (Z.of_nat (length l)).

(** [v] is the maximum of the values [l]: no value exceeds it and one of
    them equals it. *)
Definition isMaxOf (v : Q) (l : list Q) : Prop :=
  Forall (fun x => x <= v) l /\ Exists (fun x => x == v) l.

(** [needle] occurs in [hay] as a substring. *)
Definition occursIn (needle hay : string) : Prop :=
  exists pre post, hay = pre +:+ needle +:+ post.

(** The matching rule: the normalized command line contains the
    candidate's normalized install path or its lowercased id. *)
Definition matchesCandidate (haystack : string) (c : ExtensionIndexEntry) : Prop :=
  occursIn (ie_path c) haystack \/ occursIn (ie_idLower c) haystack.

(** The listing of a process succeeded. *)
Definition listed (getProcessTree : Z -> result (list PsTreeEntry)) (pid : Z) : Prop :=
  exists children, getProcessTree pid = Ok children.

(** What a successful stretch of the walk may have done to the state:
    [visited] only grows, every pid it added was listed successfully, and
    the entries appended to [allChildren] have their pids in [visited]. *)
Definition walkExtends (Number_ : string -> option Z)
    (getProcessTree : Z -> result (list PsTreeEntry)) (st st' : WalkState) : Prop :=
  visited st ⊆ visited st' /\
  (forall p, p ∈ visited st' -> p ∈ visited st \/ listed getProcessTree p) /\
  exists new,
    allChildren st' = allChildren st ++ new /\
    forall p, p ∈ pidsOf Number_ new -> p ∈ visited st'.

(** The extensions a round reports on: all but the built-in ones, whose
    id starts with [vscode.]. *)
Definition reported (extensions : list ExtensionLike) : list ExtensionLike :=
  List.filter (fun extension => negb (startsWith (el_id extension) "vscode.")) extensions.

(** The period [start] arms the timer with, read off the settings. *)
Definition configuredInterval (settings : ExtPerfSettings) : Q :=
  match cfg_monitoringInterval settings with
  | Some interval => interval
  | None => 5000
  end.

(** ** Inputs of the worked scenarios *)

(** *** History *)

(** A sample with the given readings and timestamp. *)
Definition sample (i : string) (cpu mem ts : Q) : ExtensionMetrics :=
  {| em_id := i; em_displayName := i; em_version := "1.0.0"; em_isActive := true;
     cpuUsage := cpu; memoryUsage := mem; em_timestamp := ts;
     activationTime := None; estimatedCpuUsage := None; estimatedMemoryUsage := None;
     processCpuUsage := None; processMemoryUsage := None; subprocessCount := None |}.

(** The [i]-th point of the 1500-insert scenario: timestamp [i]. *)
Definition scenarioPoint (i : nat) : ExtensionMetrics :=
  sample "pub.ext" 1 10 (inject_Z (Z.of_nat i)).

Definition scenarioPoints : list ExtensionMetrics := map scenarioPoint (seq 1 1500).

(** A reading of an idle process: no cpu time, no memory reported. *)
Definition idleSample : ExtensionMetrics := sample "pub.ext" 0 0 1000.

(** Three samples of one extension; the second and the third tie on cpu. *)
Definition tiedSamples : list ExtensionMetrics :=
  [ sample "pub.ext" 5 40 1000; sample "pub.ext" 9 30 2000; sample "pub.ext" 9 35 3000 ].

(** One record whose only point was taken at time 1000, and a clean-up
    run exactly seven days later. *)
Definition agedSample : ExtensionMetrics := sample "pub.ext" 3 20 1000.

Definition agedHistory : gmap string PerformanceHistory := updateHistory agedSample ∅.

Definition sevenDaysLater : Q := 604801000.

(** *** Matching *)

(** The index of scenario A: two components installed under [/ext/a] and
    [/ext/b]. *)
Definition componentA : ExtensionIndexEntry :=
  {| ie_id := "Pub.A"; ie_name := "A"; ie_path := "/ext/a"; ie_idLower := "pub.a" |}.

Definition componentB : ExtensionIndexEntry :=
  {| ie_id := "Pub.B"; ie_name := "B"; ie_path := "/ext/b"; ie_idLower := "pub.b" |}.

(** *** Processes *)

(** [Number] restricted to strings of decimal digits, which is what the
    pid columns of a process listing hold ([Number("")] is 0). *)
Fixpoint digitsValue (s : string) (acc : Z) : option Z :=
  match s with
  | EmptyString => Some acc
  | String c s' =>
      let n := nat_of_ascii c in
      if ((48 <=? n) && (n <=? 57))%nat
      then digitsValue s' (acc * 10 + Z.of_nat (n - 48))%Z
      else None
  end.

Definition NumberOfDigits (s : string) : option Z := digitsValue s 0%Z.

Definition proc (pid ppid command : string) : PsTreeEntry :=
  {| PID := pid; PPID := ppid; COMMAND := Some command; COMM := None;
     COMMAND_LINE := None |}.

(** A host (pid 1) whose child 2 has itself a child 3; both run code of
    the extension installed under [/ext/a]. *)
Definition server : PsTreeEntry := proc "2" "1" "/ext/a/bin/server".
Definition worker : PsTreeEntry := proc "3" "2" "/ext/a/bin/worker".

(** [psTree] reports every descendant of the pid it is asked about. *)
Definition subtreeListing (pid : Z) : result (list PsTreeEntry) :=
  if decide (pid = 1%Z) then Ok [server; worker]
  else if decide (pid = 2%Z) then Ok [worker]
  else Ok [].

(** A listing that reports the one child of pid 1 twice. *)
Definition doubledListing (pid : Z) : result (list PsTreeEntry) :=
  if decide (pid = 1%Z) then Ok [server; server] else Ok [].



(** The pids of this host. *)
Definition demoPids : gset Z := {[1%Z; 2%Z; 3%Z]}.

Definition extensionA : ExtensionLike :=
  {| el_id := "Pub.A"; el_extensionPath := "/ext/a"; el_isActive := true;
     el_displayName := Some "A"; el_version := Some "1.0.0" |}.

(** Readings: 10% and 64 MiB for pid 2, 20% and 32 MiB for pid 3. *)
Definition steadyUsage (pids : list Z) : result (gmap Z PidusageStat) :=
  Ok (<[2%Z := {| st_cpu := Some 10; st_memory := Some 67108864 |}]>
      (<[3%Z := {| st_cpu := Some 20; st_memory := Some 33554432 |}]> ∅)).

(** The sampling primitive throws for the whole batch. *)
Definition usageDown (pids : list Z) : result (gmap Z PidusageStat) :=
  Throw "spawn ps ENOENT".

(** *** The monitor *)

Definition noSettings : ExtPerfSettings :=
  {| cfg_monitoringInterval := None; cfg_alertThresholds_cpu := None;
     cfg_alertThresholds_memory := None; cfg_historyRetentionDays := None |}.

(** A user set the interval to 100 ms. *)
Definition hastySettings : ExtPerfSettings :=
  {| cfg_monitoringInterval := Some 100; cfg_alertThresholds_cpu := None;
     cfg_alertThresholds_memory := None; cfg_historyRetentionDays := None |}.

(** The monitor of the host with pid 1 and the single extension [Pub.A],
    at time 1000, with fixed estimates. *)
Definition demoAttribution (getProcessTree : Z -> result (list PsTreeEntry))
    (pidusage : list Z -> result (gmap Z PidusageStat)) (fuel : nat)
  : option (result (gmap string ExtensionSubprocessStats)) :=
  collectSubprocessStats NumberOfDigits getProcessTree pidusage 1 fuel [extensionA] None.

Definition demoRound (getProcessTree : Z -> result (list PsTreeEntry))
    (pidusage : list Z -> result (gmap Z PidusageStat)) (settings : ExtPerfSettings)
    (fuel : nat) (st : MonitorState) : option (list ExtensionMetrics * MonitorState) :=
  collectMetrics NumberOfDigits getProcessTree pidusage 1 [extensionA] settings 1000
    (fun _ => 1) (fun _ => 7) (fun _ => 100) fuel st.

Definition demoStart (getProcessTree : Z -> result (list PsTreeEntry))
    (pidusage : list Z -> result (gmap Z PidusageStat)) (settings : ExtPerfSettings)
    (fuel : nat) (st : MonitorState) : option MonitorState :=
  startMonitoring NumberOfDigits getProcessTree pidusage 1 [extensionA] settings 1000
    (fun _ => 1) (fun _ => 7) (fun _ => 100) fuel st.

(** ** Further notions *)

(** What [normalizePath] does to one character. *)
Definition normChar (c : ascii) : ascii := lowerChar (slashChar c).

(** An ASCII capital letter, the backslash. *)
Definition isUpper (c : ascii) : Prop := (65 <= nat_of_ascii c <= 90)%nat.
Definition isBackslash (c : ascii) : Prop := nat_of_ascii c = 92%nat.

(** *** Attribution *)

(** The entry the aggregation loop looks up for a sampled process: the
    override when there is one, the heuristic match otherwise. *)
Definition ownerOf (options : option CollectSubprocessStatsOptions)
    (indexed : list ExtensionIndexEntry) (pid : Z) (command : string)
  : option ExtensionIndexEntry :=
  match forcedExtensionId options pid with
  | Some forced => indexById indexed !! forced
  | None => findBestMatch command indexed
  end.

(** The [entry] object literal of the aggregation loop. *)
Definition entryOf (Number_ : string -> option Z) (child : PsTreeEntry) (pid : Z)
    (usage : PidusageStat) : SubprocessUsage :=
  {| su_pid := pid;
     su_ppid := default 0%Z (Number_ (PPID child));
     su_command := resolveCommand child;
     su_cpu := default 0 (st_cpu usage);
     su_memory :=
       match st_memory usage with
       | Some b => if Qeq_bool b 0 then 0 else b / (1024 * 1024)
       | None => 0
       end |}.

(** The totals of an entry of the mapping agree with its process list. *)
Definition consistentStats (k : string) (s : ExtensionSubprocessStats) : Prop :=
  ss_extensionId s = k /\
  processCount s = length (processes s) /\
  (0 < processCount s)%nat /\
  totalCpu s == sumList (map su_cpu (processes s)) /\
  totalMemory s == sumList (map su_memory (processes s)).

(** *** Inputs: an override map, a second extension *)

Definition extensionB : ExtensionLike :=
  {| el_id := "Pub.B"; el_extensionPath := "/ext/b"; el_isActive := false;
     el_displayName := None; el_version := None |}.

(** Pid 3 is declared to belong to [Pub.B], pid 2 to an extension that is
    not installed. *)
Definition overrides : CollectSubprocessStatsOptions :=
  {| pidToExtensionId := Some (<[3%Z := "Pub.B"]> (<[2%Z := "Pub.Gone"]> ∅));
     rootPid := Some 1%Z;
     debug := false |}.

(** A listing without repetition: pid 1 has the children 2 and 3. *)
Definition flatListing (pid : Z) : result (list PsTreeEntry) :=
  if decide (pid = 1%Z) then Ok [server; worker] else Ok [].

(** The attribution step on the flat listing with the two extensions and
    the override map. *)
Definition overriddenAttribution : option (result (gmap string ExtensionSubprocessStats)) :=
  collectSubprocessStats NumberOfDigits flatListing steadyUsage 1 5
    [extensionA; extensionB] (Some overrides).

(** *** The walk as a set *)

(** The entries that can be reached from [root] through the listings:
    entries with a valid pid listed under [root] or under the pid of an
    entry already reached. *)
Inductive reachable (Number_ : string -> option Z)
    (getProcessTree : Z -> result (list PsTreeEntry)) (root : Z) : PsTreeEntry -> Prop :=
| reach_root children c :
    getProcessTree root = Ok children ->
    c ∈ children ->
    is_Some (validPid Number_ (PID c)) ->
    reachable Number_ getProcessTree root c
| reach_step parent p children c :
    reachable Number_ getProcessTree root parent ->
    validPid Number_ (PID parent) = Some p ->
    getProcessTree p = Ok children ->
    c ∈ children ->
    is_Some (validPid Number_ (PID c)) ->
    reachable Number_ getProcessTree root c.

(** The pid is the root or the pid of an entry reached from it. *)
Definition knownPid (Number_ : string -> option Z)
    (getProcessTree : Z -> result (list PsTreeEntry)) (root p : Z) : Prop :=
  p = root \/
  exists parent,
    reachable Number_ getProcessTree root parent /\ validPid Number_ (PID parent) = Some p.

(** Every valid entry of the listing of [p] has been collected in [st]. *)
Definition listingCollected (Number_ : string -> option Z)
    (getProcessTree : Z -> result (list PsTreeEntry)) (st : WalkState) (p : Z) : Prop :=
  forall children c,
    getProcessTree p = Ok children -> c ∈ children ->
    is_Some (validPid Number_ (PID c)) -> c ∈ allChildren st.

(** From [st] to [st'] the walk only appended entries and visited pids,
    and it collected the whole listing of every pid it visited. *)
Definition walkCompletes (Number_ : string -> option Z)
    (getProcessTree : Z -> result (list PsTreeEntry)) (st st' : WalkState) : Prop :=
  (exists new, allChildren st' = allChildren st ++ new) /\
  visited st ⊆ visited st' /\
  forall p, p ∈ visited st' ->
            p ∈ visited st \/ listingCollected Number_ getProcessTree st' p.

(** A listing with a cycle: pid 2, child of pid 1, reports pid 1 as its
    own child. *)
Definition host : PsTreeEntry := proc "1" "2" "/usr/bin/code".

Definition cyclicListing (pid : Z) : result (list PsTreeEntry) :=
  if decide (pid = 1%Z) then Ok [server]
  else if decide (pid = 2%Z) then Ok [host]
  else Ok [].

(** *** Inputs: a mixed run of samples, a first sample without load *)

(** Samples of two extensions, interleaved as the rounds produce them. *)
Definition mixedSamples : list ExtensionMetrics :=
  [ sample "pub.ext" 5 40 1000; sample "pub.other" 7 10 1000;
    sample "pub.ext" 9 30 2000; sample "pub.other" 2 11 2000 ].

(** *** The toggle command ([extension.ts], [COMMANDS.TOGGLE_MONITORING]) *)

(** What the handler does to the monitor: stop it when it is monitoring,
    start it otherwise.  The information message and the refresh of the
    status bar are left out. *)
Definition toggleMonitoring (Number_ : string -> option Z)
    (getProcessTree : Z -> result (list PsTreeEntry))
    (pidusage : list Z -> result (gmap Z PidusageStat)) (process_pid : Z)
    (extensions : list ExtensionLike) (settings : ExtPerfSettings) (now : Q)
    (estimateCpuUsage estimateMemoryUsage getActivationTime : ExtensionLike -> Q)
    (fuel : nat) (st : MonitorState) : option MonitorState :=
  if isMonitoringActive st then Some (stopMonitoring st)
  else startMonitoring Number_ getProcessTree pidusage process_pid extensions settings now
         estimateCpuUsage estimateMemoryUsage getActivationTime fuel st.

(** A built-in extension next to [Pub.A] and [Pub.B]. *)
Definition builtinGit : ExtensionLike :=
  {| el_id := "vscode.git"; el_extensionPath := "/usr/share/code/extensions/git";
     el_isActive := true; el_displayName := Some "Git"; el_version := Some "1.0.0" |}.

Definition threeExtensions : list ExtensionLike := [builtinGit; extensionA; extensionB].

(** A round and a toggle on the host with pid 1, its children 2 and 3, and
    the three extensions. *)
Definition fullRound (fuel : nat) (st : MonitorState)
  : option (list ExtensionMetrics * MonitorState) :=
  collectMetrics NumberOfDigits flatListing steadyUsage 1 threeExtensions noSettings 1000
    (fun _ => 1) (fun _ => 7) (fun _ => 100) fuel st.

Definition fullToggle (fuel : nat) (st : MonitorState) : option MonitorState :=
  toggleMonitoring NumberOfDigits flatListing steadyUsage 1 threeExtensions noSettings 1000
    (fun _ => 1) (fun _ => 7) (fun _ => 100) fuel st.

(** ** Sorting and the summary ([PerformanceMonitor.getPerformanceSummary]) *)

(** [Array.prototype.sort(compareFn)] is a stable sort: each element goes
    before the elements it compares below ([compareFn(x, y) < 0]) and after
    the others, elements that compare equal keeping their order. *)
Fixpoint insertSorted {A : Type} (compareFn : A -> A -> Q) (x : A) (sorted : list A)
  : list A :=
  match sorted with
  | [] => [x]
  | y :: rest =>
      if Qltb (compareFn x y) 0 then x :: y :: rest
      else y :: insertSorted compareFn x rest
  end.

Definition arraySort {A : Type} (compareFn : A -> A -> Q) (l : list A) : list A :=
  fold_left (fun sorted x => insertSorted compareFn x sorted) l [].

Record PerformanceSummary := {
  totalExtensions : nat;
  activeExtensions : nat;
  totalCpuUsage : Q;
  totalMemoryUsage : Q;
  topCpuConsumers : list ExtensionMetrics;
  topMemoryConsumers : list ExtensionMetrics;
  sm_timestamp : Q
}.

(** [getPerformanceSummary()] on [this.currentMetrics], at time [now]. *)
Definition getPerformanceSummary (currentMetrics : list ExtensionMetrics) (now : Q)
  : PerformanceSummary :=
  let activeOnes := List.filter em_isActive currentMetrics in
  {| totalExtensions := length currentMetrics;
     activeExtensions := length activeOnes;
     totalCpuUsage := reduce (fun sum m => sum + cpuUsage m) 0 currentMetrics;
     totalMemoryUsage := reduce (fun sum m => sum + memoryUsage m) 0 currentMetrics;
     topCpuConsumers :=
       take 5 (arraySort (fun a b => cpuUsage b - cpuUsage a) currentMetrics);
     topMemoryConsumers :=
       take 5 (arraySort (fun a b => memoryUsage b - memoryUsage a) currentMetrics);
     sm_timestamp := now |}.

(** [top] holds [n] elements of [l], or all of them when there are fewer,
    in descending order of [key], and no element left out has a larger
    key than one of them. *)
Definition isTopBy {A : Type} (key : A -> Q) (n : nat) (l top : list A) : Prop :=
  length top = Nat.min n (length l) /\
  StronglySorted (fun a b => key b <= key a) top /\
  exists others,
    l ≡ₚ top ++ others /\
    forall t o, t ∈ top -> o ∈ others -> key o <= key t.

(** ** The heuristic estimates ([estimateCpuUsage], [estimateMemoryUsage]) *)

(** What the estimates read in [extension.packageJSON]: whether
    [contributes.languages], [.grammars], [.themes], [.iconThemes],
    [.debuggers] and [.views] are there, whether [activationEvents] holds
    ["*"], how many commands are contributed (if any are declared) and
    whether [main] contains [webview]. *)
Record Manifest := {
  mf_languages : bool;
  mf_activatesOnStar : bool;
  mf_commands : option nat;
  mf_grammars : bool;
  mf_themes : bool;
  mf_iconThemes : bool;
  mf_debuggers : bool;
  mf_views : bool;
  mf_mainHasWebview : bool
}.

(** [Math.round]: the nearest integer, halves upwards. *)
Definition Math_round (x : Q) : Q := inject_Z (Qfloor (x + (1 # 2))).

(** [estimateCpuUsage(extension)]; [random] is the value drawn by
    [Math.random()]. *)
Definition estimateCpuUsage (random : Q) (isActive : bool)
    (packageJSON : option Manifest) : Q :=
  let cpuEstimate := 0 in
  let cpuEstimate := if isActive then cpuEstimate + (5 # 10) else cpuEstimate in
  let cpuEstimate :=
    match packageJSON with
    | Some pj =>
        let e1 :=
          if mf_languages pj || mf_activatesOnStar pj
          then cpuEstimate + (15 # 10) else cpuEstimate in
        let e2 :=
          if match mf_commands pj with Some n => (10 <? n)%nat | None => false end
          then e1 + (8 # 10) else e1 in
        if mf_grammars pj || mf_themes pj then e2 + (3 # 10) else e2
    | None => cpuEstimate
    end in
  let cpuEstimate := cpuEstimate + random * 2 in
  Qmin cpuEstimate 100.

(** [estimateMemoryUsage(extension)], in MB. *)
Definition estimateMemoryUsage (random : Q) (isActive : bool)
    (packageJSON : option Manifest) : Q :=
  let memoryEstimate := 0 + 2 in
  let memoryEstimate :=
    if isActive then
      let m0 := memoryEstimate + 5 in
      match packageJSON with
      | Some pj =>
          let m1 := if mf_languages pj then m0 + 15 else m0 in
          let m2 := if mf_themes pj || mf_iconThemes pj then m1 + 8 else m1 in
          let m3 := if mf_debuggers pj then m2 + 12 else m2 in
          if mf_views pj || mf_mainHasWebview pj then m3 + 20 else m3
      | None => m0
      end
    else memoryEstimate in
  let memoryEstimate := memoryEstimate + random * 5 in
  Math_round memoryEstimate.

(** A language extension with many commands, themes, a debugger and a
    webview: every bonus of the two estimates applies. *)
Definition heavyManifest : Manifest :=
  {| mf_languages := true; mf_activatesOnStar := true; mf_commands := Some 25%nat;
     mf_grammars := true; mf_themes := true; mf_iconThemes := true;
     mf_debuggers := true; mf_views := true; mf_mainHasWebview := true |}.

(** ** Enabling and disabling an extension ([extensionEnablement.ts]) *)

Definition DISABLE_COMMANDS : list string :=
  [ "workbench.extensions.disableExtension";
    "workbench.extensions.disableExtensionGlobally" ].

Definition ENABLE_COMMANDS : list string :=
  [ "workbench.extensions.enableExtension";
    "workbench.extensions.enableExtensionGlobally" ].

(** How a promise of [void] settles.  The value that [executeWithFallback]
    throws is [lastError], which is [undefined] ([None]) when no command
    was tried. *)
Inductive Settled :=
| Resolved
| Rejected (reason : option string).

(** The notifications of [vscode.window]. *)
Inductive Message :=
| InformationMessage (text : string)
| ErrorMessage (text : string).

(** One call of [vscode.commands.executeCommand]: the command and its
    argument. *)
Definition Call : Type := string * string.

(** What the two functions leave behind in the workbench: the commands
    executed and the notifications shown, oldest first. *)
Record Workbench := { executed : list Call; shown : list Message }.

(** [`${error}`] for a thrown value. *)
Definition templateOf (error : option string) : string := default "undefined" error.

Definition callsOf (extensionId : string) (commands : list string) : list Call :=
  map (fun command => (command, extensionId)) commands.

Section Enablement.

(** [vscode.commands.executeCommand(command, extensionId)]: whether it
    resolves or rejects may depend on the calls made before. *)
Variable executeCommand : list Call -> string -> string -> result unit.

(** The answer to the modal [showWarningMessage(text, ..., 'Disable')]:
    the button chosen, [None] when the dialog is dismissed. *)
Variable showWarningMessage : string -> option string.

(** The loop of [executeWithFallback]. *)
Fixpoint fallbackLoop (commands : list string) (extensionId : string)
    (lastError : option string) (calls : list Call) : list Call * Settled :=
  match commands with
  | [] => (calls, Rejected lastError)
  | command :: rest =>
      match executeCommand calls command extensionId with
      | Ok _ => (calls ++ [(command, extensionId)], Resolved)
      | Throw error =>
          fallbackLoop rest extensionId (Some error) (calls ++ [(command, extensionId)])
      end
  end.

Definition executeWithFallback (commands : list string) (extensionId : string)
    (calls : list Call) : list Call * Settled :=
  fallbackLoop commands extensionId None calls.

Definition disableExtension (extensionId : string) (displayName : option string)
    (w : Workbench) : Workbench :=
  let name := orElse displayName extensionId in
  let confirm :=
    showWarningMessage
      ("Disable " +:+ name +:+ "? You may need to reload VS Code to fully unload it.") in
  if decide (confirm = Some "Disable") then
    match executeWithFallback DISABLE_COMMANDS extensionId (executed w) with
    | (calls, Resolved) =>
        {| executed := calls;
           shown := shown w ++ [InformationMessage ("Disabled " +:+ name +:+ ".")] |}
    | (calls, Rejected error) =>
        {| executed := calls;
           shown := shown w ++
             [ErrorMessage ("Failed to disable " +:+ name +:+ ": " +:+ templateOf error)] |}
    end
  else w.

Definition enableExtension (extensionId : string) (displayName : option string)
    (w : Workbench) : Workbench :=
  let name := orElse displayName extensionId in
  match executeWithFallback ENABLE_COMMANDS extensionId (executed w) with
  | (calls, Resolved) =>
      {| executed := calls;
         shown := shown w ++ [InformationMessage ("Enabled " +:+ name +:+ ".")] |}
  | (calls, Rejected error) =>
      {| executed := calls;
         shown := shown w ++
           [ErrorMessage ("Failed to enable " +:+ name +:+ ": " +:+ templateOf error)] |}
  end.

(** The outcome of the [i]-th command of the list, tried after the
    commands before it. *)
Definition attempt (calls : list Call) (commands : list string) (extensionId : string)
    (i : nat) : option (result unit) :=
  match commands !! i with
  | Some command =>
      Some (executeCommand (calls ++ callsOf extensionId (take i commands))
              command extensionId)
  | None => None
  end.

Definition fails (calls : list Call) (commands : list string) (extensionId : string)
    (i : nat) : Prop :=
  exists error, attempt calls commands extensionId i = Some (Throw error).

End Enablement.

(** *** The target of the enable and disable commands ([extension.ts]) *)

(** The four properties that [resolveExtensionTarget] reads in an object:
    [Some s] when the property holds the string [s], [None] when it is
    missing or holds something else. *)
Record Candidate := {
  cd_extensionId : option string;
  cd_id : option string;
  cd_label : option string;
  cd_displayName : option string
}.

(** The argument of the command: a string, an object, or anything else
    ([undefined], [null], a number, a boolean, a function...). *)
Inductive Target :=
| TargetString (s : string)
| TargetObject (candidate : Candidate)
| TargetOther.

Record ResolvedTarget := { rt_id : string; rt_name : option string }.

Definition resolveExtensionTarget (target : Target) : option ResolvedTarget :=
  match target with
  | TargetString s => Some {| rt_id := s; rt_name := None |}
  | TargetOther => None
  | TargetObject candidate =>
      let extensionId :=
        match cd_extensionId candidate with
        | Some s => Some s
        | None => cd_id candidate
        end in
      match extensionId with
      | None => None
      | Some i =>
          if decide (i = EmptyString) then None
          else
            Some {| rt_id := i;
                    rt_name := match cd_label candidate with
                               | Some l => Some l
                               | None => cd_displayName candidate
                               end |}
      end
  end.

(** *** Inputs: a workbench where only the global commands work *)

Definition onlyGlobally (calls : list Call) (command extensionId : string) : result unit :=
  if decide (command = "workbench.extensions.disableExtensionGlobally"
             \/ command = "workbench.extensions.enableExtensionGlobally")
  then Ok tt else Throw "command not found".

Definition nothingWorks (calls : list Call) (command extensionId : string) : result unit :=
  Throw ("no " +:+ command).

Definition confirms (text : string) : option string := Some "Disable".

Definition dismisses (text : string) : option string := None.

Definition emptyWorkbench : Workbench := {| executed := []; shown := [] |}.

Definition treeItemTarget : Target :=
  TargetObject {| cd_extensionId := Some "pub.ext"; cd_id := Some "node-7";
                  cd_label := Some ""; cd_displayName := Some "Ext" |}.

(** ** The status bar ([StatusBarManager.updateStatusBar]) *)

Inductive ThemeColor := errorBackground | warningBackground.

(** What [updateStatusBar] leaves in [statusBarItem.backgroundColor]; the
    text and the tooltip are left out. *)
Definition updateStatusBar (isInitialized isMonitoring : bool)
    (summary : PerformanceSummary) (backgroundColor : option ThemeColor)
  : option ThemeColor :=
  if negb isInitialized then backgroundColor
  else if negb isMonitoring then Some warningBackground
  else if Qltb 50 (totalCpuUsage summary) || Qltb 500 (totalMemoryUsage summary)
       then Some errorBackground
  else if Qltb 25 (totalCpuUsage summary) || Qltb 250 (totalMemoryUsage summary)
       then Some warningBackground
  else None.

(** How alarming a background is. *)
Definition severity (backgroundColor : option ThemeColor) : nat :=
  match backgroundColor with
  | None => 0
  | Some warningBackground => 1
  | Some errorBackground => 2
  end.

(** ** The report ([ReportExporter]) *)

Record Insights := {
  topPerformers_cpu : list ExtensionMetrics;
  topPerformers_memory : list ExtensionMetrics;
  worstPerformers_cpu : list ExtensionMetrics;
  worstPerformers_memory : list ExtensionMetrics;
  recommendations : list string
}.

(** The report without its [reportMetadata] (the date and the versions of
    the host). *)
Record ReportData := {
  rd_summary : PerformanceSummary;
  rd_currentMetrics : list ExtensionMetrics;
  rd_historicalData : gmap string PerformanceHistory;
  rd_insights : Insights
}.

(** [names.join(', ')]. *)
Definition join (names : list string) : string := String.concat ", " names.

Section Report.

(** [`${activeCount}`]: a number written out. *)
Variable String_ : nat -> string.

Definition generateRecommendations (metrics : list ExtensionMetrics)
    (historicalData : gmap string PerformanceHistory) : list string :=
  let recommendations := [] in
  let highCpuExtensions := List.filter (fun m => Qltb 10 (cpuUsage m)) metrics in
  let recommendations :=
    if (0 <? length highCpuExtensions)%nat
    then recommendations ++
         ["Consider reviewing extensions with high CPU usage: "
          +:+ join (map em_displayName highCpuExtensions)]
    else recommendations in
  let highMemoryExtensions := List.filter (fun m => Qltb 50 (memoryUsage m)) metrics in
  let recommendations :=
    if (0 <? length highMemoryExtensions)%nat
    then recommendations ++
         ["Consider reviewing extensions with high memory usage: "
          +:+ join (map em_displayName highMemoryExtensions)]
    else recommendations in
  let activeCount := length (List.filter em_isActive metrics) in
  let recommendations :=
    if (20 <? activeCount)%nat
    then recommendations ++
         ["You have " +:+ String_ activeCount
          +:+ " active extensions. Consider disabling unused extensions to improve performance."]
    else recommendations in
  let inactiveWithMemory :=
    List.filter (fun m => negb (em_isActive m) && Qltb 5 (memoryUsage m)) metrics in
  if (0 <? length inactiveWithMemory)%nat
  then recommendations ++
       ["Some inactive extensions are still using memory: "
        +:+ join (map em_displayName inactiveWithMemory)]
  else recommendations.

Definition generateInsights (metrics : list ExtensionMetrics)
    (historicalData : gmap string PerformanceHistory) : Insights :=
  {| topPerformers_cpu :=
       take 5 (arraySort (fun a b => cpuUsage a - cpuUsage b)
                 (List.filter em_isActive metrics));
     topPerformers_memory :=
       take 5 (arraySort (fun a b => memoryUsage a - memoryUsage b)
                 (List.filter em_isActive metrics));
     worstPerformers_cpu :=
       take 5 (arraySort (fun a b => cpuUsage b - cpuUsage a)
                 (List.filter em_isActive metrics));
     worstPerformers_memory :=
       take 5 (arraySort (fun a b => memoryUsage b - memoryUsage a)
                 (List.filter em_isActive metrics));
     recommendations := generateRecommendations metrics historicalData |}.

(** [generateReportData()] on a monitor whose [currentMetrics] and
    [performanceHistory] are given, at time [now].  [getCurrentMetrics()]
    hands out a copy, which [sort] then orders in place: the insights are
    computed from the sorted copy, the summary from the monitor's own
    array. *)
Definition generateReportData (monitorMetrics : list ExtensionMetrics)
    (performanceHistory : gmap string PerformanceHistory) (now : Q) : ReportData :=
  let currentMetrics := monitorMetrics in
  let summary := getPerformanceSummary monitorMetrics now in
  let historicalData :=
    fold_left
      (fun (data : gmap string PerformanceHistory) metric =>
         match performanceHistory !! em_id metric with
         | Some history => <[em_id metric := history]> data
         | None => data
         end)
      currentMetrics ∅ in
  let currentMetrics :=
    arraySort (fun a b => cpuUsage b + memoryUsage b - (cpuUsage a + memoryUsage a))
      currentMetrics in
  {| rd_summary := summary;
     rd_currentMetrics := currentMetrics;
     rd_historicalData := historicalData;
     rd_insights := generateInsights currentMetrics historicalData |}.

End Report.

(** [top] holds the [n] elements of [l] that come first in the order
    [before] (all of them when there are fewer), in that order. *)
Definition firstBy {A : Type} (before : A -> A -> Prop) (n : nat) (l top : list A)
  : Prop :=
  length top = Nat.min n (length l) /\
  StronglySorted before top /\
  exists others,
    l ≡ₚ top ++ others /\
    forall t o, t ∈ top -> o ∈ others -> before t o.

(** An inactive extension reported with the memory estimate of a draw. *)
Definition dormant (random : Q) : ExtensionMetrics :=
  {| em_id := "pub.dormant"; em_displayName := "Dormant"; em_version := "1.0.0";
     em_isActive := false;
     cpuUsage := estimateCpuUsage random false None;
     memoryUsage := estimateMemoryUsage random false None;
     em_timestamp := 1000;
     activationTime := None;
     estimatedCpuUsage := Some (estimateCpuUsage random false None);
     estimatedMemoryUsage := Some (estimateMemoryUsage random false None);
     processCpuUsage := Some 0; processMemoryUsage := Some 0;
     subprocessCount := Some 0%nat |}.

(** ** Further notions: ASCII strings, normalized command lines, peaks *)

(** *** ASCII strings *)

(** The strings on which the model of [toLowerCase] and [String.length]
    are those of the code: all characters below 128. *)
Definition asciiChar (c : ascii) : bool := (nat_of_ascii c <? 128)%nat.

Definition isAscii (s : string) : Prop :=
  Forall (fun c => asciiChar c = true) (list_ascii_of_string s).

(** *** The normalized command line, in the words of the specification *)

(** A backslash is mapped to a slash, a capital letter to its small
    letter, every other character to itself. *)
Definition normalizedChar (c : ascii) : ascii :=
  match c with
  | "\"%char => "/"%char
  | "A"%char => "a"%char | "B"%char => "b"%char | "C"%char => "c"%char
  | "D"%char => "d"%char | "E"%char => "e"%char | "F"%char => "f"%char
  | "G"%char => "g"%char | "H"%char => "h"%char | "I"%char => "i"%char
  | "J"%char => "j"%char | "K"%char => "k"%char | "L"%char => "l"%char
  | "M"%char => "m"%char | "N"%char => "n"%char | "O"%char => "o"%char
  | "P"%char => "p"%char | "Q"%char => "q"%char | "R"%char => "r"%char
  | "S"%char => "s"%char | "T"%char => "t"%char | "U"%char => "u"%char
  | "V"%char => "v"%char | "W"%char => "w"%char | "X"%char => "x"%char
  | "Y"%char => "y"%char | "Z"%char => "z"%char
  | _ => c
  end.

Definition normalizedCommandLine (command : string) : string :=
  string_of_list_ascii (map normalizedChar (list_ascii_of_string command)).

(** *** The peak of a run of samples, in the words of the specification *)

(** [p] is the peak of the readings [f] of the samples [ms] inserted into
    a new record: the reading and the timestamp of the earliest sample
    whose reading is the highest, when that reading is positive; the
    initial peak, 0 at time 0, when no reading is positive. *)
Definition peakOf (f : ExtensionMetrics -> Q) (ms : list ExtensionMetrics) (p : Peak)
  : Prop :=
  (Forall (fun m => f m <= 0) ms /\ p = {| pk_value := 0; pk_timestamp := 0 |}) \/
  exists pre m post,
    ms = pre ++ m :: post /\
    p = {| pk_value := f m; pk_timestamp := em_timestamp m |} /\
    0 < f m /\
    Forall (fun x => f x < f m) pre /\
    Forall (fun x => f x <= f m) post.

(** *** Inputs *)


(** A workbench where every command works. *)
Definition everythingWorks (calls : list Call) (command extensionId : string)
  : result unit := Ok tt.


(** * Properties *)

(** ** Numbers *)

Lemma Qltb_lt (x y : Q) : Qltb x y = true <-> x < y.
Proof.
  unfold Qltb. rewrite negb_true_iff. split.
  - intros H. apply Qnot_le_lt. intros Hle.
    apply Qle_bool_iff in Hle. congruence.
  - intros H. destruct (Qle_bool y x) eqn:E; [|reflexivity].
    apply Qle_bool_iff in E. exfalso. exact (Qlt_not_le _ _ H E).
Qed.

Lemma Qltb_ge (x y : Q) : Qltb x y = false <-> y <= x.
Proof.
  unfold Qltb. rewrite negb_false_iff. apply Qle_bool_iff.
Qed.

(** ** Slices *)

Lemma slice_last_length {A} (n : nat) (l : list A) :
  length (slice_last n l) = Nat.min n (length l).
Proof. unfold slice_last. rewrite length_drop. lia. Qed.

Lemma slice_last_all {A} (n : nat) (l : list A) :
  (length l <= n)%nat -> slice_last n l = l.
Proof.
  intros H. unfold slice_last.
  replace (length l - n)%nat with 0%nat by lia. reflexivity.
Qed.

(** Capping after every push is the same as capping once at the end. *)
Lemma slice_last_push {A} (n : nat) (l : list A) (x : A) :
  slice_last n (slice_last n l ++ [x]) = slice_last n (l ++ [x]).
Proof.
  unfold slice_last.
  rewrite <- (drop_app_le l [x] (length l - n)) by lia.
  rewrite drop_drop. f_equal.
  rewrite length_drop, !length_app. simpl. lia.
Qed.

Lemma slice_last_nested {A} (n k : nat) (l : list A) :
  (n <= k)%nat -> slice_last n (slice_last k l) = slice_last n l.
Proof.
  intros H. unfold slice_last. rewrite drop_drop, length_drop. f_equal. lia.
Qed.

(** ** One record under a run of inserts *)

Lemma recordMetric_metrics (h : PerformanceHistory) (m : ExtensionMetrics) :
  metrics (recordMetric h m) = slice_last 1000 (metrics h ++ [m]).
Proof.
  unfold recordMetric. simpl.
  destruct (1000 <? length (metrics h ++ [m]))%nat eqn:E; [reflexivity|].
  apply Nat.ltb_ge in E. symmetry. apply slice_last_all. exact E.
Qed.

Lemma recordAll_metrics (ms : list ExtensionMetrics) (i : string) :
  metrics (fold_left recordMetric ms (newHistory i)) = slice_last 1000 ms.
Proof.
  induction ms as [|m ms IH] using rev_ind.
  - reflexivity.
  - rewrite fold_left_app. cbn [fold_left].
    rewrite recordMetric_metrics, IH. apply slice_last_push.
Qed.

(** ** The map under a run of inserts for one id *)

Lemma updateHistory_lookup (m : ExtensionMetrics) (st : gmap string PerformanceHistory) :
  updateHistory m st !! em_id m
  = Some (recordMetric (default (newHistory (em_id m)) (st !! em_id m)) m).
Proof. unfold updateHistory. apply lookup_insert_eq. Qed.

Lemma updateHistory_other (m : ExtensionMetrics) (st : gmap string PerformanceHistory)
    (k : string) :
  em_id m <> k -> updateHistory m st !! k = st !! k.
Proof. intros Hne. unfold updateHistory. apply lookup_insert_ne. exact Hne. Qed.

Lemma insertAll_lookup (k : string) (ms : list ExtensionMetrics)
    (st : gmap string PerformanceHistory) :
  Forall (fun m => em_id m = k) ms -> ms <> [] ->
  insertAll ms st !! k
  = Some (fold_left recordMetric ms (default (newHistory k) (st !! k))).
Proof.
  revert st. induction ms as [|m ms IH]; intros st Hid Hne; [done|].
  inversion Hid as [|? ? Hm Hms]; subst.
  destruct ms as [|m' ms].
  - simpl. apply updateHistory_lookup.
  - change (insertAll (m :: m' :: ms) st) with (insertAll (m' :: ms) (updateHistory m st)).
    rewrite IH by done. rewrite updateHistory_lookup. reflexivity.
Qed.

(** C2. Starting from a map without a record for [k], after each of the
    inserts of a run of points for [k] (the first [n] of them, for every
    [n >= 1]) the record's [metrics] are the last [min n 1000] points
    inserted so far, in insertion order. *)
Theorem C2_history_keeps_last_1000 (k : string) (st : gmap string PerformanceHistory)
    (ms : list ExtensionMetrics) (n : nat) :
  st !! k = None ->
  Forall (fun m => em_id m = k) ms ->
  (0 < n <= length ms)%nat ->
  exists h,
    insertAll (take n ms) st !! k = Some h /\
    metrics h = drop (n - 1000) (take n ms) /\
    length (metrics h) = Nat.min n 1000.
Proof.
  intros Hfresh Hid Hn.
  assert (Hlen : length (take n ms) = n) by (rewrite length_take; lia).
  exists (fold_left recordMetric (take n ms) (newHistory k)).
  split; [|split].
  - rewrite (insertAll_lookup k).
    + rewrite Hfresh. reflexivity.
    + apply Forall_take. exact Hid.
    + intros E. rewrite E in Hlen. simpl in Hlen. lia.
  - rewrite recordAll_metrics. unfold slice_last. rewrite Hlen. reflexivity.
  - rewrite recordAll_metrics, slice_last_length, Hlen. lia.
Qed.

(** Scenario B: 1500 points with increasing timestamps leave points
    501..1500. *)
Lemma C2_scenario_1500 :
  (∅ : gmap string PerformanceHistory) !! "pub.ext" = None /\
  Forall (fun m => em_id m = "pub.ext") scenarioPoints /\
  (0 < 1500 <= length scenarioPoints)%nat /\
  exists h,
    insertAll (take 1500 scenarioPoints) ∅ !! "pub.ext" = Some h /\
    metrics h = map scenarioPoint (seq 501 1000) /\
    length (metrics h) = 1000%nat.
Proof.
  assert (H1 : (∅ : gmap string PerformanceHistory) !! "pub.ext" = None)
    by apply lookup_empty.
  assert (H2 : Forall (fun m => em_id m = "pub.ext") scenarioPoints).
  { unfold scenarioPoints. apply Forall_fmap, Forall_true. reflexivity. }
  assert (H3 : (0 < 1500 <= length scenarioPoints)%nat).
  { unfold scenarioPoints. rewrite length_map, length_seq. lia. }
  split; [exact H1|]. split; [exact H2|]. split; [exact H3|].
  destruct (C2_history_keeps_last_1000 "pub.ext" ∅ scenarioPoints 1500 H1 H2 H3)
    as (h & Hh & Hm & Hl).
  exists h. split; [exact Hh|]. split; [|exact Hl].
  rewrite Hm. vm_compute. reflexivity.
Defined.

(** ** Rolling averages *)

Lemma reduce_sum {A} (f : A -> Q) (l : list A) (acc : Q) :
  fold_left (fun sum m => sum + f m) l acc == acc + sumList (map f l).
Proof.
  revert acc. induction l as [|x l IH]; intros acc; simpl.
  - ring.
  - rewrite IH. ring.
Qed.

Lemma reduce_mean {A} (f : A -> Q) (l : list A) :
  reduce (fun sum m => sum + f m) 0 l / inject_Z (Z.of_nat (length l))
  == mean (map f l).
Proof.
  unfold reduce, mean. rewrite reduce_sum, length_map, Qplus_0_l. reflexivity.
Qed.

Lemma recordMetric_nonempty (h : PerformanceHistory) (m : ExtensionMetrics) :
  metrics (recordMetric h m) <> [].
Proof.
  rewrite recordMetric_metrics. intros E.
  apply (f_equal length) in E. rewrite slice_last_length, length_app in E.
  cbn [length] in E. lia.
Qed.

Lemma recordMetric_averages (h : PerformanceHistory) (m : ExtensionMetrics) :
  let window := slice_last 100 (metrics (recordMetric h m)) in
  avg_cpu (averages (recordMetric h m)) == mean (map cpuUsage window) /\
  avg_memory (averages (recordMetric h m)) == mean (map memoryUsage window).
Proof.
  unfold recordMetric. cbn [metrics averages avg_cpu avg_memory].
  split; apply reduce_mean.
Qed.

Lemma mean_zero_iff (l : list Q) : l <> [] -> (mean l == 0 <-> sumList l == 0).
Proof.
  intros Hne. unfold mean.
  assert (Hpos : 0 < inject_Z (Z.of_nat (length l))).
  { destruct l as [|x l]; [done|]. change 0 with (inject_Z 0).
    rewrite <- Zlt_Qlt. cbn [length]. lia. }
  split; intros H.
  - rewrite <- (Qmult_div_r (sumList l) (inject_Z (Z.of_nat (length l)))).
    + rewrite H. ring.
    + intros E. rewrite E in Hpos. exact (Qlt_irrefl _ Hpos).
  - unfold Qdiv. rewrite H. ring.
Qed.

Lemma slice_last_min {A} (n : nat) (l : list A) :
  slice_last (Nat.min (length l) n) l = slice_last n l.
Proof. unfold slice_last. f_equal. lia. Qed.

(** C3 (amended). After every insert the record is not empty and both
    rolling averages equal the arithmetic mean over the most recent
    [min (length points) 100] points; an average is zero exactly when the
    values in that window sum to zero. *)
Theorem C3_average_is_window_mean (st : gmap string PerformanceHistory)
    (m : ExtensionMetrics) :
  exists h,
    updateHistory m st !! em_id m = Some h /\
    metrics h <> [] /\
    let window := slice_last (Nat.min (length (metrics h)) 100) (metrics h) in
    avg_cpu (averages h) == mean (map cpuUsage window) /\
    avg_memory (averages h) == mean (map memoryUsage window) /\
    (avg_cpu (averages h) == 0 <-> sumList (map cpuUsage window) == 0) /\
    (avg_memory (averages h) == 0 <-> sumList (map memoryUsage window) == 0).
Proof.
  eexists. split; [apply updateHistory_lookup|].
  set (h := recordMetric _ m).
  assert (Hne : metrics h <> []) by apply recordMetric_nonempty.
  split; [exact Hne|].
  cbv zeta. rewrite slice_last_min.
  destruct (recordMetric_averages (default (newHistory (em_id m)) (st !! em_id m)) m)
    as [Hc Hm].
  fold h in Hc, Hm.
  assert (Hw : forall f : ExtensionMetrics -> Q,
             map f (slice_last 100 (metrics h)) <> []).
  { intros f E. apply (f_equal length) in E.
    rewrite length_map, slice_last_length in E. cbn [length] in E.
    destruct (metrics h); [done|]. cbn [length] in E. lia. }
  split; [exact Hc|]. split; [exact Hm|].
  split.
  - rewrite Hc. apply mean_zero_iff, Hw.
  - rewrite Hm. apply mean_zero_iff, Hw.
Qed.

(** C3 as stated fails: one idle sample leaves a record that holds a point
    and whose averages are zero. *)
Lemma C3_zero_average_nonempty_record :
  ~ (forall h, updateHistory idleSample ∅ !! "pub.ext" = Some h ->
               avg_cpu (averages h) == 0 /\ avg_memory (averages h) == 0 ->
               metrics h = []).
Proof.
  intros H.
  specialize (H _ (updateHistory_lookup idleSample ∅)).
  apply (recordMetric_nonempty _ _ (H (conj (Qeq_refl 0) (Qeq_refl 0)))).
Qed.

(** ** Peaks *)

Section RunningPeak.

(** The reading [f] of a sample and the peak [g] of a record that tracks
    it. *)
Variable f : ExtensionMetrics -> Q.
Variable g : PerformanceHistory -> Peak.
Hypothesis g_step : forall h m,
  g (recordMetric h m)
  = if Qltb (pk_value (g h)) (f m)
    then {| pk_value := f m; pk_timestamp := em_timestamp m |}
    else g h.

Lemma peak_step_unchanged (h : PerformanceHistory) (m : ExtensionMetrics) :
  f m <= pk_value (g h) -> g (recordMetric h m) = g h.
Proof.
  intros Hle. rewrite g_step. apply Qltb_ge in Hle. rewrite Hle. reflexivity.
Qed.

Lemma peak_step_bounds (h : PerformanceHistory) (m : ExtensionMetrics) :
  pk_value (g h) <= pk_value (g (recordMetric h m)) /\
  f m <= pk_value (g (recordMetric h m)).
Proof.
  rewrite g_step. destruct (Qltb (pk_value (g h)) (f m)) eqn:E; cbn [pk_value].
  - apply Qltb_lt in E. split; [apply Qlt_le_weak, E | apply Qle_refl].
  - apply Qltb_ge in E. split; [apply Qle_refl | exact E].
Qed.

Lemma peak_run (ms : list ExtensionMetrics) (h : PerformanceHistory) :
  let h' := fold_left recordMetric ms h in
  pk_value (g h) <= pk_value (g h') /\
  Forall (fun m => f m <= pk_value (g h')) ms /\
  (g h' = g h \/
   Exists (fun m => f m = pk_value (g h') /\ em_timestamp m = pk_timestamp (g h')) ms).
Proof.
  revert h. induction ms as [|m ms IH]; intros h; cbn [fold_left].
  - split; [apply Qle_refl|]. split; [constructor | left; reflexivity].
  - destruct (IH (recordMetric h m)) as (Hmono & Hall & Hwho).
    destruct (peak_step_bounds h m) as [Hb1 Hb2].
    split; [eapply Qle_trans; eassumption|].
    split; [constructor; [eapply Qle_trans; eassumption | exact Hall]|].
    destruct Hwho as [Hsame | Hex]; [|right; right; exact Hex].
    rewrite Hsame, g_step.
    destruct (Qltb (pk_value (g h)) (f m)); [|left; reflexivity].
    right. left. split; reflexivity.
Qed.

Lemma peak_run_max (ms : list ExtensionMetrics) (h : PerformanceHistory) :
  ms <> [] -> pk_value (g h) == 0 -> Forall (fun m => 0 <= f m) ms ->
  isMaxOf (pk_value (g (fold_left recordMetric ms h))) (map f ms).
Proof.
  intros Hne H0 Hpos.
  destruct (peak_run ms h) as (_ & Hall & Hwho). cbv zeta in *.
  split.
  - apply Forall_fmap. exact Hall.
  - apply Exists_fmap. destruct Hwho as [Hsame | Hex].
    + destruct ms as [|m ms]; [done|]. left.
      inversion Hall as [|? ? Hm _]; subst. inversion Hpos as [|? ? Hp _]; subst.
      rewrite Hsame in *. cbn. apply Qle_antisym.
      * exact Hm.
      * rewrite H0. exact Hp.
    + eapply Exists_impl; [exact Hex|]. cbn. intros m [-> _]. reflexivity.
Qed.

(** Where the peak of a run comes from: it is the peak before the run when
    no reading exceeded it, and otherwise the reading and the timestamp of
    the earliest sample with the highest reading. *)
Lemma peak_from (ms : list ExtensionMetrics) (h : PerformanceHistory) :
  let p := g (fold_left recordMetric ms h) in
  (Forall (fun m => f m <= pk_value (g h)) ms /\ p = g h) \/
  exists pre m post,
    ms = pre ++ m :: post /\
    p = {| pk_value := f m; pk_timestamp := em_timestamp m |} /\
    pk_value (g h) < f m /\
    Forall (fun x => f x < f m) pre /\
    Forall (fun x => f x <= f m) post.
Proof.
  cbv zeta. revert h. induction ms as [|m0 ms IH]; intros h; cbn [fold_left].
  - left. split; [constructor|reflexivity].
  - specialize (IH (recordMetric h m0)). rewrite g_step in IH.
    destruct (Qltb (pk_value (g h)) (f m0)) eqn:E.
    + apply Qltb_lt in E. cbn [pk_value] in IH.
      destruct IH as [[Hall ->] | (pre & m & post & -> & -> & Hgt & Hpre & Hpost)].
      * right. exists [], m0, ms. repeat split; try assumption. constructor.
      * right. exists (m0 :: pre), m, post.
        split; [reflexivity|]. split; [reflexivity|].
        split; [eapply Qlt_trans; eassumption|].
        split; [constructor; assumption|assumption].
    + apply Qltb_ge in E.
      destruct IH as [[Hall ->] | (pre & m & post & -> & -> & Hgt & Hpre & Hpost)].
      * left. split; [constructor; assumption|reflexivity].
      * right. exists (m0 :: pre), m, post.
        split; [reflexivity|]. split; [reflexivity|]. split; [exact Hgt|].
        split; [constructor; [eapply Qle_lt_trans; eassumption|assumption]|assumption].
Qed.

Lemma peak_step_taken (h : PerformanceHistory) (m : ExtensionMetrics) :
  pk_value (g h) < f m ->
  g (recordMetric h m) = {| pk_value := f m; pk_timestamp := em_timestamp m |}.
Proof.
  intros Hlt. rewrite g_step. apply Qltb_lt in Hlt. rewrite Hlt. reflexivity.
Qed.

End RunningPeak.

Lemma cpu_peak_step (h : PerformanceHistory) (m : ExtensionMetrics) :
  peak_cpu (peaks (recordMetric h m))
  = if Qltb (pk_value (peak_cpu (peaks h))) (cpuUsage m)
    then {| pk_value := cpuUsage m; pk_timestamp := em_timestamp m |}
    else peak_cpu (peaks h).
Proof. reflexivity. Qed.

Lemma memory_peak_step (h : PerformanceHistory) (m : ExtensionMetrics) :
  peak_memory (peaks (recordMetric h m))
  = if Qltb (pk_value (peak_memory (peaks h))) (memoryUsage m)
    then {| pk_value := memoryUsage m; pk_timestamp := em_timestamp m |}
    else peak_memory (peaks h).
Proof. reflexivity. Qed.

(** C4. After a run of inserts for [k] into a map that holds no record for
    [k] (as after [clearHistory]), the cpu peak of the record is the reading
    and the timestamp of the earliest sample with the highest cpu reading,
    and likewise the memory peak: among samples that tie for the highest
    reading the earliest one gives the timestamp.  When the cpu readings are
    non-negative the cpu peak value is their maximum, and likewise for
    memory.  A further insert whose reading is lower than or equal to the
    current peak value leaves that peak, value and timestamp, as it was; one
    whose reading is higher replaces both by its own. *)
Theorem C4_peak_is_running_maximum (k : string) (st : gmap string PerformanceHistory)
    (ms : list ExtensionMetrics) :
  st !! k = None ->
  ms <> [] ->
  Forall (fun m => em_id m = k) ms ->
  exists h,
    insertAll ms st !! k = Some h /\
    peakOf cpuUsage ms (peak_cpu (peaks h)) /\
    peakOf memoryUsage ms (peak_memory (peaks h)) /\
    (Forall (fun m => 0 <= cpuUsage m) ms ->
     isMaxOf (pk_value (peak_cpu (peaks h))) (map cpuUsage ms)) /\
    (Forall (fun m => 0 <= memoryUsage m) ms ->
     isMaxOf (pk_value (peak_memory (peaks h))) (map memoryUsage ms)) /\
    forall m, em_id m = k ->
      exists h',
        updateHistory m (insertAll ms st) !! k = Some h' /\
        (cpuUsage m <= pk_value (peak_cpu (peaks h)) ->
         peak_cpu (peaks h') = peak_cpu (peaks h)) /\
        (pk_value (peak_cpu (peaks h)) < cpuUsage m ->
         peak_cpu (peaks h')
         = {| pk_value := cpuUsage m; pk_timestamp := em_timestamp m |}) /\
        (memoryUsage m <= pk_value (peak_memory (peaks h)) ->
         peak_memory (peaks h') = peak_memory (peaks h)) /\
        (pk_value (peak_memory (peaks h)) < memoryUsage m ->
         peak_memory (peaks h')
         = {| pk_value := memoryUsage m; pk_timestamp := em_timestamp m |}).
Proof.
  intros Hfresh Hne Hid.
  pose proof (insertAll_lookup k ms st Hid Hne) as Hlook.
  rewrite Hfresh in Hlook. cbn [default] in Hlook.
  eexists. split; [exact Hlook|].
  split; [|split; [|split; [|split]]].
  - destruct (peak_from cpuUsage (fun h => peak_cpu (peaks h)) cpu_peak_step ms
                (newHistory k)) as [Hlow | Hhigh]; [left; exact Hlow|right; exact Hhigh].
  - destruct (peak_from memoryUsage (fun h => peak_memory (peaks h)) memory_peak_step ms
                (newHistory k)) as [Hlow | Hhigh]; [left; exact Hlow|right; exact Hhigh].
  - intros Hcpu.
    apply (peak_run_max cpuUsage (fun h => peak_cpu (peaks h)) cpu_peak_step);
      [exact Hne | reflexivity | exact Hcpu].
  - intros Hmem.
    apply (peak_run_max memoryUsage (fun h => peak_memory (peaks h)) memory_peak_step);
      [exact Hne | reflexivity | exact Hmem].
  - intros m <-. eexists. split.
    + rewrite updateHistory_lookup, Hlook. reflexivity.
    + cbn [default]. split; [|split; [|split]]; intros Hle.
      * apply (peak_step_unchanged cpuUsage (fun h => peak_cpu (peaks h)) cpu_peak_step).
        exact Hle.
      * apply (peak_step_taken cpuUsage (fun h => peak_cpu (peaks h)) cpu_peak_step).
        exact Hle.
      * apply (peak_step_unchanged memoryUsage (fun h => peak_memory (peaks h))
                 memory_peak_step).
        exact Hle.
      * apply (peak_step_taken memoryUsage (fun h => peak_memory (peaks h))
                 memory_peak_step).
        exact Hle.
Qed.

(** After a clear, samples with cpu 5, 9, 9 taken at 1000, 2000, 3000: the
    cpu peak is 9 with the timestamp 2000 of the first of the two samples
    that tie; the memory peak is the 40 MB of the first sample. *)
Lemma C4_tied_samples :
  (clearHistory (updateHistory idleSample ∅)) !! "pub.ext" = None /\
  tiedSamples <> [] /\
  Forall (fun m => em_id m = "pub.ext") tiedSamples /\
  exists h,
    insertAll tiedSamples (clearHistory (updateHistory idleSample ∅)) !! "pub.ext"
      = Some h /\
    peak_cpu (peaks h) = {| pk_value := 9; pk_timestamp := 2000 |} /\
    peak_memory (peaks h) = {| pk_value := 40; pk_timestamp := 1000 |} /\
    peakOf cpuUsage tiedSamples (peak_cpu (peaks h)) /\
    peakOf memoryUsage tiedSamples (peak_memory (peaks h)) /\
    forall m, em_id m = "pub.ext" ->
      exists h',
        updateHistory m (insertAll tiedSamples (clearHistory (updateHistory idleSample ∅)))
          !! "pub.ext" = Some h' /\
        (cpuUsage m <= pk_value (peak_cpu (peaks h)) ->
         peak_cpu (peaks h') = peak_cpu (peaks h)).
Proof.
  assert (H1 : (clearHistory (updateHistory idleSample ∅)) !! "pub.ext" = None)
    by apply lookup_empty.
  assert (H2 : tiedSamples <> []) by discriminate.
  assert (H3 : Forall (fun m => em_id m = "pub.ext") tiedSamples).
  { unfold tiedSamples. repeat constructor. }
  split; [exact H1|]. split; [exact H2|]. split; [exact H3|].
  destruct (C4_peak_is_running_maximum "pub.ext" _ tiedSamples H1 H2 H3)
    as (h & Hlook & Hcpu & Hmem & _ & _ & Hnext).
  exists h. split; [exact Hlook|].
  assert (Hpeaks : peak_cpu (peaks h) = {| pk_value := 9; pk_timestamp := 2000 |} /\
                   peak_memory (peaks h) = {| pk_value := 40; pk_timestamp := 1000 |}).
  { pose proof Hlook as Hc.
    rewrite (insertAll_lookup "pub.ext" tiedSamples _ H3 H2), H1 in Hc.
    injection Hc as <-. split; reflexivity. }
  split; [exact (proj1 Hpeaks)|]. split; [exact (proj2 Hpeaks)|].
  split; [exact Hcpu|]. split; [exact Hmem|].
  intros m Hm. destruct (Hnext m Hm) as (h' & Hh' & Hkeep & _).
  exists h'. split; [exact Hh'|exact Hkeep].
Defined.

(** ** Retention clean-up *)






(** ** Alerts *)

Lemma checkAlerts_types (cpuThreshold memoryThreshold : Q) (metric : ExtensionMetrics) :
  map al_type (checkAlerts cpuThreshold memoryThreshold metric)
  = (if Qltb cpuThreshold (cpuUsage metric) then [cpu_alert] else [])
    ++ (if Qltb memoryThreshold (memoryUsage metric) then [memory_alert] else []).
Proof.
  unfold checkAlerts. rewrite map_app.
  destruct (Qltb cpuThreshold _), (Qltb memoryThreshold _); reflexivity.
Qed.

Lemma checkAlerts_about_point (cpuThreshold memoryThreshold : Q)
    (metric : ExtensionMetrics) :
  Forall (fun a => al_extensionId a = em_id metric /\
                   al_timestamp a = em_timestamp metric /\
                   al_value a = match al_type a with
                                | cpu_alert => cpuUsage metric
                                | memory_alert => memoryUsage metric
                                end)
         (checkAlerts cpuThreshold memoryThreshold metric).
Proof.
  unfold checkAlerts. apply Forall_app.
  split; [destruct (Qltb cpuThreshold _) | destruct (Qltb memoryThreshold _)];
    repeat constructor.
Qed.

(** Closes a goal whose hypotheses order two numbers both ways. *)
Ltac order_clash :=
  match goal with
  | [ H : ?x < ?y, H' : ?y <= ?x |- _ ] => exfalso; exact (Qlt_not_le _ _ H H')
  | [ H : ?x < ?y, E : ?y == ?x |- _ ] =>
      exfalso; rewrite E in H; exact (Qlt_irrefl _ H)
  end.

(** C10. A cpu alert is emitted exactly when the cpu reading is strictly
    above the cpu threshold, a memory alert exactly when the memory reading
    is strictly above the memory threshold, each decided on its own; a
    reading equal to its threshold emits no alert of that type; a point
    above both thresholds emits the cpu alert and the memory alert, both
    for that point; no type is alerted twice. *)
Theorem C10_alerts_strictly_above_threshold (cpuThreshold memoryThreshold : Q)
    (metric : ExtensionMetrics) :
  let alerts := checkAlerts cpuThreshold memoryThreshold metric in
  let types := map al_type alerts in
  (cpu_alert ∈ types <-> cpuThreshold < cpuUsage metric) /\
  (memory_alert ∈ types <-> memoryThreshold < memoryUsage metric) /\
  (cpuUsage metric == cpuThreshold -> cpu_alert ∉ types) /\
  (memoryUsage metric == memoryThreshold -> memory_alert ∉ types) /\
  (cpuThreshold < cpuUsage metric -> memoryThreshold < memoryUsage metric ->
   types = [cpu_alert; memory_alert]) /\
  NoDup types /\
  Forall (fun a => al_extensionId a = em_id metric /\
                   al_timestamp a = em_timestamp metric /\
                   al_value a = match al_type a with
                                | cpu_alert => cpuUsage metric
                                | memory_alert => memoryUsage metric
                                end) alerts.
Proof.
  cbv zeta. rewrite checkAlerts_types.
  repeat split; try apply checkAlerts_about_point.
  all: destruct (Qltb cpuThreshold (cpuUsage metric)) eqn:Ec;
    [apply Qltb_lt in Ec | apply Qltb_ge in Ec].
  all: destruct (Qltb memoryThreshold (memoryUsage metric)) eqn:Em;
    [apply Qltb_lt in Em | apply Qltb_ge in Em].
  all: cbn [app]; intros; try order_clash; try assumption.
  all: try (exfalso; match goal with H : _ ∈ _ |- _ => revert H end).
  all: compute_done.
Qed.

(** Scenario C: with the cpu threshold at 80, a reading of 81 raises the
    cpu alert and a reading of 80 raises none. *)
Lemma C10_threshold_80 :
  cpu_alert ∈ map al_type (checkAlerts 80 100 (sample "pub.ext" 81 10 1000)) /\
  cpu_alert ∉ map al_type (checkAlerts 80 100 (sample "pub.ext" 80 10 1000)).
Proof.
  split.
  - apply (C10_alerts_strictly_above_threshold 80 100 (sample "pub.ext" 81 10 1000)).
    reflexivity.
  - apply (C10_alerts_strictly_above_threshold 80 100 (sample "pub.ext" 80 10 1000)).
    reflexivity.
Defined.

(** ** Matcher *)

Example normalizePath_windows :
  normalizePath "C:\Users\Me\.vscode\Extensions\Pub.A-1.0"
  = "c:/users/me/.vscode/extensions/pub.a-1.0".
Proof. reflexivity. Qed.

Lemma startsWith_spec (haystack needle : string) :
  startsWith haystack needle = true <-> exists post, haystack = needle +:+ post.
Proof.
  revert haystack. induction needle as [|a n IH]; intros [|b h]; cbn.
  - split; [exists EmptyString; reflexivity | reflexivity].
  - split; [exists (String b h); reflexivity | reflexivity].
  - split; [discriminate | intros [post E]; discriminate E].
  - destruct (decide (a = b)) as [->|Hne].
    + rewrite IH. split; intros [post E]; exists post.
      * rewrite E. reflexivity.
      * injection E as E. exact E.
    + split; [discriminate | intros [post E]; injection E as E1 E2; congruence].
Qed.

Lemma includes_spec (haystack needle : string) :
  includes haystack needle = true <-> occursIn needle haystack.
Proof.
  unfold occursIn. induction haystack as [|c h IH]; cbn [includes].
  - rewrite orb_false_r, startsWith_spec. split.
    + intros [post E]. exists EmptyString, post. exact E.
    + intros (pre & post & E). destruct pre; [exists post; exact E | discriminate E].
  - rewrite orb_true_iff, startsWith_spec, IH. split.
    + intros [[post E] | (pre & post & E)].
      * exists EmptyString, post. exact E.
      * exists (String c pre), post. rewrite E. reflexivity.
    + intros (pre & post & E). destruct pre as [|c' pre].
      * left. exists post. exact E.
      * right. injection E as _ E. exists pre, post. exact E.
Qed.

Lemma candidateMatches_spec (haystack : string) (c : ExtensionIndexEntry) :
  candidateMatches haystack c = true <-> matchesCandidate haystack c.
Proof.
  unfold candidateMatches, matchesCandidate.
  rewrite orb_true_iff, !includes_spec. reflexivity.
Qed.



(** The normalization of the code is the one of the specification:
    backslashes mapped to slashes, capital letters to small letters. *)
Lemma normalizePath_normalizedCommandLine (value : string) :
  normalizePath value = normalizedCommandLine value.
Proof.
  unfold normalizePath, normalizedCommandLine.
  induction value as [|c s IH]; [reflexivity|].
  cbn [replaceBackslashes toLowerCase list_ascii_of_string map string_of_list_ascii].
  rewrite IH. f_equal.
  destruct c as [[|] [|] [|] [|] [|] [|] [|] [|]]; reflexivity.
Qed.

Lemma normalizedChar_ascii (c : ascii) :
  asciiChar c = true -> asciiChar (normalizedChar c) = true.
Proof.
  destruct c as [[|] [|] [|] [|] [|] [|] [|] [|]]; intros H; try exact H; reflexivity.
Qed.

Lemma normalizedCommandLine_ascii (value : string) :
  isAscii value -> isAscii (normalizedCommandLine value).
Proof.
  unfold isAscii, normalizedCommandLine. rewrite list_ascii_of_string_of_list_ascii.
  intros H. apply Forall_fmap. eapply Forall_impl; [exact H|].
  intros c Hc. apply normalizedChar_ascii, Hc.
Qed.




(** ** Process walk *)

(** C7 (evaluation at the failing inputs). With a listing that reports all
    descendants of the pid asked about, the walk from pid 1 returns the
    grandchild 3 twice and the attribution counts its reading twice: three
    processes and 50% cpu for an extension that owns two processes using
    30%.  A listing that reports one child twice is returned as it is. *)
Theorem C7_walk_returns_a_pid_twice :
  getAllDescendants NumberOfDigits subtreeListing 5 1 = Some (Ok [server; worker; worker]) /\
  pidsOf NumberOfDigits [server; worker; worker] = [2; 3; 3]%Z /\
  ~ NoDup (pidsOf NumberOfDigits [server; worker; worker]) /\
  (exists stats s,
     collectSubprocessStats NumberOfDigits subtreeListing steadyUsage 1 5
       [extensionA] None = Some (Ok stats) /\
     stats !! "Pub.A" = Some s /\
     processCount s = 3%nat /\ totalCpu s == 50 /\
     map su_pid (processes s) = [2; 3; 3]%Z) /\
  getAllDescendants NumberOfDigits doubledListing 5 1 = Some (Ok [server; server]).
Proof.
  split; [vm_compute; reflexivity|].
  split; [vm_compute; reflexivity|].
  split.
  - intros H. vm_compute in H. apply NoDup_cons in H as [_ H].
    apply NoDup_cons in H as [Hin _]. apply Hin. left.
  - split; [|vm_compute; reflexivity].
    eexists _, _. split; [vm_compute; reflexivity|].
    split; [vm_compute; reflexivity|]. repeat split.
Qed.

Section WalkFacts.

Variable Number_ : string -> option Z.
Variable getProcessTree : Z -> result (list PsTreeEntry).

Local Abbreviation extends := (walkExtends Number_ getProcessTree).

Lemma extends_refl (st : WalkState) : extends st st.
Proof.
  split; [reflexivity|]. split; [auto|].
  exists []. split; [symmetry; apply app_nil_r|]. intros p Hp. inversion Hp.
Qed.

Lemma extends_trans (st1 st2 st3 : WalkState) :
  extends st1 st2 -> extends st2 st3 -> extends st1 st3.
Proof.
  intros (Hs1 & Hl1 & n1 & Ha1 & Hn1) (Hs2 & Hl2 & n2 & Ha2 & Hn2).
  split; [etrans; eassumption|]. split.
  - intros p Hp. destruct (Hl2 p Hp) as [H|H]; [exact (Hl1 p H) | right; exact H].
  - exists (n1 ++ n2). split; [rewrite Ha2, Ha1, app_assoc; reflexivity|].
    intros p Hp. unfold pidsOf in Hp. rewrite omap_app in Hp.
    apply elem_of_app in Hp as [Hp|Hp]; [apply Hs2, Hn1, Hp | apply Hn2, Hp].
Qed.

Lemma collectChildren_extends
    (rec : Z -> WalkState -> option (result WalkState)) :
  (forall pid st st', rec pid st = Some (Ok st') -> extends st st' /\ pid ∈ visited st') ->
  forall children st st',
    collectChildren Number_ rec children st = Some (Ok st') -> extends st st'.
Proof.
  intros Hrec. induction children as [|child rest IH]; intros st st' H; cbn in H.
  - injection H as <-. apply extends_refl.
  - destruct (validPid Number_ (PID child)) as [childPid|] eqn:Ev; [|exact (IH _ _ H)].
    destruct (rec childPid _) as [[st1|e]|] eqn:Er; try discriminate H.
    destruct (Hrec _ _ _ Er) as [Hext Hin].
    apply IH in H.
    eapply extends_trans; [|exact H].
    destruct Hext as (Hs & Hl & new & Ha & Hn). cbn in Hs, Hl, Ha.
    split; [exact Hs|]. split; [exact Hl|].
    exists (child :: new). split; [rewrite Ha, <- app_assoc; reflexivity|].
    intros p Hp. unfold pidsOf in Hp. cbn in Hp. rewrite Ev in Hp.
    apply elem_of_cons in Hp as [-> | Hp]; [exact Hin | exact (Hn p Hp)].
Qed.

Lemma collect_extends (fuel : nat) :
  forall pid st st',
    collect Number_ getProcessTree fuel pid st = Some (Ok st') ->
    extends st st' /\ pid ∈ visited st'.
Proof.
  induction fuel as [|fuel IH]; intros pid st st' H; cbn in H; [discriminate H|].
  destruct (decide (pid ∈ visited st)) as [Hin|Hnin].
  - injection H as <-. split; [apply extends_refl | exact Hin].
  - destruct (getProcessTree pid) as [children|e] eqn:El; [|discriminate H].
    apply (collectChildren_extends _ IH) in H.
    destruct H as (Hs & Hl & new & Ha & Hn). cbn in Hs, Hl, Ha.
    split; [|apply Hs, elem_of_union_l, elem_of_singleton; reflexivity].
    split; [intros p Hp; apply Hs, elem_of_union_r, Hp|]. split.
    + intros p Hp. destruct (Hl p Hp) as [Hv|Hv]; [|right; exact Hv].
      apply elem_of_union in Hv as [Hv|Hv]; [|left; exact Hv].
      apply elem_of_singleton in Hv as ->. right. exists children. exact El.
    + exists new. split; [exact Ha | exact Hn].
Qed.



(** *** Fuel *)

Lemma collectChildren_mono
    (rec rec' : Z -> WalkState -> option (result WalkState)) :
  (forall pid st r, rec pid st = Some r -> rec' pid st = Some r) ->
  forall children st r,
    collectChildren Number_ rec children st = Some r ->
    collectChildren Number_ rec' children st = Some r.
Proof.
  intros Hrec. induction children as [|child rest IH]; intros st r H; cbn in *.
  - exact H.
  - destruct (validPid Number_ (PID child)) as [childPid|]; [|exact (IH _ _ H)].
    destruct (rec childPid _) as [[st1|e]|] eqn:Er; [| |discriminate H].
    + rewrite (Hrec _ _ _ Er). exact (IH _ _ H).
    + rewrite (Hrec _ _ _ Er). exact H.
Qed.

(** More fuel never changes an answer. *)
Lemma collect_fuel_mono (fuel : nat) :
  forall fuel' pid st r,
    (fuel <= fuel')%nat ->
    collect Number_ getProcessTree fuel pid st = Some r ->
    collect Number_ getProcessTree fuel' pid st = Some r.
Proof.
  induction fuel as [|fuel IH]; intros fuel' pid st r Hle H; cbn in H;
    [discriminate H|].
  destruct fuel' as [|fuel']; [lia|]. cbn.
  destruct (decide (pid ∈ visited st)); [exact H|].
  destruct (getProcessTree pid) as [children|e]; [|exact H].
  eapply collectChildren_mono; [|exact H].
  intros p s r' Hr. apply (IH fuel'); [lia | exact Hr].
Qed.

Lemma walk_fuel_mono (fuel fuel' : nat) (root : Z) (r : result (list PsTreeEntry)) :
  (fuel <= fuel')%nat ->
  getAllDescendants Number_ getProcessTree fuel root = Some r ->
  getAllDescendants Number_ getProcessTree fuel' root = Some r.
Proof.
  unfold getAllDescendants. intros Hle H.
  destruct (collect _ _ fuel root _) as [c|] eqn:Ec; [|discriminate H].
  rewrite (collect_fuel_mono _ _ _ _ _ Hle Ec). exact H.
Qed.


(** *** Termination on a finite set of pids *)

Section Finite.

(** Every pid the listing ever reports lies in [universe]. *)
Variable universe : gset Z.
Hypothesis listing_closed : forall p children q,
  getProcessTree p = Ok children -> q ∈ pidsOf Number_ children -> q ∈ universe.

Lemma collectChildren_settles
    (rec : Z -> WalkState -> option (result WalkState)) (seen : gset Z) :
  (forall pid st, pid ∈ universe -> seen ⊆ visited st -> is_Some (rec pid st)) ->
  (forall pid st st', rec pid st = Some (Ok st') -> visited st ⊆ visited st') ->
  forall children st,
    (forall q, q ∈ pidsOf Number_ children -> q ∈ universe) ->
    seen ⊆ visited st ->
    is_Some (collectChildren Number_ rec children st).
Proof.
  intros Hsome Hgrow. induction children as [|child rest IH]; intros st Hin Hseen; cbn.
  - eexists. reflexivity.
  - unfold pidsOf in Hin. cbn in Hin.
    destruct (validPid Number_ (PID child)) as [childPid|] eqn:Ev.
    + destruct (Hsome childPid
                  {| allChildren := allChildren st ++ [child]; visited := visited st |})
        as [[st1|e] Er]; [apply Hin; left | exact Hseen | |].
      * rewrite Er. apply IH.
        -- intros q Hq. apply Hin. right. exact Hq.
        -- etrans; [exact Hseen|]. exact (Hgrow _ _ _ Er).
      * rewrite Er. eexists. reflexivity.
    + apply IH; [exact Hin | exact Hseen].
Qed.

Lemma collect_settles (fuel : nat) :
  forall pid st,
    pid ∈ universe ->
    (size (universe ∖ visited st) < fuel)%nat ->
    is_Some (collect Number_ getProcessTree fuel pid st).
Proof.
  induction fuel as [|fuel IH]; intros pid st Hpid Hsize; [lia|]. cbn.
  destruct (decide (pid ∈ visited st)) as [Hin|Hnin]; [eexists; reflexivity|].
  destruct (getProcessTree pid) as [children|e] eqn:El; [|eexists; reflexivity].
  assert (Hless : (size (universe ∖ ({[pid]} ∪ visited st)) < fuel)%nat).
  { assert (universe ∖ ({[pid]} ∪ visited st) ⊂ universe ∖ visited st) as Hsub.
    { split.
      - intros x. rewrite !elem_of_difference, elem_of_union.
        intros [Hx Hn]. split; [exact Hx | tauto].
      - intros Hback. specialize (Hback pid).
        rewrite !elem_of_difference, elem_of_union, elem_of_singleton in Hback.
        tauto. }
    apply subset_size in Hsub. lia. }
  apply (collectChildren_settles _ ({[pid]} ∪ visited st)).
  - intros p s Hp Hseen. apply IH; [exact Hp|].
    eapply Nat.le_lt_trans; [|exact Hless].
    apply subseteq_size. intros x. rewrite !elem_of_difference.
    intros [Hx Hn]. split; [exact Hx|]. intros Hv. apply Hn, Hseen, Hv.
  - intros p s s' Hr. destruct (collect_extends _ _ _ _ Hr) as [(Hs & _) _]. exact Hs.
  - intros q Hq. exact (listing_closed _ _ _ El Hq).
  - reflexivity.
Qed.

(** On a finite set of pids the walk ends: with one unit of fuel per pid
    and one to spare it returns a sequence or fails. *)
Lemma walk_settles (root : Z) :
  root ∈ universe ->
  is_Some (getAllDescendants Number_ getProcessTree (S (size universe)) root).
Proof.
  intros Hroot. unfold getAllDescendants.
  destruct (collect_settles (S (size universe)) root
              {| allChildren := []; visited := ∅ |} Hroot) as [[st|e] Hc].
  - cbn. rewrite difference_empty_L. lia.
  - rewrite Hc. eexists. reflexivity.
  - rewrite Hc. eexists. reflexivity.
Qed.

End Finite.

End WalkFacts.

(** ** The round *)

Section MonitorFacts.

Variable Number_ : string -> option Z.
Variable getProcessTree : Z -> result (list PsTreeEntry).
Variable pidusage : list Z -> result (gmap Z PidusageStat).
Variable process_pid : Z.
Variable extensions : list ExtensionLike.
Variable settings : ExtPerfSettings.
Variable now : Q.
Variable estimateCpuUsage : ExtensionLike -> Q.
Variable estimateMemoryUsage : ExtensionLike -> Q.
Variable getActivationTime : ExtensionLike -> Q.

Local Abbreviation metricOf :=
  (buildMetric now estimateCpuUsage estimateMemoryUsage getActivationTime).
Local Abbreviation alertsOf :=
  (checkAlerts (getConfig (cfg_alertThresholds_cpu settings) DEFAULTS.CPU_ALERT_THRESHOLD)
               (getConfig (cfg_alertThresholds_memory settings)
                          DEFAULTS.MEMORY_ALERT_THRESHOLD)).
Local Abbreviation walk := (getAllDescendants Number_ getProcessTree).
Local Abbreviation attribution :=
  (collectSubprocessStats Number_ getProcessTree pidusage process_pid).
Local Abbreviation round :=
  (collectMetrics Number_ getProcessTree pidusage process_pid extensions settings now
     estimateCpuUsage estimateMemoryUsage getActivationTime).
Local Abbreviation start :=
  (startMonitoring Number_ getProcessTree pidusage process_pid extensions settings now
     estimateCpuUsage estimateMemoryUsage getActivationTime).

(** The loop over the extensions in closed form. *)
Lemma round_loop (stats : gmap string ExtensionSubprocessStats) :
  forall exts collected st,
    fold_left (roundStep settings now estimateCpuUsage estimateMemoryUsage
                 getActivationTime stats) exts (collected, st)
    = (collected ++ map (metricOf stats) (reported exts),
       {| monitoringInterval := monitoringInterval st;
          performanceHistory :=
            insertAll (map (metricOf stats) (reported exts)) (performanceHistory st);
          currentMetrics := currentMetrics st;
          isMonitoringActive := isMonitoringActive st;
          outputChannel :=
            outputChannel st
            ++ map LogAlert (concat (map alertsOf (map (metricOf stats) (reported exts))));
          subprocessStats := subprocessStats st;
          shownAlerts :=
            shownAlerts st
            ++ concat (map alertsOf (map (metricOf stats) (reported exts))) |}).
Proof.
  induction exts as [|e exts IH]; intros collected st; cbn [fold_left].
  - destruct st. cbn. rewrite !app_nil_r. reflexivity.
  - unfold roundStep at 2. unfold reported. cbn [List.filter].
    destruct (startsWith (el_id e) "vscode."); cbn [negb].
    + apply IH.
    + rewrite IH. cbn [map concat insertAll fold_left monitoringInterval
        performanceHistory currentMetrics isMonitoringActive outputChannel
        subprocessStats shownAlerts].
      rewrite map_app, <- !app_assoc. reflexivity.
Qed.

Lemma finishRound_spec (outcome : result (gmap string ExtensionSubprocessStats))
    (st : MonitorState) :
  let stats := match outcome with Ok stats => stats | Throw _ => ∅ end in
  let collected := map (metricOf stats) (reported extensions) in
  finishRound extensions settings now estimateCpuUsage estimateMemoryUsage
    getActivationTime outcome st
  = (collected,
     {| monitoringInterval := monitoringInterval st;
        performanceHistory := insertAll collected (performanceHistory st);
        currentMetrics := collected;
        isMonitoringActive := isMonitoringActive st;
        outputChannel :=
          match outcome with
          | Ok _ => outputChannel st
          | Throw e => outputChannel st ++ [LogSubprocessError e]
          end ++ map LogAlert (concat (map alertsOf collected));
        subprocessStats := stats;
        shownAlerts := shownAlerts st ++ concat (map alertsOf collected) |}).
Proof.
  cbv zeta. unfold finishRound.
  destruct outcome as [stats|e]; rewrite round_loop; reflexivity.
Qed.

(** Without an entry in the attribution mapping an extension is reported
    with no subprocess and no process usage. *)
Lemma metric_without_attribution (extension : ExtensionLike) :
  let m := metricOf ∅ extension in
  processCpuUsage m = Some 0 /\ processMemoryUsage m = Some 0 /\
  subprocessCount m = Some 0%nat /\
  cpuUsage m = estimateCpuUsage extension /\
  memoryUsage m = estimateMemoryUsage extension.
Proof. cbv zeta. unfold buildMetric. rewrite lookup_empty. repeat split. Qed.

Lemma round_without_attribution (outcome : result (gmap string ExtensionSubprocessStats))
    (st : MonitorState) :
  match outcome with Ok stats => stats = ∅ | Throw _ => True end ->
  exists collected st',
    finishRound extensions settings now estimateCpuUsage estimateMemoryUsage
      getActivationTime outcome st = (collected, st') /\
    subprocessStats st' = ∅ /\
    outputChannel st'
      = match outcome with
        | Ok _ => outputChannel st
        | Throw e => outputChannel st ++ [LogSubprocessError e]
        end ++ map LogAlert (concat (map alertsOf collected)) /\
    collected = map (metricOf ∅) (reported extensions) /\
    Forall (fun m => processCpuUsage m = Some 0 /\ processMemoryUsage m = Some 0 /\
                     subprocessCount m = Some 0%nat) collected.
Proof.
  intros Hempty. rewrite finishRound_spec. cbv zeta.
  assert (E : match outcome with Ok stats => stats | Throw _ => ∅ end = ∅)
    by (destruct outcome; [exact Hempty | reflexivity]).
  rewrite E. eexists _, _. split; [reflexivity|]. cbn.
  repeat split.
  apply Forall_fmap, Forall_true. intros extension.
  destruct (metric_without_attribution extension) as (H1 & H2 & H3 & _).
  cbn. auto.
Qed.

Lemma attribute_sampling_failure (options : option CollectSubprocessStatsOptions)
    (children : list PsTreeEntry) (e : string) :
  pidusage (pidsOf Number_ children) = Throw e ->
  attribute Number_ pidusage options extensions children = Ok ∅.
Proof.
  intros H. unfold attribute. destruct children as [|c cs]; [reflexivity|].
  destruct (pidsOf Number_ (c :: cs)); [reflexivity|]. rewrite H. reflexivity.
Qed.

Lemma start_arms_timer (fuel : nat) (st : MonitorState) :
  isMonitoringActive st = false ->
  is_Some (walk fuel process_pid) ->
  exists st',
    start fuel st = Some st' /\
    monitoringInterval st' = Some (configuredInterval settings) /\
    isMonitoringActive st' = true.
Proof.
  intros Hoff [r Hr]. unfold startMonitoring, collectMetrics, collectSubprocessStats.
  rewrite Hoff. cbn [option_bind mbind default]. rewrite Hr.
  destruct r as [children|e]; rewrite finishRound_spec; cbv zeta;
    (eexists; split; [reflexivity|]; split; [|reflexivity]);
    unfold configuredInterval, getConfig, DEFAULTS.MONITORING_INTERVAL;
    destruct (cfg_monitoringInterval settings); reflexivity.
Qed.

(** C1 (amended). When the sampling primitive throws for the batch of
    pids of the walk, the attribution step returns the empty mapping, in
    both revisions, with no component present in it; the round does not
    fail: it logs no error (only the alerts of the round), stores the empty
    mapping, and reports every extension with zero subprocesses and zero
    process cpu and memory. *)
Theorem C1_sampling_failure_gives_empty_mapping
    (options : option CollectSubprocessStatsOptions) (fuel : nat)
    (children : list PsTreeEntry) (e : string) (st : MonitorState) :
  pidusage (pidsOf Number_ children) = Throw e ->
  (walk fuel (default process_pid (options ≫= rootPid)) = Some (Ok children) ->
   attribution fuel extensions options = Some (Ok ∅)) /\
  (getProcessTree process_pid = Ok children ->
   collectSubprocessStats_v1 Number_ getProcessTree pidusage process_pid extensions
   = Ok ∅) /\
  (walk fuel process_pid = Some (Ok children) ->
   exists collected st',
     round fuel st = Some (collected, st') /\
     subprocessStats st' = ∅ /\
     outputChannel st'
       = outputChannel st ++ map LogAlert (concat (map alertsOf collected)) /\
     collected = map (metricOf ∅) (reported extensions) /\
     Forall (fun m => processCpuUsage m = Some 0 /\ processMemoryUsage m = Some 0 /\
                      subprocessCount m = Some 0%nat) collected).
Proof.
  intros Hfail. split; [|split].
  - intros Hwalk. unfold collectSubprocessStats. rewrite Hwalk.
    rewrite (attribute_sampling_failure _ _ _ Hfail). reflexivity.
  - intros Hlist. unfold collectSubprocessStats_v1. rewrite Hlist.
    apply (attribute_sampling_failure _ _ _ Hfail).
  - intros Hwalk. unfold collectMetrics, collectSubprocessStats.
    cbn [option_bind mbind default]. rewrite Hwalk.
    rewrite (attribute_sampling_failure _ _ _ Hfail).
    destruct (round_without_attribution (Ok ∅) st eq_refl)
      as (collected & st' & Hr & Hs & Ho & Hc & Hz).
    exists collected, st'. rewrite Hr. auto.
Qed.


(** C9 (amended). Started while stopped, on a host whose listings range
    over a finite set of pids, [start] runs the first round and arms the
    timer with exactly the configured interval, whatever its value, and with
    5000 when none is configured. *)
Theorem C9_timer_armed_with_configured_interval (universe : gset Z)
    (st : MonitorState) :
  process_pid ∈ universe ->
  (forall p children q,
     getProcessTree p = Ok children -> q ∈ pidsOf Number_ children -> q ∈ universe) ->
  isMonitoringActive st = false ->
  exists st',
    start (S (size universe)) st = Some st' /\
    monitoringInterval st' = Some (configuredInterval settings) /\
    isMonitoringActive st' = true.
Proof.
  intros Hroot Hclosed Hoff. apply start_arms_timer; [exact Hoff|].
  exact (walk_settles Number_ getProcessTree universe Hclosed process_pid Hroot).
Qed.

End MonitorFacts.

(** ** The scenarios of the round *)

Lemma subtreeListing_closed (p : Z) (children : list PsTreeEntry) (q : Z) :
  subtreeListing p = Ok children ->
  q ∈ pidsOf NumberOfDigits children -> q ∈ demoPids.
Proof.
  unfold subtreeListing, demoPids. intros H Hq.
  destruct (decide (p = 1%Z)); [|destruct (decide (p = 2%Z))];
    injection H as <-; vm_compute in Hq.
  - apply elem_of_cons in Hq as [-> | Hq]; [set_solver|].
    apply list_elem_of_singleton in Hq as ->. set_solver.
  - apply list_elem_of_singleton in Hq as ->. set_solver.
  - inversion Hq.
Qed.

(** The sampling primitive is down while the walk finds three entries:
    the mapping is empty and the round reports [Pub.A] from its estimates. *)
Lemma C1_scenario_sampling_down :
  usageDown (pidsOf NumberOfDigits [server; worker; worker]) = Throw "spawn ps ENOENT" /\
  demoAttribution subtreeListing usageDown 5 = Some (Ok ∅) /\
  collectSubprocessStats_v1 NumberOfDigits subtreeListing usageDown 1 [extensionA]
    = Ok ∅ /\
  exists collected st',
    demoRound subtreeListing usageDown noSettings 5 initialState
      = Some (collected, st') /\
    subprocessStats st' = ∅ /\
    outputChannel st' = [] /\
    Forall (fun m => processCpuUsage m = Some 0 /\ processMemoryUsage m = Some 0 /\
                     subprocessCount m = Some 0%nat) collected.
Proof.
  split; [reflexivity|].
  destruct (C1_sampling_failure_gives_empty_mapping NumberOfDigits subtreeListing
              usageDown 1 [extensionA] noSettings 1000 (fun _ => 1) (fun _ => 7)
              (fun _ => 100) None 5 [server; worker; worker] "spawn ps ENOENT"
              initialState eq_refl) as (Hattr & _ & Hround).
  destruct (C1_sampling_failure_gives_empty_mapping NumberOfDigits subtreeListing
              usageDown 1 [extensionA] noSettings 1000 (fun _ => 1) (fun _ => 7)
              (fun _ => 100) None 5 [server; worker] "spawn ps ENOENT"
              initialState eq_refl) as (_ & Hv1 & _).
  split; [apply Hattr; vm_compute; reflexivity|].
  split; [apply Hv1; reflexivity|].
  destruct Hround as (collected & st' & Hr & Hs & Ho & Hc & Hz);
    [vm_compute; reflexivity|].
  exists collected, st'. rewrite Hc in Ho. auto.
Defined.

(** C1 as stated fails: after a failure of the sampling primitive the
    mapping returned by the attribution step has no entry for the
    component. *)
Lemma C1_component_absent_after_sampling_failure :
  ~ (exists fuel stats s,
       demoAttribution subtreeListing usageDown fuel = Some (Ok stats) /\
       stats !! "Pub.A" = Some s /\
       processCount s = 0%nat /\ totalCpu s == 0).
Proof.
  intros (fuel & stats & s & Hstats & Hs & _).
  unfold demoAttribution, collectSubprocessStats in Hstats.
  destruct (getAllDescendants _ _ fuel _) as [[children|e]|]; try discriminate Hstats.
  rewrite (attribute_sampling_failure NumberOfDigits usageDown [extensionA] None
             children "spawn ps ENOENT" eq_refl) in Hstats.
  injection Hstats as <-. rewrite lookup_empty in Hs. discriminate Hs.
Qed.



(** A host with pids 1, 2, 3 and no interval configured: the timer runs
    every 5000 ms. *)
Lemma C9_scenario_default_interval :
  1%Z ∈ demoPids /\
  (forall p children q,
     subtreeListing p = Ok children -> q ∈ pidsOf NumberOfDigits children ->
     q ∈ demoPids) /\
  isMonitoringActive initialState = false /\
  exists st',
    demoStart subtreeListing steadyUsage noSettings (S (size demoPids)) initialState
      = Some st' /\
    monitoringInterval st' = Some 5000 /\
    isMonitoringActive st' = true.
Proof.
  assert (H1 : 1%Z ∈ demoPids) by (unfold demoPids; set_solver).
  split; [exact H1|]. split; [exact subtreeListing_closed|]. split; [reflexivity|].
  exact (C9_timer_armed_with_configured_interval NumberOfDigits subtreeListing
           steadyUsage 1 [extensionA] noSettings 1000 (fun _ => 1) (fun _ => 7)
           (fun _ => 100) demoPids initialState H1 subtreeListing_closed eq_refl).
Defined.

(** C9 as stated fails: with the interval set to 100 ms the timer is armed
    with 100 ms. *)
Lemma C9_interval_100_is_used :
  ~ (forall st',
       demoStart subtreeListing steadyUsage hastySettings 5 initialState = Some st' ->
       exists interval,
         monitoringInterval st' = Some interval /\
         1000 <= interval /\ interval <= 60000).
Proof.
  intros H.
  destruct (start_arms_timer NumberOfDigits subtreeListing steadyUsage 1 [extensionA]
              hastySettings 1000 (fun _ => 1) (fun _ => 7) (fun _ => 100)
              5 initialState eq_refl) as (st' & Hstart & Harmed & _).
  { eexists. vm_compute. reflexivity. }
  destruct (H st' Hstart) as (interval & Hi & Hlow & _).
  rewrite Harmed in Hi. injection Hi as <-.
  apply Hlow. reflexivity.
Qed.

(** * Further properties *)

(** ** Normalization and matching *)

Lemma normChar_fixed (c : ascii) :
  normChar (normChar c) = normChar c /\ ~ isUpper (normChar c) /\ ~ isBackslash (normChar c).
Proof.
  unfold isUpper, isBackslash.
  destruct c as [[|] [|] [|] [|] [|] [|] [|] [|]]; vm_compute;
    (split; [reflexivity|]); split; lia.
Qed.

Lemma normalizePath_chars (value : string) :
  list_ascii_of_string (normalizePath value)
  = map normChar (list_ascii_of_string value).
Proof.
  unfold normalizePath. induction value as [|c s IH]; [reflexivity|].
  cbn. rewrite IH. reflexivity.
Qed.

Lemma normalizePath_empty (value : string) :
  normalizePath value = EmptyString <-> value = EmptyString.
Proof. destruct value; cbn; split; congruence. Qed.

Lemma normalizePath_again (value : string) :
  normalizePath (normalizePath value) = normalizePath value.
Proof.
  rewrite <- (string_of_list_ascii_of_string (normalizePath (normalizePath value))).
  rewrite <- (string_of_list_ascii_of_string (normalizePath value)) at 2.
  f_equal. rewrite !normalizePath_chars, map_map.
  apply map_ext. intros c. apply normChar_fixed.
Qed.

(** X1. On a value of ASCII characters [normalizePath] is idempotent and
    keeps the length of its argument; its result is made of ASCII
    characters again and holds no backslash and no capital. *)
Theorem X1_normalizePath_canonical (value : string) :
  isAscii value ->
  isAscii (normalizePath value) /\
  normalizePath (normalizePath value) = normalizePath value /\
  String.length (normalizePath value) = String.length value /\
  Forall (fun c => ~ isUpper c /\ ~ isBackslash c)
         (list_ascii_of_string (normalizePath value)).
Proof.
  intros Hascii.
  split; [rewrite normalizePath_normalizedCommandLine;
          apply normalizedCommandLine_ascii, Hascii|].
  split; [apply normalizePath_again|]. split.
  - unfold normalizePath. clear Hascii. induction value as [|c s IH]; [reflexivity|].
    cbn. rewrite IH. reflexivity.
  - rewrite normalizePath_chars. apply Forall_fmap, Forall_true.
    intros c. apply normChar_fixed.
Qed.

Lemma X1_windows_install_path :
  isAscii "C:\Users\Me\.vscode\Extensions\Pub.A-1.0" /\
  normalizePath "C:\Users\Me\.vscode\Extensions\Pub.A-1.0"
  = "c:/users/me/.vscode/extensions/pub.a-1.0" /\
  normalizePath (normalizePath "C:\Users\Me\.vscode\Extensions\Pub.A-1.0")
  = normalizePath "C:\Users\Me\.vscode\Extensions\Pub.A-1.0" /\
  String.length (normalizePath "C:\Users\Me\.vscode\Extensions\Pub.A-1.0")
  = String.length "C:\Users\Me\.vscode\Extensions\Pub.A-1.0".
Proof.
  assert (Hascii : isAscii "C:\Users\Me\.vscode\Extensions\Pub.A-1.0")
    by (repeat constructor).
  split; [exact Hascii|]. split; [reflexivity|].
  destruct (X1_normalizePath_canonical _ Hascii) as (_ & Hagain & Hlength & _).
  split; [exact Hagain|exact Hlength].
Defined.

Lemma findBestMatch_normalized (command : string)
    (extensions : list ExtensionIndexEntry) :
  findBestMatch (normalizePath command) extensions = findBestMatch command extensions.
Proof.
  unfold findBestMatch. rewrite normalizePath_again.
  destruct (decide (command = EmptyString)) as [->|Hne]; [reflexivity|].
  destruct (decide (normalizePath command = EmptyString)) as [He|_]; [|reflexivity].
  apply (proj1 (normalizePath_empty command)) in He. contradiction.
Qed.

(** X2. Two command lines that differ only in letter case or in the
    direction of their slashes are matched to the same entry. *)
Theorem X2_match_ignores_case_and_slashes (command command' : string)
    (extensions : list ExtensionIndexEntry) :
  normalizePath command = normalizePath command' ->
  findBestMatch command extensions = findBestMatch command' extensions.
Proof.
  intros H. rewrite <- (findBestMatch_normalized command),
    <- (findBestMatch_normalized command'), H. reflexivity.
Qed.

Lemma X2_windows_and_posix_spelling :
  normalizePath "C:\EXT\A\bin\Server.js" = normalizePath "c:/ext/a/BIN/server.js" /\
  findBestMatch "C:\EXT\A\bin\Server.js" [componentA; componentB]
  = findBestMatch "c:/ext/a/BIN/server.js" [componentA; componentB].
Proof.
  split; [reflexivity|].
  apply X2_match_ignores_case_and_slashes. reflexivity.
Defined.

(** The loop of [findBestMatch] keeps the first candidate among the
    matching ones with the longest path. *)
Lemma first_longest_after_loop (haystack : string)
    (extensions : list ExtensionIndexEntry) :
  match fold_left (considerCandidate haystack) extensions None with
  | None => forall c, c ∈ extensions -> candidateMatches haystack c = false
  | Some r =>
      candidateMatches haystack r = true /\
      exists earlier later,
        extensions = earlier ++ r :: later /\
        (forall c, c ∈ earlier -> candidateMatches haystack c = true ->
           (String.length (ie_path c) < String.length (ie_path r))%nat) /\
        (forall c, c ∈ later -> candidateMatches haystack c = true ->
           (String.length (ie_path c) <= String.length (ie_path r))%nat)
  end.
Proof.
  induction extensions as [|e es IH] using rev_ind; [intros c Hc; inversion Hc|].
  rewrite fold_left_app. cbn [fold_left]. unfold considerCandidate at 1.
  destruct (fold_left _ es None) as [r|].
  - destruct IH as (Hr & earlier & later & -> & Hbefore & Hafter).
    destruct (candidateMatches haystack e) eqn:Ee.
    + destruct (String.length (ie_path r) <? String.length (ie_path e))%nat eqn:El.
      * apply Nat.ltb_lt in El. split; [exact Ee|].
        exists (earlier ++ r :: later), []. split; [reflexivity|]. split.
        -- intros c Hc Hm. apply elem_of_app in Hc as [Hc|Hc].
           ++ specialize (Hbefore c Hc Hm). lia.
           ++ apply elem_of_cons in Hc as [-> | Hc]; [exact El|].
              specialize (Hafter c Hc Hm). lia.
        -- intros c Hc. inversion Hc.
      * apply Nat.ltb_ge in El. split; [exact Hr|].
        exists earlier, (later ++ [e]). split; [rewrite <- app_assoc; reflexivity|].
        split; [exact Hbefore|].
        intros c Hc Hm. apply elem_of_app in Hc as [Hc|Hc]; [exact (Hafter c Hc Hm)|].
        apply list_elem_of_singleton in Hc as ->. exact El.
    + split; [exact Hr|].
      exists earlier, (later ++ [e]). split; [rewrite <- app_assoc; reflexivity|].
      split; [exact Hbefore|].
      intros c Hc Hm. apply elem_of_app in Hc as [Hc|Hc]; [exact (Hafter c Hc Hm)|].
      apply list_elem_of_singleton in Hc as ->. congruence.
  - destruct (candidateMatches haystack e) eqn:Ee.
    + split; [exact Ee|]. exists es, []. split; [reflexivity|]. split.
      * intros c Hc Hm. rewrite (IH c Hc) in Hm. discriminate Hm.
      * intros c Hc. inversion Hc.
    + intros c Hc. apply elem_of_app in Hc as [Hc|Hc]; [exact (IH c Hc)|].
      apply list_elem_of_singleton in Hc as ->. exact Ee.
Qed.

(** X3. Among matching candidates with equally long install paths the one
    that comes first in the index wins: every matching candidate before
    the result has a strictly shorter path, none after it a longer one. *)
Theorem X3_match_ties_go_to_the_first (command : string)
    (extensions : list ExtensionIndexEntry) (r : ExtensionIndexEntry) :
  findBestMatch command extensions = Some r ->
  exists earlier later,
    extensions = earlier ++ r :: later /\
    (forall c, c ∈ earlier -> matchesCandidate (normalizePath command) c ->
       (String.length (ie_path c) < String.length (ie_path r))%nat) /\
    (forall c, c ∈ later -> matchesCandidate (normalizePath command) c ->
       (String.length (ie_path c) <= String.length (ie_path r))%nat).
Proof.
  unfold findBestMatch. destruct (decide (command = EmptyString)); [discriminate|].
  intros H. pose proof (first_longest_after_loop (normalizePath command) extensions) as L.
  rewrite H in L. destruct L as (_ & earlier & later & E & Hb & Ha).
  exists earlier, later. split; [exact E|].
  split; intros c Hc Hm; [apply Hb | apply Ha]; try assumption;
    apply candidateMatches_spec; exact Hm.
Qed.

(** A command line that names both [/ext/a] and [/ext/b], paths of equal
    length, goes to whichever component the index lists first. *)
Lemma X3_two_paths_of_equal_length :
  findBestMatch "/ext/b/run --peer /ext/a/run" [componentA; componentB] = Some componentA /\
  exists earlier later,
    [componentA; componentB] = earlier ++ componentA :: later /\
    (forall c, c ∈ earlier ->
       matchesCandidate (normalizePath "/ext/b/run --peer /ext/a/run") c ->
       (String.length (ie_path c) < String.length (ie_path componentA))%nat) /\
    (forall c, c ∈ later ->
       matchesCandidate (normalizePath "/ext/b/run --peer /ext/a/run") c ->
       (String.length (ie_path c) <= String.length (ie_path componentA))%nat).
Proof.
  assert (H : findBestMatch "/ext/b/run --peer /ext/a/run" [componentA; componentB]
              = Some componentA) by reflexivity.
  split; [exact H|].
  exact (X3_match_ties_go_to_the_first _ _ _ H).
Defined.

(** ** Attribution *)

Lemma fold_left_invariant {A B : Type} (f : B -> A -> B) (P : B -> Prop)
    (l : list A) (b : B) :
  P b -> (forall b x, x ∈ l -> P b -> P (f b x)) -> P (fold_left f l b).
Proof.
  revert b. induction l as [|x l IH]; intros b Hb Hstep; [exact Hb|].
  cbn. apply IH.
  - apply Hstep; [left | exact Hb].
  - intros b' y Hy. apply Hstep. right. exact Hy.
Qed.

Lemma sumList_snoc (l : list Q) (x : Q) : sumList (l ++ [x]) == sumList l + x.
Proof.
  induction l as [|y l IH]; cbn.
  - ring.
  - fold (sumList (l ++ [x])). fold (sumList l). rewrite IH. ring.
Qed.

Lemma findBestMatch_found (command : string) (extensions : list ExtensionIndexEntry)
    (r : ExtensionIndexEntry) :
  findBestMatch command extensions = Some r ->
  command <> EmptyString /\ r ∈ extensions /\ matchesCandidate (normalizePath command) r.
Proof.
  unfold findBestMatch. destruct (decide (command = EmptyString)); [discriminate|].
  intros H. pose proof (first_longest_after_loop (normalizePath command) extensions) as L.
  rewrite H in L. destruct L as (Hm & earlier & later & -> & _).
  split; [assumption|]. split; [|apply candidateMatches_spec, Hm].
  apply elem_of_app. right. left.
Qed.

Lemma indexById_found (indexed : list ExtensionIndexEntry) (k : string)
    (e : ExtensionIndexEntry) :
  indexById indexed !! k = Some e -> e ∈ indexed /\ ie_id e = k.
Proof.
  unfold indexById.
  assert (G : forall (m : gmap string ExtensionIndexEntry),
             fold_left (fun m entry => <[ie_id entry := entry]> m) indexed m !! k = Some e ->
             (e ∈ indexed /\ ie_id e = k) \/ m !! k = Some e).
  { induction indexed as [|x l IH]; intros m H; [right; exact H|].
    cbn in H. destruct (IH _ H) as [[Hin Hk] | Hm].
    - left. split; [right; exact Hin | exact Hk].
    - destruct (decide (ie_id x = k)) as [Hx|Hx].
      + rewrite Hx, lookup_insert_eq in Hm. injection Hm as <-.
        left. split; [left | exact Hx].
      + rewrite lookup_insert_ne in Hm by exact Hx. right. exact Hm. }
  intros H. destruct (G ∅ H) as [Hok | Hm]; [exact Hok|].
  rewrite lookup_empty in Hm. discriminate Hm.
Qed.

Section AttributionFacts.

Variable Number_ : string -> option Z.
Variable getProcessTree : Z -> result (list PsTreeEntry).
Variable pidusage : list Z -> result (gmap Z PidusageStat).
Variable process_pid : Z.
Variable extensions : list ExtensionLike.
Variable options : option CollectSubprocessStatsOptions.

Local Abbreviation indexed := (map indexExtension extensions).
Local Abbreviation step := (attributeChild Number_ options indexed).
Local Abbreviation walk := (getAllDescendants Number_ getProcessTree).
Local Abbreviation attribution :=
  (collectSubprocessStats Number_ getProcessTree pidusage process_pid).

(** One iteration either leaves the mapping alone or adds one process to
    the entry of its owner. *)
Lemma attributeChild_cases (usageStats : gmap Z PidusageStat)
    (stats : gmap string ExtensionSubprocessStats) (child : PsTreeEntry) :
  step usageStats stats child = stats \/
  exists pid usage matched,
    Number_ (PID child) = Some pid /\
    usageStats !! pid = Some usage /\
    ownerOf options indexed pid (resolveCommand child) = Some matched /\
    step usageStats stats child
    = <[ie_id matched :=
          let existing :=
            default {| ss_extensionId := ie_id matched; totalCpu := 0; totalMemory := 0;
                       processCount := 0; processes := [] |}
                    (stats !! ie_id matched) in
          {| ss_extensionId := ss_extensionId existing;
             totalCpu := totalCpu existing + su_cpu (entryOf Number_ child pid usage);
             totalMemory := totalMemory existing + su_memory (entryOf Number_ child pid usage);
             processCount := S (processCount existing);
             processes := processes existing ++ [entryOf Number_ child pid usage] |}]> stats.
Proof.
  unfold attributeChild, ownerOf.
  destruct (Number_ (PID child)) as [pid|] eqn:En; [|left; reflexivity].
  destruct (usageStats !! pid) as [usage|] eqn:Eu; [|left; reflexivity].
  destruct (match forcedExtensionId options pid with
            | Some forced => indexById indexed !! forced
            | None => findBestMatch (resolveCommand child) indexed
            end) as [matched|] eqn:Eo; [|left; reflexivity].
  right. exists pid, usage, matched.
  split; [reflexivity|]. split; [exact Eu|]. split; [exact Eo | reflexivity].
Qed.

Lemma owner_is_an_extension (pid : Z) (command : string) (matched : ExtensionIndexEntry) :
  ownerOf options indexed pid command = Some matched ->
  exists extension, extension ∈ extensions /\ el_id extension = ie_id matched.
Proof.
  unfold ownerOf. intros H.
  assert (Hin : matched ∈ indexed).
  { destruct (forcedExtensionId options pid).
    - apply indexById_found in H. apply H.
    - apply findBestMatch_found in H. apply H. }
  apply list_elem_of_fmap in Hin as (extension & -> & Hext).
  exists extension. split; [exact Hext | reflexivity].
Qed.

(** The result of the attribution step is the empty mapping or the fold of
    the aggregation loop over the walked children. *)
Lemma attribution_cases (fuel : nat) (stats : gmap string ExtensionSubprocessStats) :
  attribution fuel extensions options = Some (Ok stats) ->
  exists children,
    walk fuel (default process_pid (options ≫= rootPid)) = Some (Ok children) /\
    (stats = ∅ \/
     exists usageStats,
       pidusage (pidsOf Number_ children) = Ok usageStats /\
       stats = fold_left (step usageStats) children ∅).
Proof.
  unfold collectSubprocessStats. intros H.
  destruct (walk fuel _) as [[children|e]|]; try discriminate H.
  exists children. split; [reflexivity|].
  injection H as H. unfold attribute in H.
  destruct children as [|c cs]; [left; congruence|].
  destruct (pidsOf Number_ (c :: cs)) as [|p ps]; [left; congruence|].
  destruct (pidusage (p :: ps)) as [usageStats|e]; [|left; congruence].
  right. exists usageStats. split; [reflexivity | congruence].
Qed.

(** X4. In the mapping returned by the attribution step every entry is
    filed under the id of one of the extensions passed in, holds at least
    one process, counts exactly the processes it lists, and its cpu and
    memory totals are the sums over those processes. *)
Theorem X4_attribution_totals_match_processes (fuel : nat)
    (stats : gmap string ExtensionSubprocessStats) (k : string)
    (s : ExtensionSubprocessStats) :
  attribution fuel extensions options = Some (Ok stats) ->
  stats !! k = Some s ->
  consistentStats k s /\ exists extension, extension ∈ extensions /\ el_id extension = k.
Proof.
  intros H. destruct (attribution_cases _ _ H) as (children & _ & [-> | (usageStats & _ & ->)]).
  { rewrite lookup_empty. discriminate. }
  revert k s. apply fold_left_invariant.
  { intros k s Hk. rewrite lookup_empty in Hk. discriminate Hk. }
  intros stats0 child _ IH k s Hk.
  destruct (attributeChild_cases usageStats stats0 child)
    as [E | (pid & usage & matched & _ & _ & Ho & E)]; rewrite E in Hk.
  { exact (IH k s Hk). }
  destruct (decide (ie_id matched = k)) as [<-|Hne];
    [|rewrite lookup_insert_ne in Hk by exact Hne; exact (IH k s Hk)].
  rewrite lookup_insert_eq in Hk. injection Hk as <-.
  split; [|exact (owner_is_an_extension _ _ _ Ho)].
  unfold consistentStats. cbv zeta. cbn [ss_extensionId processCount processes totalCpu totalMemory].
  destruct (stats0 !! ie_id matched) as [s0|] eqn:E0; cbn [from_option id].
  - destruct (IH _ _ E0) as ((H1 & H2 & H3 & H4 & H5) & _).
    split; [exact H1|]. split; [rewrite length_app, H2; cbn [length]; lia|].
    split; [lia|]. rewrite !map_app. cbn [map]. split.
    + rewrite sumList_snoc, H4. reflexivity.
    + rewrite sumList_snoc, H5. reflexivity.
  - split; [reflexivity|]. split; [reflexivity|]. split; [lia|].
    split; cbn; ring.
Qed.

(** X5. A pid with a non-empty override is attributed to the overriding id
    and to nothing else, whatever its command line says; when no extension
    passed in has that id the process is dropped, without falling back to
    the heuristic match. *)
Theorem X5_override_decides_the_owner (fuel : nat)
    (stats : gmap string ExtensionSubprocessStats) (p : Z) (k : string) :
  forcedExtensionId options p = Some k ->
  attribution fuel extensions options = Some (Ok stats) ->
  (forall k' s u, stats !! k' = Some s -> u ∈ processes s -> su_pid u = p -> k' = k) /\
  ((forall extension, extension ∈ extensions -> el_id extension <> k) ->
   forall k' s u, stats !! k' = Some s -> u ∈ processes s -> su_pid u <> p).
Proof.
  intros Hforced H.
  assert (G : forall k' s u, stats !! k' = Some s -> u ∈ processes s -> su_pid u = p ->
                k' = k /\ exists extension, extension ∈ extensions /\ el_id extension = k).
  { destruct (attribution_cases _ _ H) as (children & _ & [-> | (usageStats & _ & ->)]).
    { intros k' s u Hk. rewrite lookup_empty in Hk. discriminate Hk. }
    apply fold_left_invariant.
    { intros k' s u Hk. rewrite lookup_empty in Hk. discriminate Hk. }
    intros stats0 child _ IH k' s u Hk Hu Hp.
    destruct (attributeChild_cases usageStats stats0 child)
      as [E | (pid & usage & matched & _ & _ & Ho & E)]; rewrite E in Hk.
    { exact (IH k' s u Hk Hu Hp). }
    destruct (decide (ie_id matched = k')) as [<-|Hne];
      [|rewrite lookup_insert_ne in Hk by exact Hne; exact (IH k' s u Hk Hu Hp)].
    rewrite lookup_insert_eq in Hk. injection Hk as <-.
    cbv zeta in Hu. cbn [processes] in Hu.
    apply elem_of_app in Hu as [Hu | Hu].
    - destruct (stats0 !! ie_id matched) as [s0|] eqn:E0; cbn [from_option id] in Hu.
      + exact (IH _ _ _ E0 Hu Hp).
      + inversion Hu.
    - apply list_elem_of_singleton in Hu as ->. cbn [entryOf su_pid] in Hp. subst pid.
      pose proof (owner_is_an_extension _ _ _ Ho) as Hext.
      unfold ownerOf in Ho. rewrite Hforced in Ho.
      apply indexById_found in Ho as [_ Hid]. rewrite Hid in *. auto. }
  split.
  - intros k' s u Hk Hu Hp. exact (proj1 (G k' s u Hk Hu Hp)).
  - intros Hnone k' s u Hk Hu Hp.
    destruct (G k' s u Hk Hu Hp) as (_ & extension & Hin & Hid).
    exact (Hnone extension Hin Hid).
Qed.

(** X6. Every process listed in the mapping comes from an entry of the
    walk whose pid has a reading in the sample: its command is the first
    non-empty command column, its cpu the reading's (0 when missing).
    Without an override its command line is not empty and contains the
    install path or the lowercased id of the extension it is filed under. *)
Theorem X6_process_details_come_from_sampled_entries (fuel : nat)
    (stats : gmap string ExtensionSubprocessStats) (k : string)
    (s : ExtensionSubprocessStats) (u : SubprocessUsage) :
  attribution fuel extensions options = Some (Ok stats) ->
  stats !! k = Some s ->
  u ∈ processes s ->
  exists children usageStats child usage,
    walk fuel (default process_pid (options ≫= rootPid)) = Some (Ok children) /\
    pidusage (pidsOf Number_ children) = Ok usageStats /\
    child ∈ children /\
    Number_ (PID child) = Some (su_pid u) /\
    usageStats !! su_pid u = Some usage /\
    u = entryOf Number_ child (su_pid u) usage /\
    (forcedExtensionId options (su_pid u) = None ->
     su_command u <> EmptyString /\
     exists extension,
       extension ∈ extensions /\ el_id extension = k /\
       matchesCandidate (normalizePath (su_command u)) (indexExtension extension)).
Proof.
  intros H. destruct (attribution_cases _ _ H) as (children & Hw & [-> | (usageStats & Hu & ->)]).
  { rewrite lookup_empty. discriminate. }
  intros Hk Hin. exists children, usageStats.
  enough (G : exists child usage,
             child ∈ children /\ Number_ (PID child) = Some (su_pid u) /\
             usageStats !! su_pid u = Some usage /\
             u = entryOf Number_ child (su_pid u) usage /\
             (forcedExtensionId options (su_pid u) = None ->
              su_command u <> EmptyString /\
              exists extension,
                extension ∈ extensions /\ el_id extension = k /\
                matchesCandidate (normalizePath (su_command u)) (indexExtension extension))).
  { destruct G as (child & usage & G). exists child, usage. tauto. }
  revert k s u Hk Hin. apply fold_left_invariant.
  { intros k s u Hk. rewrite lookup_empty in Hk. discriminate Hk. }
  intros stats0 child Hchild IH k s u Hk Hin.
  destruct (attributeChild_cases usageStats stats0 child)
    as [E | (pid & usage & matched & Hn & Hus & Ho & E)]; rewrite E in Hk.
  { exact (IH k s u Hk Hin). }
  destruct (decide (ie_id matched = k)) as [<-|Hne];
    [|rewrite lookup_insert_ne in Hk by exact Hne; exact (IH k s u Hk Hin)].
  rewrite lookup_insert_eq in Hk. injection Hk as <-.
  cbv zeta in Hin. cbn [processes] in Hin.
  apply elem_of_app in Hin as [Hin | Hin].
  - destruct (stats0 !! ie_id matched) as [s0|] eqn:E0; cbn [from_option id] in Hin.
    + exact (IH _ _ _ E0 Hin).
    + inversion Hin.
  - apply list_elem_of_singleton in Hin as ->. cbn [entryOf su_pid su_command].
    exists child, usage. split; [exact Hchild|]. split; [exact Hn|].
    split; [exact Hus|]. split; [reflexivity|].
    intros Hnone. unfold ownerOf in Ho. rewrite Hnone in Ho.
    apply findBestMatch_found in Ho as (Hne & Hm & Hmatch).
    split; [exact Hne|].
    apply list_elem_of_fmap in Hm as (extension & -> & Hext).
    exists extension. split; [exact Hext|]. split; [reflexivity | exact Hmatch].
Qed.

End AttributionFacts.

(** With pid 3 overridden to [Pub.B] and pid 2 to an extension that is
    not installed, the mapping holds one entry: [Pub.B] with the reading of
    pid 3. *)
Lemma overriddenAttribution_result :
  exists stats s,
    overriddenAttribution = Some (Ok stats) /\
    stats !! "Pub.B" = Some s /\
    stats !! "Pub.A" = None /\
    map su_pid (processes s) = [3%Z] /\
    su_pid <$> head (processes s) = Some 3%Z.
Proof.
  eexists _, _. split; [vm_compute; reflexivity|].
  split; [vm_compute; reflexivity|]. repeat split.
Qed.

Lemma X4_overridden_totals :
  exists stats s,
    overriddenAttribution = Some (Ok stats) /\
    stats !! "Pub.B" = Some s /\
    consistentStats "Pub.B" s /\
    exists extension, extension ∈ [extensionA; extensionB] /\ el_id extension = "Pub.B".
Proof.
  destruct overriddenAttribution_result as (stats & s & H1 & H2 & _).
  exists stats, s. split; [exact H1|]. split; [exact H2|].
  exact (X4_attribution_totals_match_processes NumberOfDigits flatListing steadyUsage 1
           [extensionA; extensionB] (Some overrides) 5 stats "Pub.B" s H1 H2).
Defined.

Lemma X5_unknown_override_drops_pid_2 :
  exists stats,
    forcedExtensionId (Some overrides) 2 = Some "Pub.Gone" /\
    overriddenAttribution = Some (Ok stats) /\
    (forall extension, extension ∈ [extensionA; extensionB] -> el_id extension <> "Pub.Gone") /\
    forall k' s u, stats !! k' = Some s -> u ∈ processes s -> su_pid u <> 2%Z.
Proof.
  destruct overriddenAttribution_result as (stats & s & H1 & _).
  exists stats.
  assert (Hf : forcedExtensionId (Some overrides) 2 = Some "Pub.Gone") by reflexivity.
  assert (Hnone : forall extension, extension ∈ [extensionA; extensionB] ->
                    el_id extension <> "Pub.Gone").
  { intros extension Hin. apply elem_of_cons in Hin as [-> | Hin]; [discriminate|].
    apply list_elem_of_singleton in Hin as ->. discriminate. }
  split; [exact Hf|]. split; [exact H1|]. split; [exact Hnone|].
  exact (proj2 (X5_override_decides_the_owner NumberOfDigits flatListing steadyUsage 1
                  [extensionA; extensionB] (Some overrides) 5 stats 2 "Pub.Gone" Hf H1)
               Hnone).
Defined.

Lemma X6_overridden_detail :
  exists stats s u,
    overriddenAttribution = Some (Ok stats) /\
    stats !! "Pub.B" = Some s /\
    u ∈ processes s /\
    exists children usageStats child usage,
      getAllDescendants NumberOfDigits flatListing 5
        (default 1%Z (Some overrides ≫= rootPid)) = Some (Ok children) /\
      steadyUsage (pidsOf NumberOfDigits children) = Ok usageStats /\
      child ∈ children /\
      NumberOfDigits (PID child) = Some (su_pid u) /\
      usageStats !! su_pid u = Some usage /\
      u = entryOf NumberOfDigits child (su_pid u) usage.
Proof.
  destruct overriddenAttribution_result as (stats & s & H1 & H2 & _ & _ & H3).
  destruct (head (processes s)) as [u|] eqn:Eh; [|discriminate H3].
  assert (Hu : u ∈ processes s).
  { destruct (processes s) as [|u' l]; [discriminate Eh|].
    injection Eh as ->. left. }
  exists stats, s, u. split; [exact H1|]. split; [exact H2|]. split; [exact Hu|].
  destruct (X6_process_details_come_from_sampled_entries NumberOfDigits flatListing
              steadyUsage 1 [extensionA; extensionB] (Some overrides) 5 stats "Pub.B" s u
              H1 H2 Hu) as (children & usageStats & child & usage & G).
  exists children, usageStats, child, usage. tauto.
Defined.

(** ** The walk as a set *)

Section WalkReach.

Variable Number_ : string -> option Z.
Variable getProcessTree : Z -> result (list PsTreeEntry).
Variable root : Z.

Local Abbreviation reached := (reachable Number_ getProcessTree root).
Local Abbreviation known := (knownPid Number_ getProcessTree root).
Local Abbreviation completes := (walkCompletes Number_ getProcessTree).
Local Abbreviation collected := (listingCollected Number_ getProcessTree).

(** *** Only reachable entries are appended *)



(** *** Every listing that was opened is collected in full *)







End WalkReach.


(** ** Termination of the walk *)

(** X8. When all the pids that the listings report lie in a finite set
    that holds the root, the walk ends, cycles in the listings included:
    there is one answer, a sequence or a failure, which the walk gives for
    every amount of fuel above the size of the set. *)
Theorem X8_walk_ends_on_finitely_many_pids (Number_ : string -> option Z)
    (getProcessTree : Z -> result (list PsTreeEntry)) (universe : gset Z) (root : Z) :
  root ∈ universe ->
  (forall p children q,
     getProcessTree p = Ok children -> q ∈ pidsOf Number_ children -> q ∈ universe) ->
  exists answer,
    forall fuel, (size universe < fuel)%nat ->
      getAllDescendants Number_ getProcessTree fuel root = Some answer.
Proof.
  intros Hroot Hclosed.
  destruct (walk_settles Number_ getProcessTree universe Hclosed root Hroot)
    as [answer Ha].
  exists answer. intros fuel Hfuel.
  apply (walk_fuel_mono Number_ getProcessTree (S (size universe))); [lia | exact Ha].
Qed.

Lemma cyclicListing_closed (p : Z) (children : list PsTreeEntry) (q : Z) :
  cyclicListing p = Ok children -> q ∈ pidsOf NumberOfDigits children -> q ∈ demoPids.
Proof.
  unfold cyclicListing, demoPids. intros H Hq.
  destruct (decide (p = 1%Z)); [|destruct (decide (p = 2%Z))];
    injection H as <-; vm_compute in Hq.
  - apply list_elem_of_singleton in Hq as ->. set_solver.
  - apply list_elem_of_singleton in Hq as ->. set_solver.
  - inversion Hq.
Qed.

(** A child that reports its parent as its own child: the walk ends and
    returns both entries. *)
Lemma X8_cycle_between_pid_1_and_2 :
  1%Z ∈ demoPids /\
  (forall p children q,
     cyclicListing p = Ok children -> q ∈ pidsOf NumberOfDigits children -> q ∈ demoPids) /\
  getAllDescendants NumberOfDigits cyclicListing 4 1 = Some (Ok [server; host]) /\
  exists answer,
    forall fuel, (size demoPids < fuel)%nat ->
      getAllDescendants NumberOfDigits cyclicListing fuel 1 = Some answer.
Proof.
  assert (H1 : 1%Z ∈ demoPids) by (unfold demoPids; set_solver).
  split; [exact H1|]. split; [exact cyclicListing_closed|].
  split; [vm_compute; reflexivity|].
  exact (X8_walk_ends_on_finitely_many_pids NumberOfDigits cyclicListing demoPids 1
           H1 cyclicListing_closed).
Defined.

(** ** More on the history *)

(** X9. The first sample of an id that has no record (a new extension, or
    any extension after [clearHistory]) creates a record that holds
    exactly that sample and whose averages are its readings.  A peak takes
    the reading and its timestamp only when the reading is positive;
    otherwise it stays at value 0 with timestamp 0. *)
Theorem X9_first_sample_of_a_record (st : gmap string PerformanceHistory)
    (m : ExtensionMetrics) :
  st !! em_id m = None ->
  exists h,
    updateHistory m st !! em_id m = Some h /\
    extensionId h = em_id m /\
    metrics h = [m] /\
    avg_cpu (averages h) == cpuUsage m /\
    avg_memory (averages h) == memoryUsage m /\
    (0 < cpuUsage m ->
     peak_cpu (peaks h) = {| pk_value := cpuUsage m; pk_timestamp := em_timestamp m |}) /\
    (cpuUsage m <= 0 -> peak_cpu (peaks h) = {| pk_value := 0; pk_timestamp := 0 |}) /\
    (0 < memoryUsage m ->
     peak_memory (peaks h)
     = {| pk_value := memoryUsage m; pk_timestamp := em_timestamp m |}) /\
    (memoryUsage m <= 0 -> peak_memory (peaks h) = {| pk_value := 0; pk_timestamp := 0 |}).
Proof.
  intros Hnew. eexists. split; [apply updateHistory_lookup|].
  rewrite Hnew. cbn [from_option id].
  split; [reflexivity|]. split; [reflexivity|].
  split; [cbn; field|]. split; [cbn; field|].
  rewrite cpu_peak_step, memory_peak_step. cbn [newHistory peaks peak_cpu peak_memory pk_value].
  repeat split; intros H.
  - apply Qltb_lt in H. rewrite H. reflexivity.
  - apply Qltb_ge in H. rewrite H. reflexivity.
  - apply Qltb_lt in H. rewrite H. reflexivity.
  - apply Qltb_ge in H. rewrite H. reflexivity.
Qed.

Lemma X9_idle_sample_after_clear :
  clearHistory agedHistory !! em_id idleSample = None /\
  exists h,
    updateHistory idleSample (clearHistory agedHistory) !! "pub.ext" = Some h /\
    metrics h = [idleSample] /\
    peak_cpu (peaks h) = {| pk_value := 0; pk_timestamp := 0 |} /\
    peak_memory (peaks h) = {| pk_value := 0; pk_timestamp := 0 |}.
Proof.
  assert (H : clearHistory agedHistory !! em_id idleSample = None) by apply lookup_empty.
  split; [exact H|].
  destruct (X9_first_sample_of_a_record (clearHistory agedHistory) idleSample H)
    as (h & Hh & _ & Hm & _ & _ & _ & Hc & _ & Hmem).
  exists h. split; [exact Hh|]. split; [exact Hm|].
  split; [apply Hc | apply Hmem]; discriminate.
Defined.

Lemma filter_filter_weaker {A} (P Q : A -> Prop) `{!forall x, Decision (P x)}
    `{!forall x, Decision (Q x)} (l : list A) :
  (forall x, P x -> Q x) -> filter P (filter Q l) = filter P l.
Proof.
  intros HPQ. induction l as [|x l IH]; [reflexivity|].
  rewrite (filter_cons Q). destruct (decide (Q x)) as [Hq|Hq].
  - rewrite !filter_cons. destruct (decide (P x)); [f_equal|]; exact IH.
  - rewrite filter_cons. destruct (decide (P x)) as [Hp|_]; [|exact IH].
    exfalso. exact (Hq (HPQ x Hp)).
Qed.

(** X10. Clean-ups compose: cleaning up at a later time after cleaning up
    at an earlier one, with the same retention, leaves the same map as the
    later clean-up alone; in particular a clean-up repeated at the same
    time changes nothing more. *)
Theorem X10_cleanups_compose (now now' retentionDays : Q)
    (st : gmap string PerformanceHistory) :
  now <= now' ->
  cleanupOldData now' retentionDays (cleanupOldData now retentionDays st)
  = cleanupOldData now' retentionDays st.
Proof.
  intros Hle. unfold cleanupOldData. rewrite <- map_fmap_compose.
  apply map_fmap_ext. intros k h _. unfold compose, cleanupRecord.
  cbn [extensionId metrics averages peaks]. f_equal.
  apply filter_filter_weaker. intros m. rewrite !Qltb_lt. intros H.
  eapply Qle_lt_trans; [|exact H].
  apply Qplus_le_l. exact Hle.
Qed.

Lemma X10_second_cleanup_a_day_later :
  sevenDaysLater <= sevenDaysLater + 86400000 /\
  cleanupOldData (sevenDaysLater + 86400000) 7 (cleanupOldData sevenDaysLater 7 agedHistory)
  = cleanupOldData (sevenDaysLater + 86400000) 7 agedHistory.
Proof.
  assert (H : sevenDaysLater <= sevenDaysLater + 86400000) by discriminate.
  split; [exact H|]. exact (X10_cleanups_compose _ _ 7 agedHistory H).
Defined.

Lemma insertAll_lookup_same (k : string) (ms : list ExtensionMetrics)
    (st st' : gmap string PerformanceHistory) :
  Forall (fun m => em_id m = k) ms ->
  st !! k = st' !! k ->
  insertAll ms st !! k = insertAll ms st' !! k.
Proof.
  intros Hid Hk. destruct ms as [|m ms]; [exact Hk|].
  rewrite !(insertAll_lookup k) by (assumption || discriminate).
  rewrite Hk. reflexivity.
Qed.

(** The record of [k] after a run of inserts is decided by the inserts
    for [k] alone. *)
Lemma insertAll_lookup_filter (k : string) (ms : list ExtensionMetrics)
    (st : gmap string PerformanceHistory) :
  insertAll ms st !! k = insertAll (filter (fun m => em_id m = k) ms) st !! k.
Proof.
  revert st. induction ms as [|m ms IH]; intros st; [reflexivity|].
  rewrite filter_cons. change (insertAll (m :: ms) st) with (insertAll ms (updateHistory m st)).
  rewrite IH. destruct (decide (em_id m = k)) as [Hk|Hk]; [reflexivity|].
  apply insertAll_lookup_same.
  - apply Forall_forall. intros x Hx. apply list_elem_of_filter in Hx. apply Hx.
  - apply updateHistory_other. exact Hk.
Qed.

(** X11. Records do not interfere: after any run of inserts, the record of
    an id is what the inserts for that id alone would have produced, in
    particular its points are the last 1000 of them when the id had no
    record before. *)
Theorem X11_records_are_independent (k : string) (ms : list ExtensionMetrics)
    (st : gmap string PerformanceHistory) :
  insertAll ms st !! k = insertAll (filter (fun m => em_id m = k) ms) st !! k /\
  (st !! k = None ->
   forall h, insertAll ms st !! k = Some h ->
             metrics h = slice_last 1000 (filter (fun m => em_id m = k) ms)).
Proof.
  split; [apply insertAll_lookup_filter|].
  intros Hnew h. rewrite insertAll_lookup_filter.
  destruct (filter (fun m => em_id m = k) ms) as [|m l] eqn:E.
  - cbn. rewrite Hnew. discriminate.
  - rewrite (insertAll_lookup k); [| |discriminate].
    + rewrite Hnew. intros [= <-]. exact (recordAll_metrics (m :: l) k).
    + rewrite <- E. apply Forall_forall. intros x Hx.
      apply list_elem_of_filter in Hx. apply Hx.
Qed.

Lemma X11_two_interleaved_extensions :
  exists h,
    insertAll mixedSamples ∅ !! "pub.ext" = Some h /\
    metrics h = [sample "pub.ext" 5 40 1000; sample "pub.ext" 9 30 2000].
Proof.
  destruct (X11_records_are_independent "pub.ext" mixedSamples ∅) as [Heq Hlast].
  assert (H : exists h, insertAll mixedSamples ∅ !! "pub.ext" = Some h)
    by (eexists; vm_compute; reflexivity).
  destruct H as [h Hh]. exists h. split; [exact Hh|].
  rewrite (Hlast (lookup_empty _) h Hh). reflexivity.
Defined.

(** ** More on the round *)

Lemma filter_none {A} (P : A -> Prop) `{!forall x, Decision (P x)} (l : list A) :
  Forall (fun x => ~ P x) l -> filter P l = [].
Proof.
  induction 1 as [|x l Hx _ IH]; [reflexivity|].
  rewrite filter_cons_False by exact Hx. exact IH.
Qed.

Lemma filter_unique_key {A B K : Type} `{EqDecision K}
    (key : A -> K) (key' : B -> K) (f : A -> B) (l : list A) (x : A) :
  (forall a, key' (f a) = key a) ->
  NoDup (map key l) -> x ∈ l ->
  filter (fun b => key' b = key x) (map f l) = [f x].
Proof.
  intros Hkey. induction l as [|a l IH]; intros Hnd Hx; [inversion Hx|].
  cbn [map] in *. apply NoDup_cons in Hnd as [Hfresh Hnd].
  rewrite filter_cons, Hkey.
  assert (Hnone : forall y, y ∈ l -> key y <> key a).
  { intros y Hy E. apply Hfresh. rewrite <- E. apply list_elem_of_fmap.
    exists y. split; [reflexivity | exact Hy]. }
  apply elem_of_cons in Hx as [-> | Hx].
  - destruct (decide (key a = key a)) as [_|Hne]; [|contradiction]. f_equal.
    apply filter_none. apply Forall_forall. intros b Hb.
    apply list_elem_of_fmap in Hb as (y & -> & Hy). rewrite Hkey.
    exact (Hnone y Hy).
  - destruct (decide (key a = key x)) as [E|_]; [|exact (IH Hnd Hx)].
    exfalso. exact (Hnone x Hx (eq_sym E)).
Qed.

Lemma filter_absent_key {A B K : Type} `{EqDecision K}
    (key : A -> K) (key' : B -> K) (f : A -> B) (l : list A) (k : K) :
  (forall a, key' (f a) = key a) ->
  k ∉ map key l ->
  filter (fun b => key' b = k) (map f l) = [].
Proof.
  intros Hkey Hk. apply filter_none. apply Forall_forall. intros b Hb.
  apply list_elem_of_fmap in Hb as (y & -> & Hy). rewrite Hkey. intros E.
  apply Hk. rewrite <- E. apply list_elem_of_fmap. exists y. split; [reflexivity | exact Hy].
Qed.

Lemma reported_not_builtin (extensions : list ExtensionLike) (extension : ExtensionLike) :
  extension ∈ reported extensions <->
  extension ∈ extensions /\ startsWith (el_id extension) "vscode." = false.
Proof.
  unfold reported. rewrite !list_elem_of_In, filter_In, negb_true_iff. reflexivity.
Qed.

Section RoundFacts.

Variable Number_ : string -> option Z.
Variable getProcessTree : Z -> result (list PsTreeEntry).
Variable pidusage : list Z -> result (gmap Z PidusageStat).
Variable process_pid : Z.
Variable extensions : list ExtensionLike.
Variable settings : ExtPerfSettings.
Variable now : Q.
Variable estimateCpuUsage : ExtensionLike -> Q.
Variable estimateMemoryUsage : ExtensionLike -> Q.
Variable getActivationTime : ExtensionLike -> Q.

Local Abbreviation metricOf :=
  (buildMetric now estimateCpuUsage estimateMemoryUsage getActivationTime).
Local Abbreviation attribution :=
  (collectSubprocessStats Number_ getProcessTree pidusage process_pid).
Local Abbreviation round :=
  (collectMetrics Number_ getProcessTree pidusage process_pid extensions settings now
     estimateCpuUsage estimateMemoryUsage getActivationTime).
Local Abbreviation start :=
  (startMonitoring Number_ getProcessTree pidusage process_pid extensions settings now
     estimateCpuUsage estimateMemoryUsage getActivationTime).
Local Abbreviation toggle :=
  (toggleMonitoring Number_ getProcessTree pidusage process_pid extensions settings now
     estimateCpuUsage estimateMemoryUsage getActivationTime).

(** A finished round in terms of the mapping it stored. *)
Lemma round_shape (fuel : nat) (st st' : MonitorState)
    (collected : list ExtensionMetrics) :
  round fuel st = Some (collected, st') ->
  collected = map (metricOf (subprocessStats st')) (reported extensions) /\
  currentMetrics st' = collected /\
  performanceHistory st' = insertAll collected (performanceHistory st) /\
  monitoringInterval st' = monitoringInterval st /\
  isMonitoringActive st' = isMonitoringActive st /\
  (attribution fuel extensions None = Some (Ok (subprocessStats st')) \/
   subprocessStats st' = ∅).
Proof.
  unfold collectMetrics. destruct (attribution fuel extensions None) as [outcome|] eqn:Ea;
    [|discriminate].
  rewrite (finishRound_spec extensions settings now estimateCpuUsage estimateMemoryUsage
             getActivationTime outcome st). cbv zeta.
  intros [= <- <-]. cbn.
  repeat split. destruct outcome; [left | right]; reflexivity.
Qed.

(** X12. A round leaves out the built-in extensions (id starting with
    [vscode.]) and reports each other extension once, in order, with the
    time of the round.  When the ids of the reported extensions are
    distinct, the record of each of them gains exactly the metric of this
    round (capped to the last 1000), and every other record stays as it
    was. *)
Theorem X12_round_appends_one_point_per_extension (fuel : nat)
    (st st' : MonitorState) (collected : list ExtensionMetrics) :
  round fuel st = Some (collected, st') ->
  NoDup (map el_id (reported extensions)) ->
  map em_id collected = map el_id (reported extensions) /\
  currentMetrics st' = collected /\
  Forall (fun m => startsWith (em_id m) "vscode." = false /\ em_timestamp m = now)
         collected /\
  (forall extension, extension ∈ reported extensions ->
     exists h',
       performanceHistory st' !! el_id extension = Some h' /\
       metrics h'
       = slice_last 1000
           (metrics (default (newHistory (el_id extension))
                             (performanceHistory st !! el_id extension))
            ++ [metricOf (subprocessStats st') extension])) /\
  (forall k, k ∉ map el_id (reported extensions) ->
     performanceHistory st' !! k = performanceHistory st !! k).
Proof.
  intros Hround Hnd.
  destruct (round_shape _ _ _ _ Hround) as (Hc & Hcur & Hhist & _).
  split; [rewrite Hc, map_map; reflexivity|]. split; [exact Hcur|]. split; [|split].
  - rewrite Hc. apply Forall_fmap, Forall_forall. intros extension He.
    apply reported_not_builtin in He. split; [apply He | reflexivity].
  - intros extension He. rewrite Hhist, insertAll_lookup_filter, Hc.
    rewrite (filter_unique_key el_id em_id (metricOf (subprocessStats st')) _ extension
               (fun _ => eq_refl) Hnd He).
    eexists. split; [apply (updateHistory_lookup (metricOf _ extension))|].
    apply recordMetric_metrics.
  - intros k Hk. rewrite Hhist, insertAll_lookup_filter, Hc.
    rewrite (filter_absent_key el_id em_id (metricOf (subprocessStats st')) _ k
               (fun _ => eq_refl) Hk). reflexivity.
Qed.

(** Every entry of an attribution mapping counts at least one process. *)
Lemma attribution_counts_positive (fuel : nat)
    (options : option CollectSubprocessStatsOptions)
    (stats : gmap string ExtensionSubprocessStats) (k : string)
    (s : ExtensionSubprocessStats) :
  attribution fuel extensions options = Some (Ok stats) ->
  stats !! k = Some s -> (0 < processCount s)%nat.
Proof.
  intros H.
  destruct (attribution_cases _ _ _ _ _ _ _ _ H)
    as (children & _ & [-> | (usageStats & _ & ->)]).
  { rewrite lookup_empty. discriminate. }
  revert k s. apply fold_left_invariant.
  { intros k s Hk. rewrite lookup_empty in Hk. discriminate Hk. }
  intros stats0 child _ IH k s Hk.
  destruct (attributeChild_cases Number_ extensions options usageStats stats0 child)
    as [E | (pid & usage & matched & _ & _ & _ & E)]; rewrite E in Hk.
  { exact (IH k s Hk). }
  destruct (decide (ie_id matched = k)) as [<-|Hne];
    [|rewrite lookup_insert_ne in Hk by exact Hne; exact (IH k s Hk)].
  rewrite lookup_insert_eq in Hk. injection Hk as <-. cbn. lia.
Qed.

(** X13. The readings of a metric come from one source: an extension that
    has an entry in the attribution mapping of the round is reported with
    the totals and the count of that entry, an extension without an entry
    with its two estimates and a count of zero. *)
Theorem X13_usage_comes_from_one_source (fuel : nat) (st st' : MonitorState)
    (collected : list ExtensionMetrics) (extension : ExtensionLike) :
  round fuel st = Some (collected, st') ->
  extension ∈ reported extensions ->
  let m := metricOf (subprocessStats st') extension in
  m ∈ collected /\
  (forall s, subprocessStats st' !! el_id extension = Some s ->
     cpuUsage m = totalCpu s /\ memoryUsage m = totalMemory s /\
     subprocessCount m = Some (processCount s)) /\
  (subprocessStats st' !! el_id extension = None ->
     cpuUsage m = estimateCpuUsage extension /\
     memoryUsage m = estimateMemoryUsage extension /\
     subprocessCount m = Some 0%nat).
Proof.
  intros Hround He. cbv zeta.
  destruct (round_shape _ _ _ _ Hround) as (Hc & _ & _ & _ & _ & Hstats).
  split; [rewrite Hc; apply list_elem_of_fmap; exists extension; auto|].
  unfold buildMetric. cbn [cpuUsage memoryUsage subprocessCount]. split.
  - intros s Hs. rewrite Hs. cbn [fmap option_fmap option_map from_option id].
    assert (Hpos : (0 < processCount s)%nat).
    { destruct Hstats as [Ha | Hempty].
      - exact (attribution_counts_positive _ _ _ _ _ Ha Hs).
      - rewrite Hempty, lookup_empty in Hs. discriminate Hs. }
    apply Nat.ltb_lt in Hpos. rewrite Hpos. repeat split.
  - intros Hnone. rewrite Hnone. repeat split.
Qed.

(** X14. Starting a monitor that [start] has just started changes
    nothing: no second round is run and the timer armed by the first call
    stays the only one. *)
Theorem X14_start_twice_is_start_once (fuel fuel' : nat) (st st' : MonitorState) :
  isMonitoringActive st = false ->
  start fuel st = Some st' ->
  start fuel' st' = Some st' /\
  monitoringInterval st' = Some (configuredInterval settings).
Proof.
  intros Hoff Hstart.
  destruct (start_arms_timer Number_ getProcessTree pidusage process_pid extensions
              settings now estimateCpuUsage estimateMemoryUsage getActivationTime
              fuel st Hoff) as (st1 & H1 & Harmed & Hon).
  { unfold startMonitoring, collectMetrics, collectSubprocessStats in Hstart.
    rewrite Hoff in Hstart. cbn [option_bind mbind from_option id] in Hstart.
    destruct (getAllDescendants Number_ getProcessTree fuel process_pid);
      [eexists; reflexivity | discriminate Hstart]. }
  rewrite Hstart in H1. injection H1 as <-.
  split; [|exact Harmed].
  unfold startMonitoring. rewrite Hon. reflexivity.
Qed.

(** X15. Toggling a stopped monitor twice starts and stops it: the second
    toggle clears the timer and the monitoring flag, logs the stop, and
    keeps the history and the metrics of the round that the first toggle
    ran. *)
Theorem X15_toggle_twice_from_stopped (fuel fuel' : nat) (st st1 : MonitorState) :
  isMonitoringActive st = false ->
  toggle fuel st = Some st1 ->
  isMonitoringActive st1 = true /\
  monitoringInterval st1 = Some (configuredInterval settings) /\
  exists st2,
    toggle fuel' st1 = Some st2 /\
    isMonitoringActive st2 = false /\
    monitoringInterval st2 = None /\
    performanceHistory st2 = performanceHistory st1 /\
    currentMetrics st2 = currentMetrics st1 /\
    outputChannel st2 = outputChannel st1 ++ [LogStopped].
Proof.
  intros Hoff Htoggle. unfold toggleMonitoring in Htoggle. rewrite Hoff in Htoggle.
  destruct (start_arms_timer Number_ getProcessTree pidusage process_pid extensions
              settings now estimateCpuUsage estimateMemoryUsage getActivationTime
              fuel st Hoff) as (st1' & H1 & Harmed & Hon).
  { unfold startMonitoring, collectMetrics, collectSubprocessStats in Htoggle.
    rewrite Hoff in Htoggle. cbn [option_bind mbind from_option id] in Htoggle.
    destruct (getAllDescendants Number_ getProcessTree fuel process_pid);
      [eexists; reflexivity | discriminate Htoggle]. }
  rewrite Htoggle in H1. injection H1 as <-.
  split; [exact Hon|]. split; [exact Harmed|].
  exists (stopMonitoring st1). unfold toggleMonitoring. rewrite Hon.
  repeat split.
Qed.

End RoundFacts.

(** *** A round over a built-in and two user extensions *)

Lemma fullRound_runs :
  exists collected st', fullRound 5 initialState = Some (collected, st').
Proof. eexists _, _. vm_compute. reflexivity. Qed.

Lemma threeExtensions_distinct : NoDup (map el_id (reported threeExtensions)).
Proof. compute_done. Qed.

Lemma X12_round_of_three_extensions :
  exists collected st',
    fullRound 5 initialState = Some (collected, st') /\
    NoDup (map el_id (reported threeExtensions)) /\
    map em_id collected = ["Pub.A"; "Pub.B"] /\
    performanceHistory st' !! "vscode.git" = None /\
    exists h', performanceHistory st' !! "Pub.A" = Some h' /\ length (metrics h') = 1%nat.
Proof.
  destruct fullRound_runs as (collected & st' & H).
  exists collected, st'. split; [exact H|]. split; [exact threeExtensions_distinct|].
  destruct (X12_round_appends_one_point_per_extension NumberOfDigits flatListing
              steadyUsage 1 threeExtensions noSettings 1000 (fun _ => 1) (fun _ => 7)
              (fun _ => 100) 5 initialState st' collected H threeExtensions_distinct)
    as (Hids & _ & _ & Hrec & Hother).
  split; [exact Hids|]. split.
  - rewrite Hother; [apply lookup_empty | compute_done].
  - destruct (Hrec extensionA) as (h' & Hh & Hm);
      [apply reported_not_builtin; split; [right; left | reflexivity]|].
    exists h'. split; [exact Hh|]. rewrite Hm. reflexivity.
Defined.

Lemma X13_attributed_and_estimated :
  exists collected st',
    fullRound 5 initialState = Some (collected, st') /\
    extensionA ∈ reported threeExtensions /\
    extensionB ∈ reported threeExtensions /\
    (forall s, subprocessStats st' !! "Pub.A" = Some s ->
       cpuUsage (buildMetric 1000 (fun _ => 1) (fun _ => 7) (fun _ => 100)
                   (subprocessStats st') extensionA) = totalCpu s) /\
    (subprocessStats st' !! "Pub.B" = None ->
       cpuUsage (buildMetric 1000 (fun _ => 1) (fun _ => 7) (fun _ => 100)
                   (subprocessStats st') extensionB) = 1).
Proof.
  destruct fullRound_runs as (collected & st' & H).
  exists collected, st'. split; [exact H|].
  assert (Ha : extensionA ∈ reported threeExtensions)
    by (apply reported_not_builtin; split; [right; left | reflexivity]).
  assert (Hb : extensionB ∈ reported threeExtensions)
    by (apply reported_not_builtin; split; [right; right; left | reflexivity]).
  split; [exact Ha|]. split; [exact Hb|]. split.
  - intros s Hs.
    destruct (X13_usage_comes_from_one_source NumberOfDigits flatListing steadyUsage 1
                threeExtensions noSettings 1000 (fun _ => 1) (fun _ => 7) (fun _ => 100)
                5 initialState st' collected extensionA H Ha) as (_ & Hsome & _).
    apply (Hsome s Hs).
  - intros Hnone.
    destruct (X13_usage_comes_from_one_source NumberOfDigits flatListing steadyUsage 1
                threeExtensions noSettings 1000 (fun _ => 1) (fun _ => 7) (fun _ => 100)
                5 initialState st' collected extensionB H Hb) as (_ & _ & Hest).
    apply (Hest Hnone).
Defined.

Lemma demoStart_runs :
  exists st', demoStart subtreeListing steadyUsage noSettings 5 initialState = Some st'.
Proof. eexists. vm_compute. reflexivity. Qed.

Lemma X14_second_start_without_fuel :
  exists st',
    isMonitoringActive initialState = false /\
    demoStart subtreeListing steadyUsage noSettings 5 initialState = Some st' /\
    demoStart subtreeListing steadyUsage noSettings 0 st' = Some st' /\
    monitoringInterval st' = Some 5000.
Proof.
  destruct demoStart_runs as (st' & H). exists st'.
  split; [reflexivity|]. split; [exact H|].
  exact (X14_start_twice_is_start_once NumberOfDigits subtreeListing steadyUsage 1
           [extensionA] noSettings 1000 (fun _ => 1) (fun _ => 7) (fun _ => 100)
           5 0 initialState st' eq_refl H).
Defined.

Lemma fullToggle_runs : exists st1, fullToggle 5 initialState = Some st1.
Proof. eexists. vm_compute. reflexivity. Qed.

Lemma X15_on_and_off :
  exists st1,
    isMonitoringActive initialState = false /\
    fullToggle 5 initialState = Some st1 /\
    isMonitoringActive st1 = true /\
    exists st2,
      fullToggle 0 st1 = Some st2 /\
      isMonitoringActive st2 = false /\
      monitoringInterval st2 = None /\
      performanceHistory st2 = performanceHistory st1.
Proof.
  destruct fullToggle_runs as (st1 & H). exists st1.
  split; [reflexivity|]. split; [exact H|].
  destruct (X15_toggle_twice_from_stopped NumberOfDigits flatListing steadyUsage 1
              threeExtensions noSettings 1000 (fun _ => 1) (fun _ => 7) (fun _ => 100)
              5 0 initialState st1 eq_refl H)
    as (Hon & _ & st2 & H2 & Hoff & Htimer & Hhist & _).
  split; [exact Hon|]. exists st2. auto.
Defined.

(** ** Sorting and the summary *)

Lemma insertSorted_perm {A} (compareFn : A -> A -> Q) (x : A) (l : list A) :
  insertSorted compareFn x l ≡ₚ x :: l.
Proof.
  induction l as [|y l IH]; cbn; [reflexivity|].
  destruct (Qltb (compareFn x y) 0); [reflexivity|].
  rewrite IH. apply Permutation_swap.
Qed.

Lemma arraySort_perm {A} (compareFn : A -> A -> Q) (l : list A) :
  arraySort compareFn l ≡ₚ l.
Proof.
  unfold arraySort.
  assert (G : forall acc, fold_left (fun sorted x => insertSorted compareFn x sorted) l acc
                          ≡ₚ acc ++ l).
  { induction l as [|x l IH]; intros acc; cbn; [rewrite app_nil_r; reflexivity|].
    rewrite IH, insertSorted_perm. apply Permutation_middle. }
  apply (G []).
Qed.

Section SortedByKey.

Context {A : Type}.

(** The order [before] that the comparator decides. *)
Variable compareFn : A -> A -> Q.
Variable before : A -> A -> Prop.
Hypothesis before_trans : forall x y z, before x y -> before y z -> before x z.
Hypothesis compare_negative : forall x y, compareFn x y < 0 -> before x y.
Hypothesis compare_other : forall x y, 0 <= compareFn x y -> before y x.

Lemma insertSorted_sorted (x : A) (l : list A) :
  StronglySorted before l -> StronglySorted before (insertSorted compareFn x l).
Proof.
  induction 1 as [|y l Hl IH Hy]; cbn; [repeat constructor|].
  destruct (Qltb (compareFn x y) 0) eqn:E.
  - apply Qltb_lt, compare_negative in E.
    constructor; [constructor; assumption|].
    constructor; [exact E|].
    eapply Forall_impl; [exact Hy|]. intros z Hz. exact (before_trans _ _ _ E Hz).
  - apply Qltb_ge, compare_other in E. constructor; [exact IH|].
    rewrite insertSorted_perm. constructor; assumption.
Qed.

Lemma arraySort_sorted (l : list A) : StronglySorted before (arraySort compareFn l).
Proof.
  unfold arraySort.
  assert (G : forall acc, StronglySorted before acc ->
                StronglySorted before
                  (fold_left (fun sorted x => insertSorted compareFn x sorted) l acc)).
  { induction l as [|x l IH]; intros acc Hacc; cbn; [exact Hacc|].
    apply IH, insertSorted_sorted, Hacc. }
  apply G. constructor.
Qed.

End SortedByKey.

Lemma sorted_descending {A} (key : A -> Q) (l : list A) :
  StronglySorted (fun a b => key b <= key a) (arraySort (fun a b => key b - key a) l).
Proof.
  apply arraySort_sorted.
  - intros x y z Hxy Hyz. exact (Qle_trans _ _ _ Hyz Hxy).
  - intros x y H. apply Qlt_le_weak. apply (Qplus_lt_l _ _ (- key x)).
    rewrite Qplus_opp_r. exact H.
  - intros x y H. apply (Qplus_le_l _ _ (- key x)). rewrite Qplus_opp_r. exact H.
Qed.

Lemma take_of_sorted_is_top {A} (key : A -> Q) (n : nat) (l : list A) :
  isTopBy key n l (take n (arraySort (fun a b => key b - key a) l)).
Proof.
  pose proof (sorted_descending key l) as Hs.
  pose proof (arraySort_perm (fun a b => key b - key a) l) as Hp.
  set (sorted := arraySort _ l) in *.
  rewrite <- (take_drop n sorted) in Hs.
  split; [rewrite length_take, (Permutation_length Hp); lia|].
  split; [exact (StronglySorted_app_1_l _ _ _ Hs)|].
  exists (drop n sorted). split; [rewrite take_drop; symmetry; exact Hp|].
  intros t o Ht Ho. exact (StronglySorted_app_1_elem_of _ _ _ _ _ Hs Ht Ho).
Qed.

(** X16. The summary counts all current metrics and the active ones among
    them, totals their cpu and memory, and its two top lists hold the five
    metrics (all of them when there are fewer) with the highest cpu,
    respectively memory, in descending order. *)
Theorem X16_summary_totals_and_top_five (currentMetrics : list ExtensionMetrics)
    (now : Q) :
  let summary := getPerformanceSummary currentMetrics now in
  totalExtensions summary = length currentMetrics /\
  (activeExtensions summary <= totalExtensions summary)%nat /\
  activeExtensions summary
  = length (filter (fun m => em_isActive m = true) currentMetrics) /\
  totalCpuUsage summary == sumList (map cpuUsage currentMetrics) /\
  totalMemoryUsage summary == sumList (map memoryUsage currentMetrics) /\
  isTopBy cpuUsage 5 currentMetrics (topCpuConsumers summary) /\
  isTopBy memoryUsage 5 currentMetrics (topMemoryConsumers summary).
Proof.
  cbv zeta. unfold getPerformanceSummary.
  cbn [totalExtensions activeExtensions totalCpuUsage totalMemoryUsage topCpuConsumers
       topMemoryConsumers].
  assert (Hact : length (List.filter em_isActive currentMetrics)
                 = length (filter (fun m => em_isActive m = true) currentMetrics)).
  { induction currentMetrics as [|m l IH]; [reflexivity|].
    cbn [List.filter]. rewrite filter_cons.
    destruct (em_isActive m); cbn [length]; destruct (decide _); try congruence;
      cbn [length]; congruence. }
  split; [reflexivity|]. split; [|split; [exact Hact|]].
  - rewrite Hact. apply length_filter.
  - split; [unfold reduce; rewrite reduce_sum; ring|].
    split; [unfold reduce; rewrite reduce_sum; ring|].
    split; apply take_of_sorted_is_top.
Qed.

Example arraySort_is_stable :
  map em_timestamp (arraySort (fun a b => cpuUsage b - cpuUsage a) tiedSamples)
  = [2000; 3000; 1000].
Proof. reflexivity. Qed.

(** ** The estimates *)

Lemma Math_round_bounds (x : Q) (lo hi : Z) :
  inject_Z lo <= x -> x < inject_Z hi ->
  exists n : Z, Math_round x = inject_Z n /\ (lo <= n <= hi)%Z.
Proof.
  intros Hlo Hhi. unfold Math_round. eexists. split; [reflexivity|]. split.
  - rewrite <- (Qfloor_Z lo). apply Qfloor_resp_le.
    eapply Qle_trans; [exact Hlo|]. rewrite <- (Qplus_0_r x) at 1.
    apply Qplus_le_r. discriminate.
  - assert (H : x + (1 # 2) < inject_Z (hi + 1)).
    { rewrite inject_Z_plus. apply Qplus_lt_le_compat; [exact Hhi | discriminate]. }
    pose proof (Qfloor_le (x + (1 # 2))) as Hf.
    pose proof (Qle_lt_trans _ _ _ Hf H) as Hlt.
    rewrite <- Zlt_Qlt in Hlt. lia.
Qed.

(** The cpu estimate is a sum of bonuses of at most 3.1 and twice the
    draw; the cap plays no part. *)
Lemma estimateCpuUsage_sum (random : Q) (isActive : bool)
    (packageJSON : option Manifest) :
  0 <= random -> random < 1 ->
  exists bonuses,
    0 <= bonuses /\ bonuses <= (31 # 10) /\
    (isActive = false -> packageJSON = None -> bonuses == 0) /\
    estimateCpuUsage random isActive packageJSON == bonuses + random * 2.
Proof.
  intros H0 H1. unfold estimateCpuUsage.
  set (base := match packageJSON with Some _ => _ | None => _ end).
  assert (Hbase : 0 <= base /\ base <= (31 # 10) /\
                  (isActive = false -> packageJSON = None -> base == 0)).
  { subst base. destruct isActive, packageJSON as [[[] [] [[|n]|] [] [] ? ? ? ?]|];
      cbn [mf_languages mf_activatesOnStar mf_commands mf_grammars mf_themes orb];
      try destruct (10 <? S n)%nat;
      (split; [|split]); try discriminate; try (intros; reflexivity);
      intros E; discriminate E. }
  exists base. destruct Hbase as (Hb0 & Hb1 & Hb2).
  split; [exact Hb0|]. split; [exact Hb1|]. split; [exact Hb2|].
  apply Q.min_l. lra.
Qed.

(** X17. For a draw in [0, 1) the cpu estimate lies in [0, 5.1) and is at
    least twice the draw, so the cap at 100 never applies; for an inactive
    extension without manifest it is exactly twice the draw. *)
Theorem X17_cpu_estimate_is_below_5_1 (random : Q) (isActive : bool)
    (packageJSON : option Manifest) :
  0 <= random -> random < 1 ->
  let estimate := estimateCpuUsage random isActive packageJSON in
  0 <= estimate /\ estimate < (51 # 10) /\
  random * 2 <= estimate /\
  estimate < 100 /\
  (isActive = false -> packageJSON = None -> estimate == random * 2).
Proof.
  intros H0 H1. cbv zeta.
  destruct (estimateCpuUsage_sum random isActive packageJSON H0 H1)
    as (bonuses & Hb0 & Hb1 & Hb2 & ->).
  repeat split; try lra.
  intros Ha Hp. rewrite (Hb2 Ha Hp). ring.
Qed.

Lemma X17_heavy_extension_draw_0_9 :
  0 <= (9 # 10) /\ (9 # 10) < 1 /\
  estimateCpuUsage (9 # 10) true (Some heavyManifest) < (51 # 10) /\
  estimateCpuUsage (9 # 10) true (Some heavyManifest) == (49 # 10).
Proof.
  assert (H0 : 0 <= (9 # 10)) by discriminate.
  assert (H1 : (9 # 10) < 1) by reflexivity.
  split; [exact H0|]. split; [exact H1|].
  split; [|reflexivity].
  apply (X17_cpu_estimate_is_below_5_1 (9 # 10) true (Some heavyManifest) H0 H1).
Defined.

(** The memory estimate before rounding: at least 2, below 67, and below 7
    for an inactive extension. *)
Lemma memory_before_rounding (random : Q) (isActive : bool)
    (packageJSON : option Manifest) :
  0 <= random -> random < 1 ->
  exists raw,
    estimateMemoryUsage random isActive packageJSON = Math_round raw /\
    2 <= raw /\ raw < 67 /\ (isActive = false -> raw < 7).
Proof.
  intros H0 H1. unfold estimateMemoryUsage. eexists. split; [reflexivity|].
  set (base := if isActive then _ else _).
  assert (Hbase : 2 <= base /\ base <= 62 /\ (isActive = false -> base == 2)).
  { subst base. destruct isActive; [|repeat split; discriminate].
    destruct packageJSON as [[[] ? ? ? [] [] [] [] []]|];
      cbn [mf_languages mf_themes mf_iconThemes mf_debuggers mf_views mf_mainHasWebview orb];
      (split; [|split]); try discriminate; intros E; discriminate E. }
  destruct Hbase as (Hb0 & Hb1 & Hb2).
  split; [lra|]. split; [lra|]. intros Ha. rewrite (Hb2 Ha). lra.
Qed.

(** X18. For a draw in [0, 1) the memory estimate is a whole number of MB
    between 2 and 67, and between 2 and 7 for an inactive extension,
    whatever its manifest. *)
Theorem X18_memory_estimate_is_a_whole_number (random : Q) (isActive : bool)
    (packageJSON : option Manifest) :
  0 <= random -> random < 1 ->
  exists n : Z,
    estimateMemoryUsage random isActive packageJSON = inject_Z n /\
    (2 <= n <= 67)%Z /\
    (isActive = false -> (n <= 7)%Z).
Proof.
  intros H0 H1.
  destruct (memory_before_rounding random isActive packageJSON H0 H1)
    as (raw & -> & Hlo & Hhi & Hinactive).
  destruct (Math_round_bounds raw 2 67 Hlo Hhi) as (n & Hn & Hrange).
  exists n. split; [exact Hn|]. split; [exact Hrange|].
  intros Ha. destruct (Math_round_bounds raw 2 7 Hlo (Hinactive Ha)) as (n' & Hn' & Hr').
  rewrite Hn in Hn'. injection Hn' as Hn'. lia.
Qed.

Lemma X18_inactive_extension_draw_0_7 :
  0 <= (7 # 10) /\ (7 # 10) < 1 /\
  estimateMemoryUsage (7 # 10) false (Some heavyManifest) = 6 /\
  exists n : Z,
    estimateMemoryUsage (7 # 10) false (Some heavyManifest) = inject_Z n /\
    (2 <= n <= 67)%Z /\ (false = false -> (n <= 7)%Z).
Proof.
  assert (H0 : 0 <= (7 # 10)) by discriminate.
  assert (H1 : (7 # 10) < 1) by reflexivity.
  split; [exact H0|]. split; [exact H1|]. split; [reflexivity|].
  exact (X18_memory_estimate_is_a_whole_number (7 # 10) false (Some heavyManifest) H0 H1).
Defined.

(** X19. A metric whose two readings are the estimates raises no alert
    when the thresholds are the defaults, 80% and 100 MB: alerts at the
    default thresholds come from measured subprocesses only. *)
Theorem X19_estimates_stay_below_default_thresholds (random random' : Q)
    (isActive : bool) (packageJSON : option Manifest) (metric : ExtensionMetrics) :
  0 <= random -> random < 1 -> 0 <= random' -> random' < 1 ->
  cpuUsage metric = estimateCpuUsage random isActive packageJSON ->
  memoryUsage metric = estimateMemoryUsage random' isActive packageJSON ->
  checkAlerts DEFAULTS.CPU_ALERT_THRESHOLD DEFAULTS.MEMORY_ALERT_THRESHOLD metric = [].
Proof.
  intros H0 H1 H0' H1' Hcpu Hmem.
  destruct (estimateCpuUsage_sum random isActive packageJSON H0 H1)
    as (bonuses & Hb0 & Hb1 & _ & Hsum).
  destruct (memory_before_rounding random' isActive packageJSON H0' H1')
    as (raw & Hraw & Hlo & Hhi & _).
  destruct (Math_round_bounds raw 2 67 Hlo Hhi) as (n & Hn & Hrange).
  unfold checkAlerts, DEFAULTS.CPU_ALERT_THRESHOLD, DEFAULTS.MEMORY_ALERT_THRESHOLD.
  assert (Ec : Qltb 80 (cpuUsage metric) = false).
  { apply Qltb_ge. rewrite Hcpu, Hsum. lra. }
  assert (Em : Qltb 100 (memoryUsage metric) = false).
  { apply Qltb_ge. rewrite Hmem, Hraw, Hn. change 100 with (inject_Z 100).
    rewrite <- Zle_Qle. lia. }
  rewrite Ec, Em. reflexivity.
Qed.

Lemma X19_heavy_extension_raises_nothing :
  checkAlerts DEFAULTS.CPU_ALERT_THRESHOLD DEFAULTS.MEMORY_ALERT_THRESHOLD
    (sample "pub.ext" (estimateCpuUsage (9 # 10) true (Some heavyManifest))
                      (estimateMemoryUsage (9 # 10) true (Some heavyManifest)) 1000)
  = [].
Proof.
  apply (X19_estimates_stay_below_default_thresholds (9 # 10) (9 # 10) true
           (Some heavyManifest)); reflexivity || discriminate.
Defined.

(** ** Enabling and disabling an extension *)


Section EnablementFacts.

Variable executeCommand : list Call -> string -> string -> result unit.
Variable showWarningMessage : string -> option string.

Lemma attempt_first (calls : list Call) (command : string) (rest : list string)
    (extensionId : string) :
  attempt executeCommand calls (command :: rest) extensionId 0
  = Some (executeCommand calls command extensionId).
Proof.
  unfold attempt, callsOf. cbn [lookup list_lookup take map]. rewrite app_nil_r.
  reflexivity.
Qed.

Lemma attempt_later (calls : list Call) (command : string) (rest : list string)
    (extensionId : string) (i : nat) :
  attempt executeCommand calls (command :: rest) extensionId (S i)
  = attempt executeCommand (calls ++ [(command, extensionId)]) rest extensionId i.
Proof.
  unfold attempt, callsOf. cbn [lookup list_lookup take map].
  rewrite <- app_assoc. reflexivity.
Qed.

(** The loop, from any point of the list on. *)
Lemma fallbackLoop_spec (commands : list string) (extensionId : string) :
  forall (lastError : option string) (calls : list Call),
  exists k : nat,
    (k <= length commands)%nat /\
    (fallbackLoop executeCommand commands extensionId lastError calls).1
    = calls ++ callsOf extensionId (take k commands) /\
    (forall i, (S i < k)%nat -> fails executeCommand calls commands extensionId i) /\
    match (fallbackLoop executeCommand commands extensionId lastError calls).2 with
    | Resolved =>
        (0 < k)%nat /\
        attempt executeCommand calls commands extensionId (k - 1) = Some (Ok tt)
    | Rejected reason =>
        k = length commands /\
        (forall i, (i < k)%nat -> fails executeCommand calls commands extensionId i) /\
        (commands = [] -> reason = lastError) /\
        (forall error,
           attempt executeCommand calls commands extensionId (k - 1) = Some (Throw error) ->
           reason = Some error)
    end.
Proof.
  induction commands as [|command rest IH]; intros lastError calls.
  - exists 0%nat. cbn. rewrite app_nil_r. repeat split; try lia; try discriminate.
  - cbn [fallbackLoop].
    destruct (executeCommand calls command extensionId) as [[]|error] eqn:E.
    + exists 1%nat. cbn [fst snd length take callsOf map].
      split; [lia|]. split; [reflexivity|]. split; [intros i Hi; lia|].
      split; [lia|]. cbn [Nat.sub]. rewrite attempt_first, E. reflexivity.
    + destruct (IH (Some error) (calls ++ [(command, extensionId)]))
        as (k & Hk & Hcalls & Hfails & Hout).
      assert (Hfirst : fails executeCommand calls (command :: rest) extensionId 0).
      { exists error. rewrite attempt_first, E. reflexivity. }
      exists (S k). split; [cbn [length]; lia|].
      split; [rewrite Hcalls; cbn [take callsOf map]; rewrite <- app_assoc; reflexivity|].
      split.
      { intros [|i] Hi; [exact Hfirst|].
        unfold fails. rewrite attempt_later. apply Hfails. lia. }
      destruct (fallbackLoop executeCommand rest extensionId (Some error)
                  (calls ++ [(command, extensionId)])).2 as [|reason].
      * destruct Hout as (Hpos & Hlast). split; [lia|].
        replace (S k - 1)%nat with (S (k - 1)) by lia.
        rewrite attempt_later. exact Hlast.
      * destruct Hout as (-> & Hall & Hempty & Hlast).
        split; [reflexivity|]. split.
        { intros [|i] Hi; [exact Hfirst|].
          unfold fails. rewrite attempt_later. apply Hall. lia. }
        split; [discriminate|].
        intros error' Herr. cbn [Nat.sub] in Herr.
        replace (length rest - 0)%nat with (length rest) in Herr by lia.
        destruct rest as [|second rest'].
        -- rewrite attempt_first, E in Herr. injection Herr as <-.
           apply Hempty. reflexivity.
        -- apply Hlast. cbn [length Nat.sub] in *.
           replace (length rest' - 0)%nat with (length rest') by lia.
           rewrite attempt_later in Herr. exact Herr.
Qed.

(** X20. [executeWithFallback] tries the commands in order and stops at
    the first one that resolves: it executes a prefix of the list, every
    command before the last executed one was rejected, and it resolves
    exactly when the last executed one resolved.  It rejects only after
    every command was rejected, with the error of the last command, and
    with [undefined] exactly when the list is empty. *)
Theorem X20_fallback_stops_at_first_success (commands : list string)
    (extensionId : string) (calls : list Call) :
  let outcome := executeWithFallback executeCommand commands extensionId calls in
  exists k : nat,
    (k <= length commands)%nat /\
    outcome.1 = calls ++ callsOf extensionId (take k commands) /\
    match outcome.2 with
    | Resolved =>
        (0 < k)%nat /\
        (forall i, (i < k - 1)%nat -> fails executeCommand calls commands extensionId i) /\
        attempt executeCommand calls commands extensionId (k - 1) = Some (Ok tt)
    | Rejected reason =>
        k = length commands /\
        (forall i, (i < k)%nat -> fails executeCommand calls commands extensionId i) /\
        (reason = None <-> commands = []) /\
        (forall error,
           reason = Some error <->
           attempt executeCommand calls commands extensionId (k - 1) = Some (Throw error))
    end.
Proof.
  cbv zeta. unfold executeWithFallback.
  destruct (fallbackLoop_spec commands extensionId None calls)
    as (k & Hk & Hcalls & Hfails & Hout).
  exists k. split; [exact Hk|]. split; [exact Hcalls|].
  destruct (fallbackLoop executeCommand commands extensionId None calls).2 as [|reason].
  - destruct Hout as (Hpos & Hlast). split; [exact Hpos|]. split; [|exact Hlast].
    intros i Hi. apply Hfails. lia.
  - destruct Hout as (-> & Hall & Hempty & Hlast).
    split; [reflexivity|]. split; [exact Hall|].
    destruct commands as [|command rest].
    + rewrite (Hempty eq_refl). split; [tauto|].
      intros error. unfold attempt. cbn. split; discriminate.
    + destruct (Hall (length rest)) as (error & Herr); [cbn [length]; lia|].
      cbn [length Nat.sub] in Hlast |- *.
      replace (length rest - 0)%nat with (length rest) in * by lia.
      rewrite (Hlast error Herr). split; [split; discriminate|].
      intros error'. rewrite Herr. split; congruence.
Qed.

(** X21. [disableExtension] executes nothing and shows nothing unless the
    answer to its prompt is exactly [Disable].  After that answer it
    executes the first disable command alone exactly when that command
    resolved, and both commands exactly when the first was rejected; it
    shows exactly one message, an error only after both commands were
    rejected, with the error of the global one. *)
Theorem X21_disable_asks_before_it_acts (extensionId : string)
    (displayName : option string) (w : Workbench) :
  let name := orElse displayName extensionId in
  let answer :=
    showWarningMessage
      ("Disable " +:+ name +:+ "? You may need to reload VS Code to fully unload it.") in
  let w' := disableExtension executeCommand showWarningMessage extensionId displayName w in
  (answer <> Some "Disable" -> w' = w) /\
  (answer = Some "Disable" ->
   exists calls message,
     executed w' = executed w ++ callsOf extensionId calls /\
     shown w' = shown w ++ [message] /\
     (calls = take 1 DISABLE_COMMANDS \/ calls = DISABLE_COMMANDS) /\
     (calls = take 1 DISABLE_COMMANDS <->
      attempt executeCommand (executed w) DISABLE_COMMANDS extensionId 0
      = Some (Ok tt)) /\
     (calls = DISABLE_COMMANDS <->
      fails executeCommand (executed w) DISABLE_COMMANDS extensionId 0) /\
     (message = InformationMessage ("Disabled " +:+ name +:+ ".") /\
      attempt executeCommand (executed w) DISABLE_COMMANDS extensionId (length calls - 1)
      = Some (Ok tt)
      \/
      exists error,
        message = ErrorMessage ("Failed to disable " +:+ name +:+ ": " +:+ error) /\
        calls = DISABLE_COMMANDS /\
        attempt executeCommand (executed w) DISABLE_COMMANDS extensionId 1
        = Some (Throw error))).
Proof.
  cbv zeta. unfold disableExtension.
  destruct (decide (showWarningMessage _ = Some "Disable")) as [Hyes|Hno].
  2: { split; [reflexivity|]. intros H. contradiction. }
  split; [intros H; contradiction|]. intros _.
  unfold executeWithFallback, fails. cbn [fallbackLoop DISABLE_COMMANDS].
  assert (Hfirst : attempt executeCommand (executed w) DISABLE_COMMANDS extensionId 0
                   = Some (executeCommand (executed w)
                             "workbench.extensions.disableExtension" extensionId))
    by apply attempt_first.
  assert (Hsecond : attempt executeCommand (executed w) DISABLE_COMMANDS extensionId 1
                    = Some (executeCommand
                              (executed w
                               ++ [("workbench.extensions.disableExtension", extensionId)])
                              "workbench.extensions.disableExtensionGlobally" extensionId)).
  { unfold DISABLE_COMMANDS. rewrite attempt_later. apply attempt_first. }
  destruct (executeCommand (executed w) _ extensionId) as [[]|e1] eqn:E1.
  - exists (take 1 DISABLE_COMMANDS). eexists. cbn [executed shown].
    split; [reflexivity|]. split; [reflexivity|].
    split; [left; reflexivity|].
    split; [split; [intros _; exact Hfirst|reflexivity]|].
    split.
    { split; [discriminate|]. intros (error & Herror).
      rewrite Hfirst in Herror. discriminate Herror. }
    left. split; [reflexivity|]. exact Hfirst.
  - destruct (executeCommand (executed w ++ _) _ extensionId) as [[]|e2] eqn:E2.
    + exists DISABLE_COMMANDS. eexists. cbn [executed shown].
      split; [rewrite <- app_assoc; reflexivity|]. split; [reflexivity|].
      split; [right; reflexivity|].
      split; [split; [discriminate|rewrite Hfirst; discriminate]|].
      split; [split; [intros _; exists e1; exact Hfirst|reflexivity]|].
      left. split; [reflexivity|]. exact Hsecond.
    + exists DISABLE_COMMANDS. eexists. cbn [executed shown].
      split; [rewrite <- app_assoc; reflexivity|]. split; [reflexivity|].
      split; [right; reflexivity|].
      split; [split; [discriminate|rewrite Hfirst; discriminate]|].
      split; [split; [intros _; exists e1; exact Hfirst|reflexivity]|].
      right. exists e2. split; [reflexivity|]. split; [reflexivity|exact Hsecond].
Qed.

(** X22. [enableExtension] asks nothing: it always executes the first
    enable command, the global one exactly when the first was rejected,
    and shows exactly one message.  The message is an error only when both
    commands were rejected, and then it carries the error of the global
    command: the error of the first one is lost. *)
Theorem X22_enable_reports_once (extensionId : string) (displayName : option string)
    (w : Workbench) :
  let name := orElse displayName extensionId in
  let w' := enableExtension executeCommand extensionId displayName w in
  let first := attempt executeCommand (executed w) ENABLE_COMMANDS extensionId 0 in
  let second := attempt executeCommand (executed w) ENABLE_COMMANDS extensionId 1 in
  exists message,
    shown w' = shown w ++ [message] /\
    (first = Some (Ok tt) ->
     executed w' = executed w ++ callsOf extensionId (take 1 ENABLE_COMMANDS) /\
     message = InformationMessage ("Enabled " +:+ name +:+ ".")) /\
    (first <> Some (Ok tt) ->
     executed w' = executed w ++ callsOf extensionId ENABLE_COMMANDS /\
     (second = Some (Ok tt) ->
      message = InformationMessage ("Enabled " +:+ name +:+ ".")) /\
     (forall error, second = Some (Throw error) ->
      message = ErrorMessage ("Failed to enable " +:+ name +:+ ": " +:+ error))).
Proof.
  cbv zeta. unfold enableExtension, executeWithFallback, ENABLE_COMMANDS.
  cbn [fallbackLoop]. rewrite !attempt_later, !attempt_first.
  destruct (executeCommand (executed w) _ extensionId) as [[]|e1] eqn:E1.
  - eexists. cbn [executed shown]. split; [reflexivity|]. split.
    + intros _. split; reflexivity.
    + intros H. contradiction H. reflexivity.
  - destruct (executeCommand (executed w ++ _) _ extensionId) as [[]|e2] eqn:E2;
      eexists; cbn [executed shown]; (split; [reflexivity|]);
      (split; [discriminate|]); intros _;
      (split; [rewrite <- app_assoc; reflexivity|]);
      split; try discriminate; try reflexivity.
    intros error [= <-]. reflexivity.
Qed.

End EnablementFacts.

Lemma X21_dismissed_dialog :
  disableExtension onlyGlobally dismisses "pub.ext" (Some "Ext") emptyWorkbench
  = emptyWorkbench.
Proof.
  apply (X21_disable_asks_before_it_acts onlyGlobally dismisses "pub.ext" (Some "Ext")
           emptyWorkbench).
  discriminate.
Defined.

Example disable_stops_after_the_first_command :
  disableExtension everythingWorks confirms "pub.ext" (Some "Ext") emptyWorkbench
  = {| executed := callsOf "pub.ext" (take 1 DISABLE_COMMANDS);
       shown := [InformationMessage "Disabled Ext."] |}.
Proof. reflexivity. Qed.

Example disable_falls_back_to_the_global_command :
  disableExtension onlyGlobally confirms "pub.ext" (Some "Ext") emptyWorkbench
  = {| executed := callsOf "pub.ext" DISABLE_COMMANDS;
       shown := [InformationMessage "Disabled Ext."] |}.
Proof. reflexivity. Qed.

Example enable_shows_the_last_error :
  enableExtension nothingWorks "pub.ext" None emptyWorkbench
  = {| executed := callsOf "pub.ext" ENABLE_COMMANDS;
       shown := [ErrorMessage
         "Failed to enable pub.ext: no workbench.extensions.enableExtensionGlobally"] |}.
Proof. reflexivity. Qed.

Example no_command_rejects_with_undefined :
  executeWithFallback nothingWorks [] "pub.ext" [] = ([], Rejected None).
Proof. reflexivity. Qed.

(** ** The target of the enable and disable commands *)



Example tree_item_with_empty_label :
  resolveExtensionTarget treeItemTarget
  = Some {| rt_id := "pub.ext"; rt_name := Some "" |} /\
  orElse (Some "") "pub.ext" = "pub.ext".
Proof. split; reflexivity. Qed.

Example empty_string_target_is_resolved :
  resolveExtensionTarget (TargetString "") = Some {| rt_id := ""; rt_name := None |}.
Proof. reflexivity. Qed.

Example empty_extensionId_hides_id :
  resolveExtensionTarget
    (TargetObject {| cd_extensionId := Some ""; cd_id := Some "pub.ext";
                     cd_label := None; cd_displayName := None |})
  = None.
Proof. reflexivity. Qed.

(** ** The report *)

Section SortedFirst.

Context {A : Type}.

Variable compareFn : A -> A -> Q.
Variable before : A -> A -> Prop.
Hypothesis before_trans : forall x y z, before x y -> before y z -> before x z.
Hypothesis compare_negative : forall x y, compareFn x y < 0 -> before x y.
Hypothesis compare_other : forall x y, 0 <= compareFn x y -> before y x.

Lemma take_of_sorted_is_first (n : nat) (l : list A) :
  firstBy before n l (take n (arraySort compareFn l)).
Proof.
  pose proof (arraySort_sorted compareFn before before_trans compare_negative
                compare_other l) as Hs.
  pose proof (arraySort_perm compareFn l) as Hp.
  set (sorted := arraySort compareFn l) in *.
  rewrite <- (take_drop n sorted) in Hs.
  split; [rewrite length_take, (Permutation_length Hp); lia|].
  split; [exact (StronglySorted_app_1_l _ _ _ Hs)|].
  exists (drop n sorted). split; [rewrite take_drop; symmetry; exact Hp|].
  intros t o Ht Ho. exact (StronglySorted_app_1_elem_of _ _ _ _ _ Hs Ht Ho).
Qed.

End SortedFirst.

Lemma ascending_first {A} (key : A -> Q) (n : nat) (l : list A) :
  firstBy (fun a b => key a <= key b) n l (take n (arraySort (fun a b => key a - key b) l)).
Proof.
  apply take_of_sorted_is_first.
  - intros x y z Hxy Hyz. exact (Qle_trans _ _ _ Hxy Hyz).
  - intros x y H. lra.
  - intros x y H. lra.
Qed.

Lemma descending_first {A} (key : A -> Q) (n : nat) (l : list A) :
  firstBy (fun a b => key b <= key a) n l (take n (arraySort (fun a b => key b - key a) l)).
Proof.
  apply take_of_sorted_is_first.
  - intros x y z Hxy Hyz. exact (Qle_trans _ _ _ Hyz Hxy).
  - intros x y H. lra.
  - intros x y H. lra.
Qed.

(** The histories copied into the report. *)
Lemma copied_histories (performanceHistory : gmap string PerformanceHistory)
    (l : list ExtensionMetrics) (i : string) :
  forall data : gmap string PerformanceHistory,
  fold_left
    (fun (data : gmap string PerformanceHistory) metric =>
       match performanceHistory !! em_id metric with
       | Some history => <[em_id metric := history]> data
       | None => data
       end) l data !! i
  = match (if decide (i ∈ map em_id l) then performanceHistory !! i else None) with
    | Some history => Some history
    | None => data !! i
    end.
Proof.
  induction l as [|m l IH]; intros data; cbn [fold_left map].
  - destruct (decide (i ∈ [])) as [H|_]; [inversion H|reflexivity].
  - rewrite IH.
    destruct (decide (i ∈ map em_id l)) as [Hin|Hout].
    + destruct (decide (i ∈ em_id m :: map em_id l)) as [_|H];
        [|contradiction H; right; exact Hin].
      destruct (performanceHistory !! i) as [h|] eqn:Ei; [reflexivity|].
      destruct (performanceHistory !! em_id m) as [h|] eqn:Em; [|reflexivity].
      rewrite lookup_insert_ne; [reflexivity|]. intros Heq. rewrite Heq in Em. congruence.
    + destruct (decide (i = em_id m)) as [->|Hne].
      * destruct (decide (em_id m ∈ em_id m :: map em_id l)) as [_|H];
          [|contradiction H; left].
        destruct (performanceHistory !! em_id m) as [h|] eqn:Em; [|reflexivity].
        apply lookup_insert_eq.
      * destruct (decide (i ∈ em_id m :: map em_id l)) as [H|_].
        { apply elem_of_cons in H as [H|H]; contradiction. }
        destruct (performanceHistory !! em_id m) as [h|]; [|reflexivity].
        apply lookup_insert_ne. congruence.
Qed.

Lemma filter_quiet {A} (f : A -> bool) (l : list A) :
  (0 <? length (List.filter f l))%nat = false <-> forall m, m ∈ l -> f m = false.
Proof.
  rewrite Nat.ltb_ge. split.
  - intros Hlen m Hm. destruct (f m) eqn:E; [|reflexivity].
    assert (Hin : In m (List.filter f l)).
    { apply List.filter_In. split; [apply list_elem_of_In, Hm|exact E]. }
    destruct (List.filter f l); [destruct Hin|cbn [length] in Hlen; lia].
  - intros Hall. induction l as [|x l IH]; cbn [List.filter length]; [lia|].
    rewrite (Hall x) by left. apply IH. intros m Hm. apply Hall. right. exact Hm.
Qed.

Lemma filter_loud {A} (f : A -> bool) (l : list A) (m : A) :
  m ∈ l -> f m = true -> (0 <? length (List.filter f l))%nat = true /\ m ∈ List.filter f l.
Proof.
  intros Hm E.
  assert (Hin : In m (List.filter f l)).
  { apply List.filter_In. split; [apply list_elem_of_In, Hm|exact E]. }
  split; [|apply list_elem_of_In, Hin].
  apply Nat.ltb_lt. destruct (List.filter f l); [destruct Hin|cbn [length]; lia].
Qed.

Section ReportFacts.

Variable String_ : nat -> string.

(** X24. The rows of the report are the monitor's current metrics in
    descending order of cpu plus memory.  The report holds the history of
    exactly the ids among them that have one.  Each list of performers
    holds five active rows (all when there are fewer): the top performers
    those with the lowest cpu, respectively memory, in ascending order, the
    worst performers those with the highest, in descending order. *)
Theorem X24_report_rows_and_performers (monitorMetrics : list ExtensionMetrics)
    (performanceHistory : gmap string PerformanceHistory) (now : Q) :
  let report := generateReportData String_ monitorMetrics performanceHistory now in
  let rows := rd_currentMetrics report in
  let active := List.filter em_isActive rows in
  rows ≡ₚ monitorMetrics /\
  StronglySorted
    (fun a b => cpuUsage b + memoryUsage b <= cpuUsage a + memoryUsage a) rows /\
  (forall i,
     rd_historicalData report !! i
     = if decide (i ∈ map em_id monitorMetrics) then performanceHistory !! i else None) /\
  (forall m, m ∈ active <-> m ∈ monitorMetrics /\ em_isActive m = true) /\
  firstBy (fun a b => cpuUsage a <= cpuUsage b) 5 active
    (topPerformers_cpu (rd_insights report)) /\
  firstBy (fun a b => memoryUsage a <= memoryUsage b) 5 active
    (topPerformers_memory (rd_insights report)) /\
  firstBy (fun a b => cpuUsage b <= cpuUsage a) 5 active
    (worstPerformers_cpu (rd_insights report)) /\
  firstBy (fun a b => memoryUsage b <= memoryUsage a) 5 active
    (worstPerformers_memory (rd_insights report)).
Proof.
  cbv zeta. unfold generateReportData, generateInsights.
  cbn [rd_currentMetrics rd_historicalData rd_insights topPerformers_cpu
       topPerformers_memory worstPerformers_cpu worstPerformers_memory].
  split; [apply arraySort_perm|].
  split; [exact (sorted_descending (fun m => cpuUsage m + memoryUsage m) monitorMetrics)|].
  split.
  { intros i. rewrite copied_histories, lookup_empty.
    destruct (decide (i ∈ map em_id monitorMetrics)); [|reflexivity].
    destruct (performanceHistory !! i); reflexivity. }
  split.
  { intros m. rewrite list_elem_of_In, List.filter_In, <- list_elem_of_In.
    rewrite (arraySort_perm _ monitorMetrics). reflexivity. }
  split; [apply ascending_first|]. split; [apply ascending_first|].
  split; apply descending_first.
Qed.

(** X25. There are at most four recommendations, and there is none exactly
    when no metric is above 10 % cpu or above 50 MB, no inactive one is
    above 5 MB, and at most 20 are active. *)
Theorem X25_no_recommendation_when_quiet (metrics : list ExtensionMetrics)
    (historicalData : gmap string PerformanceHistory) :
  let recommended := generateRecommendations String_ metrics historicalData in
  (length recommended <= 4)%nat /\
  (recommended = [] <->
   (forall m, m ∈ metrics ->
      cpuUsage m <= 10 /\ memoryUsage m <= 50 /\
      (em_isActive m = false -> memoryUsage m <= 5)) /\
   (length (List.filter em_isActive metrics) <= 20)%nat).
Proof.
  cbv zeta. unfold generateRecommendations.
  destruct (0 <? length (List.filter (fun m => Qltb 10 (cpuUsage m)) metrics))%nat eqn:E1;
  destruct (0 <? length (List.filter (fun m => Qltb 50 (memoryUsage m)) metrics))%nat eqn:E2;
  destruct (20 <? length (List.filter em_isActive metrics))%nat eqn:E3;
  destruct (0 <? length (List.filter
              (fun m => negb (em_isActive m) && Qltb 5 (memoryUsage m)) metrics))%nat eqn:E4;
  (split; [cbn [app length]; lia|]);
  cbn [app].
  16: {
    split; [intros _|reflexivity].
    split; [|apply Nat.ltb_ge in E3; exact E3].
    intros m Hm.
    pose proof (proj1 (filter_quiet _ _) E1 m Hm) as H1.
    pose proof (proj1 (filter_quiet _ _) E2 m Hm) as H2.
    pose proof (proj1 (filter_quiet _ _) E4 m Hm) as H4.
    cbn beta in H1, H2, H4. apply Qltb_ge in H1, H2.
    split; [exact H1|]. split; [exact H2|].
    intros Hi. rewrite Hi in H4. cbn [negb andb] in H4. apply Qltb_ge in H4. exact H4. }
  all: split; [discriminate|]; intros [Hall Hactive]; exfalso.
  all: try (apply Nat.ltb_lt in E3; lia).
  all: try (assert (Q1 : (0 <? length (List.filter (fun m => Qltb 10 (cpuUsage m)) metrics))%nat
                         = false);
            [apply filter_quiet; intros m Hm; apply Qltb_ge, (Hall m Hm)|congruence]).
  all: try (assert (Q2 : (0 <? length (List.filter (fun m => Qltb 50 (memoryUsage m)) metrics))%nat
                         = false);
            [apply filter_quiet; intros m Hm; apply Qltb_ge, (Hall m Hm)|congruence]).
  all: assert (Q4 : (0 <? length (List.filter
                      (fun m => negb (em_isActive m) && Qltb 5 (memoryUsage m)) metrics))%nat
                    = false);
    [apply filter_quiet; intros m Hm; destruct (em_isActive m) eqn:Ea; [reflexivity|];
     cbn [negb andb]; apply Qltb_ge; apply (Hall m Hm); exact Ea
    |congruence].
Qed.

(** X26. The memory estimate of an inactive extension is above 5 MB
    exactly when the draw is at least 0.7, whatever its manifest; the
    report then ends with the recommendation about inactive extensions
    that still use memory, and names the extension in it. *)
Theorem X26_inactive_estimate_is_recommended (random : Q)
    (packageJSON : option Manifest) (metric : ExtensionMetrics)
    (metrics : list ExtensionMetrics) (historicalData : gmap string PerformanceHistory) :
  0 <= random -> random < 1 ->
  metric ∈ metrics -> em_isActive metric = false ->
  memoryUsage metric = estimateMemoryUsage random false packageJSON ->
  (5 < memoryUsage metric <-> (7 # 10) <= random) /\
  ((7 # 10) <= random ->
   exists names,
     em_displayName metric ∈ names /\
     last (generateRecommendations String_ metrics historicalData)
     = Some ("Some inactive extensions are still using memory: " +:+ join names)).
Proof.
  intros H0 H1 Hin Hinactive Hmem.
  assert (Hiff : 5 < memoryUsage metric <-> (7 # 10) <= random).
  { rewrite Hmem. unfold estimateMemoryUsage, Math_round.
    set (raw := 0 + 2 + random * 5 + (1 # 2)).
    change 5 with (inject_Z 5). rewrite <- Zlt_Qlt. split.
    - intros H. assert (H6 : (6 <= Qfloor raw)%Z) by lia.
      pose proof (Qfloor_le raw) as Hle. rewrite Zle_Qle in H6.
      assert (inject_Z 6 <= raw) by (eapply Qle_trans; eassumption).
      subst raw. change (inject_Z 6) with 6 in *. lra.
    - intros H. assert (H6 : inject_Z 6 <= raw)
        by (subst raw; change (inject_Z 6) with 6; lra).
      apply Qfloor_resp_le in H6. rewrite Qfloor_Z in H6. lia. }
  split; [exact Hiff|]. intros Hdraw. apply Hiff in Hdraw.
  destruct (filter_loud (fun m => negb (em_isActive m) && Qltb 5 (memoryUsage m))
              metrics metric Hin) as (Hloud & Hlisted).
  { rewrite Hinactive. cbn [negb andb]. apply Qltb_lt, Hdraw. }
  eexists. split; [apply list_elem_of_fmap_2, Hlisted|].
  unfold generateRecommendations. rewrite Hloud. apply last_snoc.
Qed.

End ReportFacts.

Lemma X26_dormant_extension_draw_0_8 :
  memoryUsage (dormant (8 # 10)) = 6 /\
  last (generateRecommendations (fun _ => "1") [sample "pub.ext" 1 10 1000; dormant (8 # 10)] ∅)
  = Some "Some inactive extensions are still using memory: Dormant" /\
  5 < memoryUsage (dormant (8 # 10)).
Proof.
  split; [reflexivity|]. split; [reflexivity|].
  assert (H0 : 0 <= (8 # 10)) by discriminate.
  assert (H1 : (8 # 10) < 1) by reflexivity.
  assert (Hin : dormant (8 # 10) ∈ [sample "pub.ext" 1 10 1000; dormant (8 # 10)])
    by (right; left).
  destruct (X26_inactive_estimate_is_recommended (fun _ => "1") (8 # 10) None
              (dormant (8 # 10)) [sample "pub.ext" 1 10 1000; dormant (8 # 10)] ∅
              H0 H1 Hin eq_refl eq_refl) as (Hiff & _).
  apply Hiff. discriminate.
Defined.

(** ** The status bar *)

(** X27. While the monitor runs, the background of the status bar follows
    the load: it is the error colour exactly when the total cpu is above
    50 % or the total memory above 500 MB, no colour exactly when they are
    at most 25 % and 250 MB, and a higher load never gives a less alarming
    colour.  A stopped monitor shows the warning colour whatever the load,
    and before [initialize] nothing is changed. *)
Theorem X27_background_follows_the_load (isMonitoring : bool)
    (summary summary' : PerformanceSummary) (backgroundColor : option ThemeColor) :
  totalCpuUsage summary <= totalCpuUsage summary' ->
  totalMemoryUsage summary <= totalMemoryUsage summary' ->
  (severity (updateStatusBar true true summary backgroundColor)
   <= severity (updateStatusBar true true summary' backgroundColor))%nat /\
  (updateStatusBar true true summary backgroundColor = Some errorBackground <->
   50 < totalCpuUsage summary \/ 500 < totalMemoryUsage summary) /\
  (updateStatusBar true true summary backgroundColor = None <->
   totalCpuUsage summary <= 25 /\ totalMemoryUsage summary <= 250) /\
  updateStatusBar true false summary backgroundColor = Some warningBackground /\
  updateStatusBar false isMonitoring summary backgroundColor = backgroundColor.
Proof.
  intros Hcpu Hmem. unfold updateStatusBar. cbn [negb].
  destruct (Qltb 50 (totalCpuUsage summary)) eqn:C50;
  destruct (Qltb 500 (totalMemoryUsage summary)) eqn:M500;
  destruct (Qltb 25 (totalCpuUsage summary)) eqn:C25;
  destruct (Qltb 250 (totalMemoryUsage summary)) eqn:M250;
  destruct (Qltb 50 (totalCpuUsage summary')) eqn:C50';
  destruct (Qltb 500 (totalMemoryUsage summary')) eqn:M500';
  destruct (Qltb 25 (totalCpuUsage summary')) eqn:C25';
  destruct (Qltb 250 (totalMemoryUsage summary')) eqn:M250';
  cbn [orb severity];
  repeat match goal with
         | H : Qltb _ _ = true |- _ => apply Qltb_lt in H
         | H : Qltb _ _ = false |- _ => apply Qltb_ge in H
         end;
  (split; [try lia; exfalso; lra|]);
  (split; [split; [try discriminate; intros _; (left; assumption) || (right; assumption)
                  |try reflexivity; intros [H|H]; exfalso; lra]|]);
  (split; [split; [try discriminate; intros _; split; assumption
                  |try reflexivity; intros [Ha Hb]; exfalso; lra]|]);
  split; reflexivity.
Qed.

Lemma X27_one_more_busy_extension :
  (severity (updateStatusBar true true (getPerformanceSummary [sample "pub.ext" 20 100 1000] 1000) None)
   <= severity (updateStatusBar true true
        (getPerformanceSummary [sample "pub.other" 40 10 1000; sample "pub.ext" 20 100 1000] 1000)
        None))%nat /\
  updateStatusBar true true
    (getPerformanceSummary [sample "pub.other" 40 10 1000; sample "pub.ext" 20 100 1000] 1000)
    None = Some errorBackground.
Proof.
  split; [|reflexivity].
  apply (X27_background_follows_the_load true
           (getPerformanceSummary [sample "pub.ext" 20 100 1000] 1000)
           (getPerformanceSummary [sample "pub.other" 40 10 1000; sample "pub.ext" 20 100 1000] 1000)
           None); discriminate.
Defined.
